(** * rampedpyrox: isotope deconvolution core, shallow embedding

    The development follows [rampedpyrox/core/core_functions.py] and
    [rampedpyrox/core/isotoperesult.py].  Floating-point arrays are read over
    exact rational arithmetic ([Q], compared with [==]); a Python int is an
    integer ([Z]) and becomes a float where the code multiplies it with an
    array; Python exceptions are values of [pyerr] carried by the [result]
    error monad. *)

From Stdlib Require Import String ZArith QArith Qround Bool List Sorted Lia Lqa.
Import ListNotations.

Local Open Scope Q_scope.

(** ** Exceptions and the error monad *)

Inductive pyerr : Type :=
| ArrayError (msg : string)
| LengthError (got : nat) (want : Z)
| ValueError (msg : string)
| AttributeError (attr : string)
| IndexError
| TypeError
| ZeroDivisionError
| OverflowError
| RecursionError.

Inductive result (A : Type) : Type :=
| Ok (a : A)
| Raise (e : pyerr).

Arguments Ok {A} a.
Arguments Raise {A} e.

Definition bind {A B : Type} (m : result A) (k : A -> result B) : result B :=
  match m with
  | Ok a => k a
  | Raise e => Raise e
  end.

Notation "x <- m ;; k" := (bind m (fun x => k))
  (at level 61, m at next level, right associativity).
Notation "' p <- m ;; k" := (bind m (fun x => match x with p => k end))
  (at level 61, p pattern, m at next level, right associativity).

Fixpoint mapM {A B : Type} (f : A -> result B) (l : list A) : result (list B) :=
  match l with
  | [] => Ok []
  | a :: l' => b <- f a ;; bs <- mapM f l' ;; Ok (b :: bs)
  end.

Definition is_ok {A : Type} (m : result A) : bool :=
  match m with Ok _ => true | Raise _ => false end.

(** ** numpy operations used by the package, over exact rationals *)

Module Np.

(** A two-dimensional array: its rows and the length of the second axis
    ([np.shape(M)] is [(shape0 M, shape1 M)]). *)
Record matrix : Type := Mat { shape1 : nat; mrows : list (list Q) }.

Definition shape0 (M : matrix) : nat := length (mrows M).

(** Every row has [shape1] entries. *)
Definition wf_matrix (M : matrix) : Prop :=
  Forall (fun r => length r = shape1 M) (mrows M).

(** [np.sum] of a one-dimensional array. *)
Definition sum (v : list Q) : Q := fold_right Qplus 0 v.

(** [np.ones(n)]: numpy refuses a negative dimension. *)
Definition ones (n : Z) : result (list Q) :=
  if (n <? 0)%Z then Raise (ValueError "negative dimensions are not allowed")
  else Ok (repeat 1 (Z.to_nat n)).

(** [np.zeros(n)] for a length that is already a [nat]. *)
Definition zeros (n : nat) : list Q := repeat 0 n.

(** Element-wise binary operation on two one-dimensional arrays; numpy raises
    a [ValueError] when the shapes cannot be broadcast together. *)
Fixpoint zip_with (op : Q -> Q -> Q) (u v : list Q) : result (list Q) :=
  match u, v with
  | [], [] => Ok []
  | a :: u', b :: v' => r <- zip_with op u' v' ;; Ok (op a b :: r)
  | _, _ => Raise (ValueError "operands could not be broadcast together")
  end.

(** Row-vector addition and subtraction, truncating like [zip]; they are only
    applied to rows of one matrix or of equally shaped matrices. *)
Fixpoint vadd (u v : list Q) : list Q :=
  match u, v with
  | a :: u', b :: v' => (a + b) :: vadd u' v'
  | _, _ => []
  end.

Fixpoint vsub (u v : list Q) : list Q :=
  match u, v with
  | a :: u', b :: v' => (a - b) :: vsub u' v'
  | _, _ => []
  end.

Definition vhalf (u : list Q) : list Q := map (fun a => a / 2) u.

Definition dot (u v : list Q) : Q := sum (map (fun p => fst p * snd p) (combine u v)).

(** [np.gradient] with unit spacing along the first axis: one-sided
    differences at both ends, central differences inside; fewer than two
    entries is a [ValueError]. *)
Section Gradient.
Variable T : Type.
Variable sub : T -> T -> T.
Variable half : T -> T.

Fixpoint gradient_from (prev cur : T) (rest : list T) : list T :=
  match rest with
  | [] => [sub cur prev]
  | nxt :: rest' => half (sub nxt prev) :: gradient_from cur nxt rest'
  end.

Definition gradient_gen (a : list T) : result (list T) :=
  match a with
  | a0 :: a1 :: rest => Ok (sub a1 a0 :: gradient_from a0 a1 rest)
  | _ => Raise (ValueError "Shape of array too small to calculate a numerical gradient")
  end.
End Gradient.

Definition gradient : list Q -> result (list Q) :=
  gradient_gen Q Qminus (fun a => a / 2).

(** [np.gradient(M, axis=0)]. *)
Definition gradient_axis0 (M : matrix) : result matrix :=
  g <- gradient_gen (list Q) vsub vhalf (mrows M) ;; Ok (Mat (shape1 M) g).

(** [np.gradient(M)[0]]: the gradient is taken along both axes, so both need
    two entries; the first component is the one along axis 0. *)
Definition gradient_all_0 (M : matrix) : result matrix :=
  if (shape1 M <? 2)%nat
  then Raise (ValueError "Shape of array too small to calculate a numerical gradient")
  else gradient_axis0 M.

Definition neg (v : list Q) : list Q := map Qopp v.

Definition mneg (M : matrix) : matrix := Mat (shape1 M) (map neg (mrows M)).

(** [M.T]. *)
Definition column (k : nat) (M : matrix) : list Q := map (fun r => nth k r 0) (mrows M).

Definition transpose (M : matrix) : matrix :=
  Mat (shape0 M) (map (fun k => column k M) (seq 0 (shape1 M))).

(** [np.inner(A, v)] for a matrix and a vector: the last axes must agree. *)
Definition inner_mv (A : matrix) (v : list Q) : result (list Q) :=
  if Nat.eqb (shape1 A) (length v)
  then Ok (map (fun r => dot r v) (mrows A))
  else Raise (ValueError "shapes not aligned").

(** [np.inner(A, B)] for two matrices: entry [(i,j)] is the inner product of
    row [i] of [A] with row [j] of [B]. *)
Definition inner_mm (A B : matrix) : result matrix :=
  if Nat.eqb (shape1 A) (shape1 B)
  then Ok (Mat (shape0 B) (map (fun r => map (fun c => dot r c) (mrows B)) (mrows A)))
  else Raise (ValueError "shapes not aligned").

(** [np.column_stack((u, v))] of two one-dimensional arrays. *)
Fixpoint column_stack2 (u v : list Q) : result (list (Q * Q)) :=
  match u, v with
  | [], [] => Ok []
  | a :: u', b :: v' => r <- column_stack2 u' v' ;; Ok ((a, b) :: r)
  | _, _ => Raise (ValueError "all the input array dimensions must match exactly")
  end.

(** [np.where(cond)[0]]: the positions where the mask holds, ascending. *)
Fixpoint where_from (i : nat) (mask : list bool) : list nat :=
  match mask with
  | [] => []
  | b :: mask' => if b then i :: where_from (S i) mask' else where_from (S i) mask'
  end.

Definition where_ (mask : list bool) : list nat := where_from 0 mask.

(** [a[ind]] with an index array. *)
Definition take {A : Type} (a : list A) (ind : list nat) : result (list A) :=
  mapM (fun i => match nth_error a i with
                 | Some x => Ok x
                 | None => Raise IndexError
                 end) ind.

(** [a[0]] and [a[-1]]. *)
Definition first {A : Type} (a : list A) : result A :=
  match a with
  | [] => Raise IndexError
  | x :: _ => Ok x
  end.

Definition last {A : Type} (a : list A) : result A :=
  match rev a with
  | [] => Raise IndexError
  | x :: _ => Ok x
  end.

(** [np.sum(rows, axis=0)] for rows of [ncols] entries. *)
Definition sum_axis0 (ncols : nat) (rows : list (list Q)) : list Q :=
  fold_right vadd (zeros ncols) rows.

(** [np.average(ind, weights=w)]: weights that sum to zero are refused. *)
Definition average (ind : list nat) (w : list Q) : result Q :=
  let scl := sum w in
  if Qeq_bool scl 0 then Raise ZeroDivisionError
  else
    prod <- zip_with Qmult (map (fun i => inject_Z (Z.of_nat i)) ind) w ;;
    Ok (sum prod / scl).

(** [np.round]: to the nearest integer, halves to the even neighbour. *)
Definition round (x : Q) : Z :=
  let f := Qfloor x in
  let r := x - inject_Z f in
  match Qcompare r (1 # 2) with
  | Lt => f
  | Gt => (f + 1)%Z
  | Eq => if Z.even f then f else (f + 1)%Z
  end.

End Np.

(** ** core_functions.py *)

Module Core.
Import Np.

(** A numpy array of one or two dimensions. *)
Inductive ndarray : Type :=
| Arr1 (v : list Q)
| Arr2 (M : matrix).

Definition arr_len (a : ndarray) : nat :=
  match a with Arr1 v => length v | Arr2 M => shape0 M end.

(** The Python values the helpers dispatch on. *)
Inductive pyobj : Type :=
| PyInt (z : Z)              (* int (and bool, a subclass of int) *)
| PyFloat (x : Q)            (* float (and np.float64, a subclass of float) *)
| PyStr (s : string)         (* str: a Sequence *)
| PySeq (l : list Q)         (* list or tuple of floats: a Sequence *)
| PyArray (a : ndarray)      (* has __array__ and a length *)
| PyNone                     (* an object that is none of the others *)
| PyArray0 (x : Q).          (* a 0-dimensional array or a numpy scalar that is
                                no Python int or float (np.int64, np.float32):
                                has __array__, and no length *)

(** [isinstance(data, (int, float))] *)
Definition is_scalar (data : pyobj) : bool :=
  match data with PyInt _ | PyFloat _ => true | _ => false end.

(** [isinstance(data, Sequence)] *)
Definition is_Sequence (data : pyobj) : bool :=
  match data with PyStr _ | PySeq _ => true | _ => false end.

(** [hasattr(data, '__array__')] *)
Definition has___array__ (data : pyobj) : bool :=
  match data with PyArray _ | PyArray0 _ => true | _ => false end.

(** [isinstance(data, str)] *)
Definition is_str (data : pyobj) : bool :=
  match data with PyStr _ => true | _ => false end.

(** [len(data)] *)
Definition len (data : pyobj) : result nat :=
  match data with
  | PyStr s => Ok (String.length s)
  | PySeq l => Ok (length l)
  | PyArray a => Ok (arr_len a)
  | PyInt _ | PyFloat _ | PyNone | PyArray0 _ => Raise TypeError
  end.

(** The first integer too large for a float: [2**1024 - 2**970] rounds to
    [2**1024], which no float holds. *)
Definition float_overflow : Z := (2 ^ 1024 - 2 ^ 970)%Z.

(** The float a scalar is multiplied as: a float as it is; an int converted,
    which is an [OverflowError] for an int out of the range of floats. *)
Definition to_float (data : pyobj) : result Q :=
  match data with
  | PyInt z => if (Z.abs z <? float_overflow)%Z then Ok (inject_Z z)
               else Raise OverflowError
  | PyFloat x => Ok x
  | _ => Raise TypeError
  end.

(** [data*np.ones(n)] for a scalar [data].  An int that does not fit 64 bits
    is multiplied as a Python object, entry by entry (numpy 1.x, which the
    package is written against): the int is converted once for each entry of
    [np.ones(n)], and not at all when there is none.  For the other scalars
    the conversion cannot fail. *)
Definition scalar_times (data : pyobj) (o : list Q) : result (list Q) :=
  mapM (fun one => x <- to_float data ;; Ok (x * one)) o.

(** [np.array(data).astype(float)], for the data that has a length. *)
Definition as_float_array (data : pyobj) : result ndarray :=
  match data with
  | PySeq l => Ok (Arr1 l)
  | PyArray a => Ok a
  | PyStr _ => Raise (ValueError "could not convert string to float")
  | PyInt _ | PyFloat _ | PyNone | PyArray0 _ => Raise TypeError
  end.

(** [assert_len(data, n)] *)
Definition assert_len (data : pyobj) (n : Z) : result ndarray :=
  if is_scalar data then
    o <- ones n ;;
    v <- scalar_times data o ;;
    Ok (Arr1 v)
  else if is_Sequence data || has___array__ data then
    if is_str data then Raise (ArrayError "Data cannot be a string")
    else
      l <- len data ;;
      if negb (Z.of_nat l =? n)%Z then Raise (LengthError l n)
      else as_float_array data
  else Raise (ArrayError "data must be scalar or array-like").

(** The keyword arguments [Model.calc_L_curve] is called with. *)
Record lcurve_kwargs (Axis : Type) : Type := LKw {
  kw_ax : option Axis;
  kw_plot : bool;
  kw_nOm : Z;
  kw_om_max : Q;
  kw_om_min : Q
}.

Arguments LKw {Axis}.
Arguments kw_ax {Axis}.
Arguments kw_plot {Axis}.
Arguments kw_nOm {Axis}.
Arguments kw_om_max {Axis}.
Arguments kw_om_min {Axis}.

(** [calc_L_curve(model, timedata, ax, plot, nOm, om_max, om_min)]: the
    model's own method is a collaborator, taken as [method]; the keyword list
    is the one of lines 153-159. *)
Definition calc_L_curve {Model TimeData Axis Res : Type}
    (method : Model -> TimeData -> lcurve_kwargs Axis -> Res)
    (model : Model) (timedata : TimeData)
    (ax : option Axis) (plot : bool) (nOm : Z) (om_max om_min : Q) : Res :=
  method model timedata
    {| kw_ax := ax;
       kw_plot := plot;
       kw_nOm := nOm;
       kw_om_max := om_max;
       kw_om_min := om_max |}.

(** The defaults of the signature: [nOm = 150, om_max = 1e2, om_min = 1e-3]. *)
Definition default_nOm : Z := 150.
Definition default_om_max : Q := 100.
Definition default_om_min : Q := 1 # 1000.

(** [np.column_stack(col_der)] of one-dimensional arrays of one length. *)
Definition column_stack (cols : list (list Q)) : result ndarray :=
  match cols with
  | [] => Raise (ValueError "need at least one array to concatenate")
  | c :: _ =>
      if forallb (fun c' => Nat.eqb (length c') (length c)) cols
      then Ok (Arr2 (transpose (Mat (length c) cols)))
      else Raise (ValueError "all the input array dimensions must match exactly")
  end.

(** Element-wise quotient of two equally shaped matrices. *)
Definition mdiv (N D : matrix) : result matrix :=
  if Nat.eqb (shape1 N) (shape1 D) then
    rows <- (fix go (n d : list (list Q)) : result (list (list Q)) :=
               match n, d with
               | [], [] => Ok []
               | r :: n', s :: d' =>
                   q <- zip_with Qdiv r s ;; qs <- go n' d' ;; Ok (q :: qs)
               | _, _ => Raise (ValueError "operands could not be broadcast together")
               end) (mrows N) (mrows D) ;;
    Ok (Mat (shape1 N) rows)
  else Raise (ValueError "operands could not be broadcast together").

(** A one-dimensional array is the only thing [derivatize] recurses on. *)
Definition as_1d (r : ndarray) : result (list Q) :=
  match r with
  | Arr1 v => Ok v
  | Arr2 _ => Raise (ValueError "all the input arrays must have same number of dimensions")
  end.

(** The body of [derivatize(num, denom)]; [self] stands for the function in
    its two recursive calls. *)
Definition derivatize_body (self : pyobj -> pyobj -> result ndarray)
    (num denom : pyobj) : result ndarray :=
  (* assert denom is the right type *)
  _ <- (if is_Sequence denom || has___array__ denom then
          if is_str denom then Raise (ArrayError "denom cannot be a string")
          else Ok tt
        else Raise (ArrayError "denom must be array-like")) ;;
  n <- len denom ;;
  num <- assert_len num (Z.of_nat n) ;;
  match denom with
  | PyArray d =>
      match num, d with
      | Arr1 nv, Arr1 dv =>
          gn <- gradient nv ;; gd <- gradient dv ;;
          q <- zip_with Qdiv gn gd ;; Ok (Arr1 q)
      | Arr2 nm, Arr2 dm =>
          gn <- gradient_all_0 nm ;; gd <- gradient_all_0 dm ;;
          q <- mdiv gn gd ;; Ok (Arr2 q)
      | Arr2 nm, Arr1 dv =>
          col_der <- mapM (fun col =>
                       r <- self (PyArray (Arr1 col)) denom ;; as_1d r)
                     (mrows (transpose nm)) ;;
          column_stack col_der
      | Arr1 nv, Arr2 dm =>
          col_der <- mapM (fun col =>
                       r <- self (PyArray (Arr1 nv)) (PyArray (Arr1 col)) ;; as_1d r)
                     (mrows (transpose dm)) ;;
          column_stack col_der
      end
  (* what else gets here is a list or a tuple, which has no [ndim] *)
  | _ => Raise (AttributeError "ndim")
  end.

(** [derivatize] with [depth] bounding the call depth. *)
Fixpoint derivatize_depth (depth : nat) : pyobj -> pyobj -> result ndarray :=
  match depth with
  | O => fun _ _ => Raise RecursionError
  | S depth' => derivatize_body (derivatize_depth depth')
  end.

(** The calls of [derivatize] on columns are between one-dimensional arrays
    and do not recurse further, so a depth of two covers every call. *)
Definition derivatize (num denom : pyobj) : result ndarray :=
  derivatize_depth 2 num denom.

(** Product of a two-dimensional array with a one-dimensional one, as numpy
    broadcasts it: the vector runs along the last axis; an axis of length one
    is stretched; other shapes do not go together. *)
Definition bcast_mul (M : matrix) (v : list Q) : result matrix :=
  if Nat.eqb (shape1 M) (length v) then
    rows <- mapM (fun r => zip_with Qmult r v) (mrows M) ;;
    Ok (Mat (shape1 M) rows)
  else if Nat.eqb (shape1 M) 1 then
    Ok (Mat (length v) (map (fun r => map (fun b => nth 0 r 0 * b) v) (mrows M)))
  else if Nat.eqb (length v) 1 then
    Ok (Mat (shape1 M) (map (fun r => map (fun a => a * nth 0 v 0) r) (mrows M)))
  else Raise (ValueError "operands could not be broadcast together").

Definition msum (M : matrix) : Q := sum (map sum (mrows M)).

Definition mscale (c : Q) (M : matrix) : matrix :=
  Mat (shape1 M) (map (map (fun a => a * c)) (mrows M)).

(** [extract_moments(x, y)] for a one-dimensional array [x]; [sqrt] stands
    for the square root behind [sigsq**0.5]. *)
Definition extract_moments (sqrt : Q -> Q) (x : list Q) (y : pyobj) : result (Q * Q) :=
  let n := length x in
  y <- assert_len y (Z.of_nat n) ;;
  gx <- gradient x ;;
  match y with
  | Arr1 y =>
      yg <- zip_with Qmult y gx ;;
      let scalar := 1 / sum yg in
      xy <- zip_with Qmult x y ;;
      w <- zip_with Qmult (map (fun a => a * scalar) xy) gx ;;
      let mu := sum w in
      dy <- zip_with Qmult (map (fun a => (a - mu) * (a - mu)) x) y ;;
      v <- zip_with Qmult (map (fun a => a * scalar) dy) gx ;;
      let sigsq := sum v in
      Ok (mu, sqrt sigsq)
  | Arr2 y =>
      yg <- bcast_mul y gx ;;
      let scalar := 1 / msum yg in
      xy <- bcast_mul y x ;;
      w <- bcast_mul (mscale scalar xy) gx ;;
      let mu := msum w in
      dy <- bcast_mul y (map (fun a => (a - mu) * (a - mu)) x) ;;
      v <- bcast_mul (mscale scalar dy) gx ;;
      let sigsq := msum v in
      Ok (mu, sqrt sigsq)
  end.

(** The sums [extract_moments] forms, written out: [sum(u*y*g)] over three
    equally long arrays. *)
Fixpoint wsum3 (u y g : list Q) : Q :=
  match u, y, g with
  | a :: u', b :: y', c :: g' => a * b * c + wsum3 u' y' g'
  | _, _, _ => 0
  end.

End Core.

(** ** isotoperesult.py: tables and extraction *)

Module Isotope.
Import Np.

(** [Rpdb = 0.011237], the 13C/12C ratio of VPDB. *)
Definition Rpdb : Q := 11237 # 1000000.

(** [_d13C_to_R13]: [R13 = (d13C/1000 + 1)*Rpdb]. *)
Definition _d13C_to_R13 (d13C : Q) : Q := (d13C / 1000 + 1) * Rpdb.

(** [_R13_to_d13C]: [d13C = (R13/Rpdb - 1)*1000]. *)
Definition _R13_to_d13C (R13 : Q) : Q := (R13 / Rpdb - 1) * 1000.

(** [_blank_correct(t0_frac, tf_frac, mass_frac, R13_frac, Fm_frac)] *)
Definition bl_flux : Q := (375 # 1000) / 1000.
Definition bl_Fm : Q := 555 # 1000.
Definition bl_d13C : Q := - (29).
Definition bl_R13 : Q := _d13C_to_R13 bl_d13C.

Definition _blank_correct (t0_frac tf_frac mass_frac R13_frac Fm_frac : list Q)
  : result (list Q * list Q * list Q) :=
  dt <- zip_with Qminus tf_frac t0_frac ;;
  let bl_mass := map (fun d => bl_flux * d) dt in
  mass_frac_corr <- zip_with Qminus mass_frac bl_mass ;;
  mR <- zip_with Qmult mass_frac R13_frac ;;
  numR <- zip_with Qminus mR (map (fun b => b * bl_R13) bl_mass) ;;
  R13_frac_corr <- zip_with Qdiv numR mass_frac_corr ;;
  mF <- zip_with Qmult mass_frac Fm_frac ;;
  numF <- zip_with Qminus mF (map (fun b => b * bl_Fm) bl_mass) ;;
  Fm_frac_corr <- zip_with Qdiv numF mass_frac_corr ;;
  Ok (mass_frac_corr, R13_frac_corr, Fm_frac_corr).

(** The operands of a Python [and] chain: [x and y] is [y] when [x] is
    truthy and [x] otherwise; a string is truthy unless it is empty. *)
Inductive pyval : Type :=
| VStr (s : string)
| VBool (b : bool).

Definition truthy (v : pyval) : bool :=
  match v with
  | VStr s => negb (String.eqb s "")
  | VBool b => b
  end.

Definition py_and (x y : pyval) : pyval := if truthy x then y else x.

(** A pandas table: columns of numbers under distinct labels, and an index,
    which is either a [DatetimeIndex] (time stamps in seconds) or something
    else.  The labels being distinct (as in every table read from a file,
    where pandas renames a repeated label), the columns are a map from
    labels: a label is that of one column or of none.  In pandas every
    column is as long as the index; the model does not rely on it and checks
    lengths where numpy does. *)
Inductive pdindex : Type :=
| DatetimeIndex (stamps : list Z)
| OtherIndex (n : nat).

Record DataFrame : Type := Frame {
  df_columns : string -> option (list Q);
  df_index : pdindex
}.

(** The table without columns, and [df[name] = v]: the column is added, or
    replaced when the label is in use. *)
Definition no_columns : string -> option (list Q) := fun _ => None.

Definition set_column (name : string) (v : list Q)
    (cols : string -> option (list Q)) : string -> option (list Q) :=
  fun k => if String.eqb k name then Some v else cols k.

(** [name in sum_data.columns] *)
Definition in_columns (name : string) (df : DataFrame) : bool :=
  match df_columns df name with Some _ => true | None => false end.

(** [sum_data.name]: attribute access to a column. *)
Definition getattr (df : DataFrame) (name : string) : result (list Q) :=
  match df_columns df name with
  | Some v => Ok v
  | None => Raise (AttributeError name)
  end.

(** [series[i]] for a position [i]. *)
Definition item {A : Type} (l : list A) (i : nat) : result A :=
  match nth_error l i with
  | Some x => Ok x
  | None => Raise IndexError
  end.

(** The [sum_data] argument: a path, a table, or anything else. *)
Inductive sum_data_arg : Type :=
| SumPath (path : string)
| SumFrame (df : DataFrame)
| SumOther.

(** The test of lines 275-276, as Python parses it: a left-nested [and]
    chain of five string literals and one [not in] test. *)
Definition missing_columns_test (df : DataFrame) : pyval :=
  py_and (py_and (py_and (py_and (py_and
    (VStr "fraction") (VStr "d13C")) (VStr "d13C_std")) (VStr "Fm")) (VStr "Fm_std"))
    (VBool (negb (in_columns "ug_frac" df))).

(** The columns the docstring requires. *)
Definition required_columns : list string :=
  ["fraction"; "d13C"; "d13C_std"; "Fm"; "Fm_std"; "ug_frac"]%string.

(** [secs[1:-1]] and [x[2:]] *)
Definition slice_1_m1 {A : Type} (l : list A) : list A := removelast (skipn 1 l).
Definition slice_2 {A : Type} (l : list A) : list A := skipn 2 l.

(** [TimedeltaIndex.seconds]: the seconds component, in [0, 86400). *)
Definition seconds (delta : Z) : Z := (delta mod 86400)%Z.

(** [np.random.randn(nF, 3)] after [np.random.seed()]: the draws come from
    the generator [rng], of which nothing is known; column [j] of the sample
    is returned. *)
Definition randn_col (rng : nat -> Q) (nF : nat) (j : nat) : list Q :=
  map (fun i => rng (3 * i + j)%nat) (seq 0 nF).

(** Three one-dimensional arrays stacked as columns need one length. *)
Definition column_stack3 (a b c : list Q) : result (list Q * list Q * list Q) :=
  if Nat.eqb (length a) (length b) && Nat.eqb (length b) (length c)
  then Ok (a, b, c)
  else Raise (ValueError "all the input array dimensions must match exactly").

Record fractions : Type := Fractions {
  t0_frac : list Z;
  tf_frac : list Z;
  mass_frac : list Q;
  R13_frac : list Q;
  Fm_frac : list Q
}.

Section Extract.
(** [pd.DataFrame.from_csv], and the random generator of the call. *)
Variable from_csv : string -> result DataFrame.
Variable rng : nat -> Q.

(** The noise matrix [err] of line 308, by columns. *)
Definition noise (sigs : list Q * list Q * list Q) (nF : nat)
  : result (list Q * list Q * list Q) :=
  let '(s0, s1, s2) := sigs in
  e0 <- zip_with Qmult (randn_col rng nF 0) s0 ;;
  e1 <- zip_with Qmult (randn_col rng nF 1) s1 ;;
  e2 <- zip_with Qmult (randn_col rng nF 2) s2 ;;
  Ok (e0, e1, e2).

(** [_extract_isotopes(sum_data, mass_rsd, add_noise)] *)
Definition _extract_isotopes (sum_data : sum_data_arg) (mass_rsd : Q)
    (add_noise : bool) : result fractions :=
  sum_data <- match sum_data with
              | SumPath path => from_csv path
              | SumFrame df => Ok df
              | SumOther => Raise (ValueError "sum_data must be pd.DataFrame or path string")
              end ;;
  if truthy (missing_columns_test sum_data) then
    Raise (ValueError "sum_data must have fraction, d13C, d13C_std, Fm, Fm_std, and ug_frac columns")
  else
  stamps <- match df_index sum_data with
            | DatetimeIndex stamps => Ok stamps
            | OtherIndex _ => Raise (ValueError "sum_data index must be DatetimeIndex")
            end ;;
  fraction <- getattr sum_data "fraction" ;;
  f0 <- item fraction 0 ;;
  bad <- (if negb (Qeq_bool f0 (- (1))) then Ok true
          else f1 <- item fraction 1 ;; Ok (negb (Qeq_bool f1 0))) ;;
  if (bad : bool) then Raise (ValueError "First two rows must be fractions -1 and 0")
  else
  (* extract time data *)
  s0 <- item stamps 0 ;;
  let secs := map (fun s => seconds (s - s0)) stamps in
  let t0_frac := slice_1_m1 secs in
  let tf_frac := slice_2 secs in
  let nF := length t0_frac in
  (* extract mass and isotope data *)
  ug_frac <- getattr sum_data "ug_frac" ;;
  let mass_frac := slice_2 ug_frac in
  d13C <- getattr sum_data "d13C" ;;
  let d13C_frac := slice_2 d13C in
  Fm <- getattr sum_data "Fm" ;;
  let Fm_frac := slice_2 Fm in
  (* extract standard deviations *)
  sigs <- (if add_noise then
             let mass_frac_std := map (fun m => m * mass_rsd) mass_frac in
             d13C_std <- getattr sum_data "d13C_std" ;;
             Fm_std <- getattr sum_data "Fm_std" ;;
             column_stack3 mass_frac_std (slice_2 d13C_std) (slice_2 Fm_std)
           else Ok (zeros nF, zeros nF, zeros nF)) ;;
  (* generate noise and add to data *)
  '(e0, e1, e2) <- noise sigs nF ;;
  mass_frac <- zip_with Qplus mass_frac e0 ;;
  d13C_frac <- zip_with Qplus d13C_frac e1 ;;
  Fm_frac <- zip_with Qplus Fm_frac e2 ;;
  (* convert d13C to 13C/12C ratio *)
  let R13_frac := map _d13C_to_R13 d13C_frac in
  Ok (Fractions t0_frac tf_frac mass_frac R13_frac Fm_frac).
End Extract.

(** *** The contribution of each peak to each fraction *)

(** [rp.LaplaceTransform]: the matrix [A] ([nT x nE]) and the time grid [t]. *)
Record LaplaceTransform : Type := LT {
  lt_A : matrix;
  lt_t : list Q
}.

(** [rp.EnergyComplex], after peaks have been combined. *)
Record EnergyComplex : Type := EC {
  ec_peaks : matrix;        (* nE x nPeak *)
  ec_peaks_13 : matrix;     (* nE x nPeak *)
  ec_phi_hat : list Q;      (* nE *)
  ec_rel_area : list Q;     (* one entry per original peak *)
  ec_eps : list Q
}.

(** [-np.gradient(np.inner(lt.A, ec.phi_hat))]: the modelled thermogram,
    fraction per time step. *)
Definition thermogram (lt : LaplaceTransform) (ec : EnergyComplex) : result (list Q) :=
  g <- inner_mv (lt_A lt) (ec_phi_hat ec) ;;
  dg <- gradient g ;;
  Ok (neg dg).

(** [-np.gradient(np.inner(lt.A, ec.peaks.T), axis=0)]: one column per peak. *)
Definition peak_thermograms (lt : LaplaceTransform) (ec : EnergyComplex) : result matrix :=
  g_peak <- inner_mm (lt_A lt) (transpose (ec_peaks ec)) ;;
  dg <- gradient_axis0 g_peak ;;
  Ok (mneg dg).

(** [np.where((t_tg > row[0]) & (t_tg <= row[1]))[0]] *)
Definition window (t_tg : list Q) (row : Q * Q) : list nat :=
  where_ (map (fun x => negb (Qle_bool x (fst row)) && Qle_bool x (snd row)) t_tg).

Record frac_entry : Type := Entry {
  e_ptf : list Q;
  e_min : nat;
  e_max : nat;
  e_wgh : Z
}.

(** The body of the loop of lines 136-153, for one fraction. *)
Definition frac_step (t_tg tot : list Q) (peaks : matrix) (row : Q * Q)
  : result frac_entry :=
  let ind := window t_tg row in
  imin <- first ind ;;
  imax <- last ind ;;
  tot_ind <- take tot ind ;;
  av <- average ind tot_ind ;;
  let iwgh := round av in
  peaks_ind <- take (mrows peaks) ind ;;
  let s := sum tot_ind in
  let ptf_i := map (fun c => c / s) (sum_axis0 (shape1 peaks) peaks_ind) in
  Ok (Entry ptf_i imin imax iwgh).

Record cont_result : Type := Cont {
  cont_ptf : list (list Q);
  ind_min : list nat;
  ind_max : list nat;
  ind_wgh : list Z
}.

Definition underconstrained : pyerr :=
  ValueError "Under constrained problem! nPeaks > nFractions!!".

(** [_calc_cont_ptf(lt, ec, t0_frac, tf_frac)] *)
Definition _calc_cont_ptf (lt : LaplaceTransform) (ec : EnergyComplex)
    (t0_frac tf_frac : list Q) : result cont_result :=
  let nFrac := length t0_frac in
  let nPeak := shape1 (ec_peaks ec) in
  t <- column_stack2 t0_frac tf_frac ;;
  if (nFrac <? nPeak)%nat then Raise underconstrained
  else
  let t_tg := lt_t lt in
  g <- inner_mv (lt_A lt) (ec_phi_hat ec) ;;
  g_peak <- inner_mm (lt_A lt) (transpose (ec_peaks ec)) ;;
  dg <- gradient g ;;
  let tot := neg dg in
  dgp <- gradient_axis0 g_peak ;;
  let peaks := mneg dgp in
  entries <- mapM (frac_step t_tg tot peaks) t ;;
  Ok (Cont (map e_ptf entries) (map e_min entries) (map e_max entries)
           (map e_wgh entries)).

(** *** The regressions and the constructor *)

(** [a[i]] for an integer that may be negative (counted from the end). *)
Definition item_z {A : Type} (a : list A) (i : Z) : result A :=
  let n := Z.of_nat (length a) in
  if (0 <=? i)%Z then item a (Z.to_nat i)
  else if (- n <=? i)%Z then item a (Z.to_nat (n + i))
  else Raise IndexError.

(** [_calc_R13_CO2(R13_peak, lt, ec)] *)
Definition _calc_R13_CO2 (R13_peak : list Q) (lt : LaplaceTransform)
    (ec : EnergyComplex) : result (list Q) :=
  let nPeak := shape1 (ec_peaks ec) in
  if negb (Nat.eqb (length R13_peak) nPeak) then
    Raise (ValueError "R13_peak must be array with len. nPeak (combined)")
  else
  let C12_peaks_scl := mrows (ec_peaks ec) in
  C13_peaks_scl <- mapM (fun r => zip_with Qmult r R13_peak) (mrows (ec_peaks_13 ec)) ;;
  let phi_hat_12_scl := map sum C12_peaks_scl in
  let phi_hat_13_scl := map sum C13_peaks_scl in
  g_hat_12 <- inner_mv (lt_A lt) phi_hat_12_scl ;;
  g_hat_13 <- inner_mv (lt_A lt) phi_hat_13_scl ;;
  grad_t <- gradient (lt_t lt) ;;
  d12 <- gradient g_hat_12 ;;
  gdot_hat_12 <- zip_with Qdiv (neg d12) grad_t ;;
  d13 <- gradient g_hat_13 ;;
  gdot_hat_13 <- zip_with Qdiv (neg d13) grad_t ;;
  zip_with Qdiv gdot_hat_13 gdot_hat_12.

(** [_R13_diff(R13_peak, R13_frac, ind_wgh, lt, ec)] *)
Definition _R13_diff (R13_peak R13_frac : list Q) (ind_wgh : list Z)
    (lt : LaplaceTransform) (ec : EnergyComplex) : result (list Q) :=
  R13_CO2 <- _calc_R13_CO2 R13_peak lt ec ;;
  at_wgh <- mapM (item_z R13_CO2) ind_wgh ;;
  zip_with Qminus at_wgh R13_frac.

(** What [scipy.optimize.least_squares] returns: [x], [fun], [success]. *)
Record lsq_result : Type := Lsq {
  lsq_x : list Q;
  lsq_fun : list Q;
  lsq_success : bool
}.

Record IsotopeResult : Type := IR {
  fraction_info : list (Q * Q * Q * Q * Q);   (* t0, tf, mass, d13C, Fm *)
  peak_info : list (Q * Q * Q);               (* mass, d13C, Fm *)
  RMSEs : Q * Q * Q;                          (* mass, d13C, Fm *)
  warned : bool                               (* a convergence warning was issued *)
}.

(** Rows of a table from equally long columns. *)
Fixpoint rows3 (a b c : list Q) : result (list (Q * Q * Q)) :=
  match a, b, c with
  | [], [], [] => Ok []
  | x :: a', y :: b', z :: c' => r <- rows3 a' b' c' ;; Ok ((x, y, z) :: r)
  | _, _, _ => Raise (ValueError "all the input array dimensions must match exactly")
  end.

Fixpoint rows5 (a b c d e : list Q) : result (list (Q * Q * Q * Q * Q)) :=
  match a, b, c, d, e with
  | [], [], [], [], [] => Ok []
  | x :: a', y :: b', z :: c', u :: d', v :: e' =>
      r <- rows5 a' b' c' d' e' ;; Ok ((x, y, z, u, v) :: r)
  | _, _, _, _, _ => Raise (ValueError "all the input array dimensions must match exactly")
  end.

(** [np.append(x, x[-1]*np.ones(k))] *)
Definition repeat_last (x : list Q) (k : Z) : result (list Q) :=
  l <- last x ;;
  o <- ones k ;;
  Ok (x ++ map (fun one => l * one) o).

Section Regress.
(** Collaborators: the random generator and table reader of the
    extraction, [scipy.optimize.least_squares] (given the residual function
    and the start), [scipy.optimize.nnls], [numpy.linalg.norm], and the
    square root behind [nFrac**0.5]. *)
Variable from_csv : string -> result DataFrame.
Variable rng : nat -> Q.
Variable least_squares : (list Q -> result (list Q)) -> list Q -> result lsq_result.
Variable nnls : list (list Q) -> list Q -> result (list Q * Q).
Variable norm : list Q -> Q.
Variable sqrt : Q -> Q.

Definition nat_Q (n : nat) : Q := inject_Z (Z.of_nat n).

(** [_fit_R13_peak(R13_frac, ind_wgh, lt, ec)], with the warning flag. *)
Definition _fit_R13_peak (R13_frac : list Q) (ind_wgh : list Z)
    (lt : LaplaceTransform) (ec : EnergyComplex) : result (list Q * Q * bool) :=
  let nPeak := shape1 (ec_peaks ec) in
  let nFrac := length R13_frac in
  let r0 := repeat (Rpdb * 1) nPeak in
  res <- least_squares (fun r => _R13_diff r R13_frac ind_wgh lt ec) r0 ;;
  let warn := negb (lsq_success res) in
  let R13_peak := lsq_x res in
  let d13C_peak := map _R13_to_d13C R13_peak in
  R13_frac_pred <- zip_with Qplus (lsq_fun res) R13_frac ;;
  let d13C_frac := map _R13_to_d13C R13_frac in
  let d13C_frac_pred := map _R13_to_d13C R13_frac_pred in
  diff <- zip_with Qminus d13C_frac d13C_frac_pred ;;
  let d13C_rmse := norm diff / sqrt (nat_Q nFrac) in
  Ok (d13C_peak, d13C_rmse, warn).

(** [tg[imi:ima+1]] *)
Definition slice_incl (tg : list Q) (imi ima : nat) : list Q :=
  firstn (S ima - imi) (skipn imi tg).

(** [IsotopeResult.__init__(sum_data, lt, ec, blank_correct, mass_rsd,
    add_noise)] *)
Definition IsotopeResult_init (sum_data : sum_data_arg) (lt : LaplaceTransform)
    (ec : EnergyComplex) (blank_correct : bool) (mass_rsd : Q)
    (add_noise : bool) : result IsotopeResult :=
  (* extract isotopes and time for each fraction *)
  fr <- _extract_isotopes from_csv rng sum_data mass_rsd add_noise ;;
  let t0_frac := map inject_Z (t0_frac fr) in
  let tf_frac := map inject_Z (tf_frac fr) in
  (* blank correct if necessary *)
  '(mass_frac, R13_frac, Fm_frac) <-
    (if blank_correct
     then _blank_correct t0_frac tf_frac (mass_frac fr) (R13_frac fr) (Fm_frac fr)
     else Ok (mass_frac fr, R13_frac fr, Fm_frac fr)) ;;
  let nFrac := length t0_frac in
  let d13C_frac := map _R13_to_d13C R13_frac in
  frac_info <- rows5 t0_frac tf_frac mass_frac d13C_frac Fm_frac ;;
  (* calculate peak contribution and indices of each fraction *)
  c <- _calc_cont_ptf lt ec t0_frac tf_frac ;;
  (* peak masses, predicted fraction masses, and rmse *)
  let ugC := sum mass_frac in
  tg <- thermogram lt ec ;;
  let mass_peak := map (fun a => a * ugC) (ec_rel_area ec) in
  let mass_pred := map (fun mm => sum (slice_incl tg (fst mm) (snd mm)) * ugC)
                       (combine (ind_min c) (ind_max c)) in
  dm <- zip_with Qminus mass_pred mass_frac ;;
  let mass_rmse := norm dm / sqrt (nat_Q nFrac) in
  (* R13 regression *)
  '(d13C_peak, d13C_rmse, warn) <- _fit_R13_peak R13_frac (ind_wgh c) lt ec ;;
  (* Fm regression *)
  '(Fm_peak, res14) <- nnls (cont_ptf c) Fm_frac ;;
  let Fm_rmse := res14 / sqrt (nat_Q nFrac) in
  (* repeat isotopes for combined peaks *)
  let nP_tot := length mass_peak in
  let nP_comb := shape1 (ec_peaks ec) in
  let extra := (Z.of_nat nP_tot - Z.of_nat nP_comb)%Z in
  d13C_peak <- repeat_last d13C_peak extra ;;
  Fm_peak <- repeat_last Fm_peak extra ;;
  peak_info <- rows3 mass_peak d13C_peak Fm_peak ;;
  Ok (IR frac_info peak_info (mass_rmse, d13C_rmse, Fm_rmse) warn).
End Regress.

(** *** Comparing outcomes up to the value of rationals *)

(** Two runs end alike: the same exception, or results related by [R]. *)
Definition same_outcome {A : Type} (R : A -> A -> Prop) (m1 m2 : result A) : Prop :=
  match m1, m2 with
  | Ok a, Ok b => R a b
  | Raise e1, Raise e2 => e1 = e2
  | _, _ => False
  end.

Definition fractions_equiv (f g : fractions) : Prop :=
  t0_frac f = t0_frac g /\ tf_frac f = tf_frac g /\
  Forall2 Qeq (mass_frac f) (mass_frac g) /\
  Forall2 Qeq (R13_frac f) (R13_frac g) /\
  Forall2 Qeq (Fm_frac f) (Fm_frac g).

(** Three arrays, a solver result, a fit, and the rows of the two tables,
    each compared entry by entry. *)
Definition arrays3_equiv (p q : list Q * list Q * list Q) : Prop :=
  let '(a, b, c) := p in
  let '(a', b', c') := q in
  Forall2 Qeq a a' /\ Forall2 Qeq b b' /\ Forall2 Qeq c c'.

Definition lsq_equiv (r s : lsq_result) : Prop :=
  Forall2 Qeq (lsq_x r) (lsq_x s) /\ Forall2 Qeq (lsq_fun r) (lsq_fun s) /\
  lsq_success r = lsq_success s.

Definition nnls_equiv (p q : list Q * Q) : Prop :=
  Forall2 Qeq (fst p) (fst q) /\ snd p == snd q.

Definition fit_equiv (p q : list Q * Q * bool) : Prop :=
  let '(d, r, w) := p in
  let '(d', r', w') := q in
  Forall2 Qeq d d' /\ r == r' /\ w = w'.

Definition row5_equiv (r s : Q * Q * Q * Q * Q) : Prop :=
  let '(a, b, c, d, e) := r in
  let '(a', b', c', d', e') := s in
  a == a' /\ b == b' /\ c == c' /\ d == d' /\ e == e'.

Definition row3_equiv (r s : Q * Q * Q) : Prop :=
  let '(a, b, c) := r in
  let '(a', b', c') := s in
  a == a' /\ b == b' /\ c == c'.

(** Two results hold the same tables, the same RMSEs and the same warning. *)
Definition IsotopeResult_equiv (x y : IsotopeResult) : Prop :=
  Forall2 row5_equiv (fraction_info x) (fraction_info y) /\
  Forall2 row3_equiv (peak_info x) (peak_info y) /\
  row3_equiv (RMSEs x) (RMSEs y) /\
  warned x = warned y.

End Isotope.

(** ** Sample inputs *)

Module Samples.
Import Np Core Isotope.

(** A run of four rows (two sentinels, two fractions) that lacks the
    [d13C_std] column and has the other five. *)
Definition table_without_std : DataFrame :=
  {| df_columns :=
       set_column "fraction" [- (1); 0; 1; 2]
       (set_column "d13C" [0; 0; - (25); - (26)]
       (set_column "Fm" [0; 0; 1; 1 # 2]
       (set_column "Fm_std" [0; 0; 1 # 100; 1 # 100]
       (set_column "ug_frac" [0; 0; 100; 80] no_columns))));
     df_index := DatetimeIndex [0; 600; 1200; 1800]%Z |}.

(** The same run with every required column but [fraction]. *)
Definition table_without_fraction : DataFrame :=
  {| df_columns :=
       set_column "d13C" [0; 0; - (25); - (26)]
       (set_column "d13C_std" [0; 0; 1 # 10; 1 # 10]
       (set_column "Fm" [0; 0; 1; 1 # 2]
       (set_column "Fm_std" [0; 0; 1 # 100; 1 # 100]
       (set_column "ug_frac" [0; 0; 100; 80] no_columns))));
     df_index := DatetimeIndex [0; 600; 1200; 1800]%Z |}.

(** A complete table for the same run. *)
Definition table_full : DataFrame :=
  {| df_columns :=
       set_column "fraction" [- (1); 0; 1; 2]
       (set_column "d13C" [0; 0; - (25); - (26)]
       (set_column "d13C_std" [0; 0; 1 # 10; 1 # 10]
       (set_column "Fm" [0; 0; 1; 1 # 2]
       (set_column "Fm_std" [0; 0; 1 # 100; 1 # 100]
       (set_column "ug_frac" [0; 0; 100; 80] no_columns)))));
     df_index := DatetimeIndex [0; 600; 1200; 1800]%Z |}.

(** The complete table under an index that holds no dates, and with the
    fraction labels overwritten by [1, 2, 3, 4]. *)
Definition table_other_index : DataFrame :=
  {| df_columns := df_columns table_full; df_index := OtherIndex 4 |}.

Definition table_bad_labels : DataFrame :=
  {| df_columns := set_column "fraction" [1; 2; 3; 4] (df_columns table_full);
     df_index := df_index table_full |}.

Definition no_csv (path : string) : result DataFrame :=
  Raise (ValueError "no such file").

(** A forward model on a grid of five times and two energies, with two
    peaks whose sum is the combined curve. *)
Definition sample_lt : LaplaceTransform :=
  {| lt_A := Mat 2 [[1; 1]; [3 # 4; 1]; [1 # 2; 3 # 4]; [1 # 4; 1 # 4]; [0; 0]];
     lt_t := [300; 800; 1100; 1500; 1800] |}.

Definition sample_ec : EnergyComplex :=
  {| ec_peaks := Mat 2 [[1 # 2; 0]; [1 # 4; 1 # 4]];
     ec_peaks_13 := Mat 2 [[1 # 2; 0]; [1 # 4; 1 # 4]];
     ec_phi_hat := [1 # 2; 1 # 2];
     ec_rel_area := [1 # 2; 1 # 2];
     ec_eps := [100; 200] |}.

(** Three peaks: more than the two fractions of the sample tables. *)
Definition sample_ec3 : EnergyComplex :=
  {| ec_peaks := Mat 3 [[1 # 2; 0; 0]; [1 # 4; 1 # 8; 1 # 8]];
     ec_peaks_13 := Mat 3 [[1 # 2; 0; 0]; [1 # 4; 1 # 8; 1 # 8]];
     ec_phi_hat := [1 # 2; 1 # 2];
     ec_rel_area := [1 # 2; 1 # 4; 1 # 4];
     ec_eps := [100; 200] |}.

(** The same model on a grid that ends before the second fraction starts. *)
Definition sample_lt_coarse : LaplaceTransform :=
  {| lt_A := lt_A sample_lt;
     lt_t := [300; 700; 800; 1000; 1100] |}.

(** The fractions of [table_full]. *)
Definition sample_fractions : fractions :=
  Fractions [600; 1200]%Z [1200; 1800]%Z [100; 80]
    [_d13C_to_R13 (- (25)); _d13C_to_R13 (- (26))] [1; 1 # 2].

Definition sample_t0 : list Q := [600; 1200].
Definition sample_tf : list Q := [1200; 1800].

(** The thermogram and the mapping of the sample model, evaluated. *)
Definition sample_tot : list Q :=
  Eval vm_compute in
    match thermogram sample_lt sample_ec with Ok tot => tot | Raise _ => [] end.

Definition sample_cont : cont_result :=
  Eval vm_compute in
    match _calc_cont_ptf sample_lt sample_ec sample_t0 sample_tf with
    | Ok c => c
    | Raise _ => Cont [] [] [] []
    end.

(** Stand-ins for the solvers and the norm in closed examples. *)
Definition no_rng (i : nat) : Q := 0.
Definition no_least_squares (f : list Q -> result (list Q)) (r0 : list Q)
  : result lsq_result := v <- f r0 ;; Ok (Lsq r0 v true).
Definition no_nnls (M : list (list Q)) (b : list Q) : result (list Q * Q) :=
  Ok (map (fun _ => 0) (hd [] M), 0).
Definition no_norm (v : list Q) : Q := sum (map (fun x => x * x) v).
Definition no_sqrt (x : Q) : Q := x.

(** A small density over three points, and its moments (the value under the
    square root is returned as it is). *)
Definition sample_x : list Q := [0; 1; 2].
Definition sample_y : list Q := [1; 2; 1].

Definition sample_moments : Q * Q :=
  Eval vm_compute in
    match Core.extract_moments (fun v => v) sample_x (Core.PyArray (Core.Arr1 sample_y)) with
    | Ok r => r
    | Raise _ => (0, 0)
    end.

(** The 12C curve of the sample model, its gradient, the time steps, and
    the modelled ratios and residuals for peaks that all sit at VPDB. *)
Definition sample_g12 : list Q :=
  Eval vm_compute in
    match inner_mv (lt_A sample_lt) (map sum (mrows (ec_peaks sample_ec))) with
    | Ok g => g | Raise _ => []
    end.

Definition sample_d12 : list Q :=
  Eval vm_compute in match gradient sample_g12 with Ok d => d | Raise _ => [] end.

Definition sample_gt : list Q :=
  Eval vm_compute in
    match gradient (lt_t sample_lt) with Ok d => d | Raise _ => [] end.

Definition sample_R13_CO2 : list Q :=
  Eval vm_compute in
    match _calc_R13_CO2 (repeat Rpdb 2) sample_lt sample_ec with
    | Ok o => o | Raise _ => []
    end.

Definition sample_R13_diff : list Q :=
  Eval vm_compute in
    match _R13_diff (repeat Rpdb 2) [Rpdb; Rpdb] [2; 3]%Z sample_lt sample_ec with
    | Ok o => o | Raise _ => []
    end.

(** The sample peaks with a third original peak merged into the second, and
    the result constructed for them. *)
Definition sample_ec_merged : EnergyComplex :=
  {| ec_peaks := ec_peaks sample_ec;
     ec_peaks_13 := ec_peaks_13 sample_ec;
     ec_phi_hat := ec_phi_hat sample_ec;
     ec_rel_area := [1 # 2; 1 # 4; 1 # 4];
     ec_eps := ec_eps sample_ec |}.

Definition sample_ir : IsotopeResult :=
  Eval vm_compute in
    match IsotopeResult_init no_csv no_rng no_least_squares no_nnls no_norm no_sqrt
            (SumFrame table_full) sample_lt sample_ec_merged false (1 # 100) false with
    | Ok ir => ir
    | Raise _ => IR [] [] (0, 0, 0) false
    end.

(** The RMSE the stand-in solver leads to on the sample fractions. *)
Definition sample_fit_rmse : Q :=
  Eval vm_compute in
    match _fit_R13_peak no_least_squares no_norm no_sqrt [Rpdb; Rpdb] [2; 3]%Z
            sample_lt sample_ec with
    | Ok (_, rmse, _) => rmse
    | Raise _ => 0
    end.

(** A generator with fixed draws, and the sample table extracted with
    noise. *)
Definition sample_rng (i : nat) : Q := inject_Z (Z.of_nat i) - 2.

Definition sample_noisy : fractions :=
  Eval vm_compute in
    match _extract_isotopes no_csv sample_rng (SumFrame table_full) (1 # 100) true with
    | Ok fr => fr
    | Raise _ => Fractions [] [] [] [] []
    end.

End Samples.

(** * Theorems *)

Module IsotopeFacts.
Import Isotope.

(** C5: over exact arithmetic, converting d13C to R13 and back returns the
    original value, and so does converting R13 to d13C and back. *)
Theorem d13C_R13_roundtrip (x : Q) :
  _R13_to_d13C (_d13C_to_R13 x) == x /\ _d13C_to_R13 (_R13_to_d13C x) == x.
Proof.
  unfold _R13_to_d13C, _d13C_to_R13, Rpdb; split; field.
Qed.

End IsotopeFacts.

(** ** core_functions.py *)

Module CoreFacts.
Import Np Core.

Lemma ones_nonneg (n : Z) : (0 <= n)%Z -> ones n = Ok (repeat 1 (Z.to_nat n)).
Proof.
  intros Hn; unfold ones.
  destruct (Z.ltb_spec n 0) as [Hlt | _]; [lia | reflexivity].
Qed.

Lemma ones_negative (n : Z) :
  (n < 0)%Z -> ones n = Raise (ValueError "negative dimensions are not allowed").
Proof.
  intros Hn; unfold ones.
  destruct (Z.ltb_spec n 0) as [_ | Hge]; [reflexivity | lia].
Qed.

Lemma Forall_scaled_ones (x : Q) (k : nat) :
  Forall (fun y => y == x) (map (fun one => x * one) (repeat 1 k)).
Proof.
  induction k as [| k IH]; simpl; constructor; [ring | exact IH].
Qed.

(** A scalar that converts to a float is converted alike for every entry. *)
Lemma scalar_times_ok (data : pyobj) (x : Q) (o : list Q) :
  to_float data = Ok x -> scalar_times data o = Ok (map (fun one => x * one) o).
Proof.
  intros Hx; unfold scalar_times.
  induction o as [| one o IH]; cbn [mapM map]; [reflexivity |].
  rewrite IH, Hx. reflexivity.
Qed.

Lemma scalar_times_length (data : pyobj) (o v : list Q) :
  scalar_times data o = Ok v -> length v = length o.
Proof.
  unfold scalar_times. revert v; induction o as [| one o IH]; intros v H;
    cbn [mapM] in H.
  - injection H as <-. reflexivity.
  - destruct (to_float data) as [x |]; [| discriminate H]. cbn [bind] in H.
    destruct (mapM _ o) as [w |]; [| discriminate H]. cbn [bind] in H.
    injection H as <-. simpl. now rewrite (IH w eq_refl).
Qed.

(** A scalar that does not convert stops the product at its first entry. *)
Lemma scalar_times_raise (data : pyobj) (e : pyerr) (one : Q) (o : list Q) :
  to_float data = Raise e -> scalar_times data (one :: o) = Raise e.
Proof.
  intros He; unfold scalar_times; cbn [mapM]. rewrite He. reflexivity.
Qed.

(** What [assert_len] does with a scalar that converts to the float [x]: an
    array of [n] copies when [n] is not negative, numpy's [ValueError]
    otherwise. *)
Lemma assert_len_scalar (data : pyobj) (x : Q) (n : Z) :
  is_scalar data = true -> to_float data = Ok x ->
  assert_len data n =
    if (n <? 0)%Z then Raise (ValueError "negative dimensions are not allowed")
    else Ok (Arr1 (map (fun one => x * one) (repeat 1 (Z.to_nat n)))).
Proof.
  intros Hs Hx; unfold assert_len; rewrite Hs; unfold ones.
  destruct (n <? 0)%Z; [reflexivity |].
  cbn [bind]. rewrite (scalar_times_ok _ _ _ Hx). reflexivity.
Qed.

(** C4, as the code has it: for every non-negative [n], a scalar that
    converts to a float gives a one-dimensional array of exactly [n] entries,
    all equal to it; for every [n], an array-like of length [n] is returned as
    an array of length [n], a string or an object that is neither scalar nor
    array-like raises [ArrayError], and an array-like with another length
    raises [LengthError].  Two inputs end otherwise: an int out of the range
    of floats raises [OverflowError] when [n] is positive, and an array
    object without a length raises the [TypeError] of [len]. *)
Theorem assert_len_spec (data : pyobj) (n : Z) :
  (forall x, is_scalar data = true -> to_float data = Ok x -> (0 <= n)%Z ->
     exists v, assert_len data n = Ok (Arr1 v) /\
               Z.of_nat (length v) = n /\
               Forall (fun y => y == x) v) /\
  (forall a, data = PyArray a -> Z.of_nat (arr_len a) = n ->
     assert_len data n = Ok a) /\
  (forall l, data = PySeq l -> Z.of_nat (length l) = n ->
     assert_len data n = Ok (Arr1 l)) /\
  (is_str data = true -> exists msg, assert_len data n = Raise (ArrayError msg)) /\
  (data = PyNone -> exists msg, assert_len data n = Raise (ArrayError msg)) /\
  (forall k, is_str data = false -> len data = Ok k -> Z.of_nat k <> n ->
     assert_len data n = Raise (LengthError k n)) /\
  (is_scalar data = true -> to_float data = Raise OverflowError -> (0 < n)%Z ->
     assert_len data n = Raise OverflowError) /\
  (forall x, data = PyArray0 x -> assert_len data n = Raise TypeError).
Proof.
  repeat split.
  - intros x Hs Hx Hn. rewrite (assert_len_scalar _ _ _ Hs Hx).
    destruct (Z.ltb_spec n 0) as [Hlt | _]; [lia |].
    eexists; split; [reflexivity | split].
    + rewrite length_map, repeat_length. lia.
    + apply Forall_scaled_ones.
  - intros a -> Hlen. unfold assert_len; simpl.
    rewrite <- Hlen, Z.eqb_refl. reflexivity.
  - intros l -> Hlen. unfold assert_len; simpl.
    rewrite <- Hlen, Z.eqb_refl. reflexivity.
  - destruct data; simpl; try discriminate. intros _. eexists; reflexivity.
  - intros ->. eexists; reflexivity.
  - intros k Hstr Hlen Hne.
    destruct data; simpl in *; try discriminate;
      injection Hlen as <-; unfold assert_len; simpl;
      apply Z.eqb_neq in Hne; rewrite Hne; reflexivity.
  - intros Hs Hx Hn. unfold assert_len; rewrite Hs; unfold ones.
    destruct (Z.ltb_spec n 0) as [Hlt | _]; [lia |]. cbn [bind].
    destruct (Z.to_nat n) as [| k] eqn:Hk; [lia |]. simpl repeat.
    rewrite (scalar_times_raise _ _ _ _ Hx). reflexivity.
  - intros x ->. reflexivity.
Qed.

(** The claim at a well-formed input of each kind, and at the two inputs
    that end otherwise. *)
Lemma assert_len_spec_witness :
  (exists v, assert_len (PyFloat (5 # 2)) 3 = Ok (Arr1 v) /\
             Z.of_nat (length v) = 3%Z /\
             Forall (fun y => y == 5 # 2) v) /\
  (exists v, assert_len (PyInt 7) 2 = Ok (Arr1 v) /\
             Z.of_nat (length v) = 2%Z /\
             Forall (fun y => y == 7) v) /\
  assert_len (PySeq [1; 2; 3]) 3 = Ok (Arr1 [1; 2; 3]) /\
  assert_len (PySeq [1; 2]) 3 = Raise (LengthError 2 3) /\
  assert_len (PyInt (10 ^ 400)) 2 = Raise OverflowError.
Proof.
  split; [| split; [| split; [| split]]].
  - apply (proj1 (assert_len_spec (PyFloat (5 # 2)) 3)); [reflexivity | reflexivity | lia].
  - apply (proj1 (assert_len_spec (PyInt 7) 2)); [reflexivity | reflexivity | lia].
  - apply (proj1 (proj2 (proj2 (assert_len_spec (PySeq [1; 2; 3]) 3))) [1; 2; 3]);
      reflexivity.
  - apply (proj1 (proj2 (proj2 (proj2 (proj2 (proj2 (assert_len_spec (PySeq [1; 2]) 3))))))
             2%nat); [reflexivity | reflexivity | lia].
  - apply (proj1 (proj2 (proj2 (proj2 (proj2 (proj2 (proj2
             (assert_len_spec (PyInt (10 ^ 400)) 2)))))))); [reflexivity | | lia].
    vm_compute. reflexivity.
Defined.

(** C4, against the claim as stated: with a negative [n] a scalar yields no
    array at all; [np.ones] refuses the dimension. *)
Lemma assert_len_negative_length :
  ~ (forall (n : Z) (data : pyobj), is_scalar data = true ->
       exists v, assert_len data n = Ok (Arr1 v) /\ Z.of_nat (length v) = n).
Proof.
  intros H. destruct (H (-1)%Z (PyFloat 2) eq_refl) as [v [Hv _]].
  discriminate Hv.
Qed.

(** The keyword record the model's method receives, observed by taking the
    method that returns its own arguments. *)
Lemma calc_L_curve_call {Model TimeData Axis Res : Type}
    (method : Model -> TimeData -> lcurve_kwargs Axis -> Res)
    (model : Model) (timedata : TimeData) (ax : option Axis) (plot : bool)
    (nOm : Z) (om_max om_min : Q) :
  calc_L_curve method model timedata ax plot nOm om_max om_min =
  method model timedata
    (calc_L_curve (fun _ _ kw => kw) model timedata ax plot nOm om_max om_min).
Proof. reflexivity. Qed.

(** C2, as the code has it: the delegated call receives [om_max] as the upper
    omega bound, and [timedata], [ax], [plot] and [nOm] unchanged. *)
Theorem calc_L_curve_forwards_om_max {Model TimeData Axis : Type}
    (model : Model) (timedata : TimeData) (ax : option Axis) (plot : bool)
    (nOm : Z) (om_max om_min : Q) :
  let seen := calc_L_curve (fun m td kw => (m, td, kw)) model timedata
                ax plot nOm om_max om_min in
  fst seen = (model, timedata) /\
  kw_om_max (snd seen) = om_max /\
  kw_ax (snd seen) = ax /\ kw_plot (snd seen) = plot /\ kw_nOm (snd seen) = nOm.
Proof. cbv; repeat split. Qed.

(** The lower bound of the delegated call is [om_max] as well: the keyword
    list reads [om_min = om_max], so [om_min] is never passed on. *)
Lemma calc_L_curve_lower_bound {Model TimeData Axis : Type}
    (model : Model) (timedata : TimeData) (ax : option Axis) (plot : bool)
    (nOm : Z) (om_max om_min : Q) :
  kw_om_min (calc_L_curve (fun _ _ kw => kw) model timedata ax plot nOm om_max om_min)
  = om_max.
Proof. reflexivity. Qed.

(** C2, against the claim as stated: with the default bounds the delegated
    call does not carry the value of [om_min] as its two bounds. *)
Lemma calc_L_curve_not_om_min :
  let kw := calc_L_curve (fun _ _ kw => kw) tt tt (@None unit) false
              default_nOm default_om_max default_om_min in
  ~ (kw_om_min kw == default_om_min /\ kw_om_max kw == default_om_min).
Proof.
  cbv zeta; unfold calc_L_curve; simpl.
  intros [H _]. discriminate H.
Qed.


(** Calls between one-dimensional arrays do not recurse. *)
Lemma derivatize_body_1d (self self' : pyobj -> pyobj -> result ndarray)
    (nv dv : list Q) :
  derivatize_body self (PyArray (Arr1 nv)) (PyArray (Arr1 dv))
  = derivatize_body self' (PyArray (Arr1 nv)) (PyArray (Arr1 dv)).
Proof.
  unfold derivatize_body, assert_len; simpl.
  destruct (negb (Z.of_nat (length nv) =? Z.of_nat (length dv))%Z); reflexivity.
Qed.

Lemma mapM_ext {A B : Type} (f g : A -> result B) (l : list A) :
  (forall a, f a = g a) -> mapM f l = mapM g l.
Proof.
  intros H; induction l as [| a l IH]; simpl; [reflexivity |].
  rewrite H, IH. reflexivity.
Qed.

Lemma derivatize_body_ext (self self' : pyobj -> pyobj -> result ndarray)
    (num denom : pyobj) :
  (forall nv dv, self (PyArray (Arr1 nv)) (PyArray (Arr1 dv))
                 = self' (PyArray (Arr1 nv)) (PyArray (Arr1 dv))) ->
  derivatize_body self num denom = derivatize_body self' num denom.
Proof.
  intros H. unfold derivatize_body.
  destruct (if is_Sequence denom || has___array__ denom then _ else _);
    [| reflexivity]. cbn [bind].
  destruct (len denom); [| reflexivity]. cbn [bind].
  destruct (assert_len num _) as [num' |]; [| reflexivity]. cbn [bind].
  destruct denom as [| | | | d | |]; try reflexivity.
  destruct num' as [nv | nm], d as [dv | dm]; try reflexivity.
  - rewrite (mapM_ext _ (fun col => r <- self' (PyArray (Arr1 nv)) (PyArray (Arr1 col)) ;;
                                    as_1d r)); [reflexivity |].
    intros col. now rewrite H.
  - rewrite (mapM_ext _ (fun col => r <- self' (PyArray (Arr1 col)) (PyArray (Arr1 dv)) ;;
                                    as_1d r)); [reflexivity |].
    intros col. now rewrite H.
Qed.

(** A depth of two is enough: deeper call stacks change nothing. *)
Lemma derivatize_depth_enough (k : nat) (num denom : pyobj) :
  derivatize_depth (S (S k)) num denom = derivatize num denom.
Proof.
  unfold derivatize. cbn [derivatize_depth].
  apply derivatize_body_ext. intros nv dv. apply derivatize_body_1d.
Qed.




(** Array denominators are differentiated: the quotient of the gradients. *)
Example derivatize_1d :
  derivatize (PyArray (Arr1 [1; 4; 9; 16])) (PyArray (Arr1 [1; 2; 3; 4]))
  = Ok (Arr1 [3 / 1; ((9 - 1) / 2) / ((3 - 1) / 2); ((16 - 4) / 2) / ((4 - 2) / 2); 7 / 1]).
Proof. reflexivity. Qed.

End CoreFacts.

(** ** isotoperesult.py: extraction *)

Module ExtractFacts.
Import Np Isotope Samples.

(** The column test of lines 275-276 only looks at [ug_frac]: the five
    string literals before it are truthy. *)
Lemma missing_columns_test_ug_frac (df : DataFrame) :
  truthy (missing_columns_test df) = negb (in_columns "ug_frac" df).
Proof. reflexivity. Qed.

(** C1, at a failing input: a table without the required [d13C_std] column
    passes the column test and is extracted without any error. *)
Theorem extract_accepts_missing_std (rng : nat -> Q) :
  In "d13C_std"%string required_columns /\
  in_columns "d13C_std" table_without_std = false /\
  is_ok (_extract_isotopes no_csv rng (SumFrame table_without_std) 0 false) = true.
Proof.
  split; [simpl; tauto | split; reflexivity].
Qed.

(** A table without the [fraction] column gets past the column test too and
    stops at the attribute access of line 283. *)
Lemma extract_missing_fraction (rng : nat -> Q) (add_noise : bool) :
  _extract_isotopes no_csv rng (SumFrame table_without_fraction) 0 add_noise
  = Raise (AttributeError "fraction").
Proof. reflexivity. Qed.

(** A table without [ug_frac] is the one case the test catches. *)
Lemma extract_missing_ug_frac from_csv rng df mass_rsd add_noise :
  in_columns "ug_frac" df = false ->
  exists msg,
    _extract_isotopes from_csv rng (SumFrame df) mass_rsd add_noise
    = Raise (ValueError msg).
Proof.
  intros H; unfold _extract_isotopes; cbn [bind].
  rewrite missing_columns_test_ug_frac, H; simpl. eexists; reflexivity.
Qed.

Lemma same_outcome_bind {A B : Type} (RA : A -> A -> Prop) (RB : B -> B -> Prop)
    (m1 m2 : result A) (k1 k2 : A -> result B) :
  same_outcome RA m1 m2 ->
  (forall a b, RA a b -> same_outcome RB (k1 a) (k2 b)) ->
  same_outcome RB (bind m1 k1) (bind m2 k2).
Proof.
  destruct m1, m2; simpl; intros H Hk; try contradiction; auto.
Qed.

Lemma same_outcome_bind_same {A B : Type} (RB : B -> B -> Prop)
    (m : result A) (k1 k2 : A -> result B) :
  (forall a, m = Ok a -> same_outcome RB (k1 a) (k2 a)) ->
  same_outcome RB (bind m k1) (bind m k2).
Proof.
  destruct m; simpl; intros Hk; auto.
Qed.

Lemma zip_mult_zeros (l : list Q) :
  zip_with Qmult l (zeros (length l)) = Ok (map (fun x => x * 0) l).
Proof.
  induction l as [| x l IH]; simpl; [reflexivity |].
  unfold zeros in IH. rewrite IH. reflexivity.
Qed.

Lemma randn_col_length rng nF j : length (randn_col rng nF j) = nF.
Proof. unfold randn_col. now rewrite length_map, length_seq. Qed.

(** Without noise the perturbation matrix is computed and is zero. *)
Lemma noise_zeros (rng : nat -> Q) (nF : nat) :
  noise rng (zeros nF, zeros nF, zeros nF) nF
  = Ok (map (fun x => x * 0) (randn_col rng nF 0),
        map (fun x => x * 0) (randn_col rng nF 1),
        map (fun x => x * 0) (randn_col rng nF 2)).
Proof.
  unfold noise.
  rewrite <- (randn_col_length rng nF 0) at 2. rewrite zip_mult_zeros. cbn [bind].
  rewrite <- (randn_col_length rng nF 1) at 2. rewrite zip_mult_zeros. cbn [bind].
  rewrite <- (randn_col_length rng nF 2) at 2. rewrite zip_mult_zeros. reflexivity.
Qed.

Lemma Forall_times_zero (l : list Q) : Forall (fun e => e == 0) (map (fun x => x * 0) l).
Proof.
  induction l; simpl; constructor; [ring | assumption].
Qed.

Lemma zip_plus_zero (m e1 e2 : list Q) :
  length e1 = length e2 ->
  Forall (fun e => e == 0) e1 -> Forall (fun e => e == 0) e2 ->
  same_outcome (Forall2 Qeq) (zip_with Qplus m e1) (zip_with Qplus m e2).
Proof.
  revert e1 e2; induction m as [| x m IH]; intros [| a e1] [| b e2] Hlen H1 H2;
    simpl in *; try discriminate; try constructor.
  inversion H1 as [| ? ? Ha H1']; inversion H2 as [| ? ? Hb H2']; subst.
  injection Hlen as Hlen.
  specialize (IH e1 e2 Hlen H1' H2').
  destruct (zip_with Qplus m e1), (zip_with Qplus m e2); simpl in *;
    try contradiction; try assumption.
  constructor; [rewrite Ha, Hb; reflexivity | assumption].
Qed.

Lemma d13C_to_R13_compat (l1 l2 : list Q) :
  Forall2 Qeq l1 l2 -> Forall2 Qeq (map _d13C_to_R13 l1) (map _d13C_to_R13 l2).
Proof.
  induction 1 as [| x y l1 l2 Hxy _ IH]; simpl; constructor; [| assumption].
  unfold _d13C_to_R13. rewrite Hxy. reflexivity.
Qed.

(** Without noise the perturbations are zero whatever the generator draws,
    and two extractions of the same input end alike: the same exception, or
    the same times and equal masses, ratios and Fm values. *)
Lemma extract_without_noise_deterministic
    (from_csv : string -> result DataFrame) (rng1 rng2 : nat -> Q)
    (sum_data : sum_data_arg) (mass_rsd : Q) :
  (forall nF, exists e0 e1 e2,
      noise rng1 (zeros nF, zeros nF, zeros nF) nF = Ok (e0, e1, e2) /\
      Forall (fun e => e == 0) e0 /\ Forall (fun e => e == 0) e1 /\
      Forall (fun e => e == 0) e2) /\
  same_outcome fractions_equiv
    (_extract_isotopes from_csv rng1 sum_data mass_rsd false)
    (_extract_isotopes from_csv rng2 sum_data mass_rsd false).
Proof.
  split.
  - intros nF. do 3 eexists. split; [apply noise_zeros |].
    repeat split; apply Forall_times_zero.
  - unfold _extract_isotopes.
    apply same_outcome_bind_same; intros df _.
    destruct (truthy (missing_columns_test df)); [reflexivity |].
    apply same_outcome_bind_same; intros stamps _.
    apply same_outcome_bind_same; intros fraction _.
    apply same_outcome_bind_same; intros f0 _.
    apply same_outcome_bind_same; intros bad _.
    destruct bad; [reflexivity |].
    apply same_outcome_bind_same; intros s0 _.
    apply same_outcome_bind_same; intros ug _.
    apply same_outcome_bind_same; intros d13C _.
    apply same_outcome_bind_same; intros Fm _.
    cbn [bind]. rewrite !noise_zeros. cbn [bind].
    assert (Hz : forall m j n, same_outcome (Forall2 Qeq)
              (zip_with Qplus m (map (fun x => x * 0) (randn_col rng1 n j)))
              (zip_with Qplus m (map (fun x => x * 0) (randn_col rng2 n j)))).
    { intros m j n. apply zip_plus_zero; [| apply Forall_times_zero ..].
      now rewrite !length_map, !randn_col_length. }
    apply (same_outcome_bind (Forall2 Qeq)); [apply Hz |]; intros m1 m2 Hm.
    apply (same_outcome_bind (Forall2 Qeq)); [apply Hz |]; intros d1 d2 Hd.
    apply (same_outcome_bind (Forall2 Qeq)); [apply Hz |]; intros F1 F2 HF.
    simpl. repeat split; try assumption. now apply d13C_to_R13_compat.
Qed.

(** On the complete sample table the noise-free extraction returns the
    table's own values. *)
Example extract_table_full (rng : nat -> Q) :
  same_outcome fractions_equiv
    (_extract_isotopes no_csv rng (SumFrame table_full) (1 # 100) false)
    (Ok (Fractions [600; 1200]%Z [1200; 1800]%Z [100; 80]
           [_d13C_to_R13 (- (25)); _d13C_to_R13 (- (26))] [1; 1 # 2])).
Proof.
  simpl. repeat split; repeat constructor; try ring.
  all: unfold _d13C_to_R13; field.
Qed.

End ExtractFacts.

(** ** isotoperesult.py: contribution mapping and construction *)

Module ContFacts.
Import Np Isotope Samples.

(** Inversion of a successful monadic step. *)
Ltac bind_ok H :=
  match type of H with
  | bind ?m _ = Ok _ =>
      let a := fresh "a" in
      let E := fresh "E" in
      destruct m as [a |] eqn:E; [cbn [bind] in H | discriminate H]
  | (if ?b then _ else _) = Ok _ =>
      let E := fresh "E" in
      destruct b eqn:E; try discriminate H
  | (let '(_, _) := ?p in _) = Ok _ => destruct p
  | match ?p with (_, _) => _ end = Ok _ => destruct p
  end.

Lemma zip_with_length op (u v r : list Q) :
  zip_with op u v = Ok r -> length r = length u /\ length r = length v.
Proof.
  revert v r; induction u as [| a u IH]; intros [| b v] r H; simpl in H;
    try discriminate H.
  - injection H as <-. auto.
  - bind_ok H. injection H as <-. destruct (IH _ _ E) as [H1 H2]. simpl. auto.
Qed.

Lemma zip_with_total op (u v : list Q) :
  length u = length v -> exists r, zip_with op u v = Ok r /\ length r = length u.
Proof.
  revert v; induction u as [| a u IH]; intros [| b v] H; simpl in H;
    try discriminate H.
  - exists []. auto.
  - injection H as H. destruct (IH v H) as [r [Hr Hl]].
    exists (op a b :: r). simpl. rewrite Hr. simpl. auto.
Qed.

Lemma column_stack2_combine (u v : list Q) :
  length u = length v -> column_stack2 u v = Ok (combine u v).
Proof.
  revert v; induction u as [| a u IH]; intros [| b v] H; simpl in H;
    try discriminate H; [reflexivity |].
  injection H as H. simpl. rewrite (IH v H). reflexivity.
Qed.

Lemma column_stack2_ok (u v : list Q) (t : list (Q * Q)) :
  column_stack2 u v = Ok t -> t = combine u v.
Proof.
  revert v t; induction u as [| a u IH]; intros [| b v] t H; simpl in H;
    try discriminate H.
  - now injection H as <-.
  - bind_ok H. injection H as <-. simpl. now rewrite (IH _ _ E).
Qed.

Lemma slices_length {A : Type} (l : list A) :
  length (slice_1_m1 l) = length (slice_2 l).
Proof.
  unfold slice_1_m1, slice_2.
  destruct l as [| a l]; [reflexivity |]. simpl.
  destruct l as [| b l]; [reflexivity |].
  rewrite removelast_firstn_len, length_firstn. simpl. lia.
Qed.

(** The check of line 117 comes first: with more peaks than fractions the
    mapping stops there, whatever the model and the time grid hold. *)
Lemma calc_cont_ptf_underconstrained (lt : LaplaceTransform) (ec : EnergyComplex)
    (t0 tf : list Q) :
  length t0 = length tf ->
  (length t0 < shape1 (ec_peaks ec))%nat ->
  _calc_cont_ptf lt ec t0 tf = Raise underconstrained.
Proof.
  intros Hlen Hlt. unfold _calc_cont_ptf.
  rewrite (column_stack2_combine _ _ Hlen). cbn [bind].
  apply Nat.ltb_lt in Hlt. rewrite Hlt. reflexivity.
Qed.

(** The arrays an extraction returns have one length. *)
Lemma extract_lengths from_csv rng sum_data mass_rsd add_noise fr :
  _extract_isotopes from_csv rng sum_data mass_rsd add_noise = Ok fr ->
  length (tf_frac fr) = length (t0_frac fr) /\
  length (mass_frac fr) = length (t0_frac fr) /\
  length (R13_frac fr) = length (t0_frac fr) /\
  length (Fm_frac fr) = length (t0_frac fr).
Proof.
  unfold _extract_isotopes; intros H.
  repeat bind_ok H.
  injection H as <-. simpl.
  match goal with
  | Hn : noise _ ?sg _ = Ok _ |- _ =>
      unfold noise in Hn; destruct sg as [[? ?] ?];
      repeat bind_ok Hn; injection Hn as <- <- <-
  end.
  repeat match goal with
         | Hz : zip_with _ _ _ = Ok _ |- _ => apply zip_with_length in Hz; destruct Hz
         end.
  rewrite !ExtractFacts.randn_col_length in *.
  rewrite length_map in *.
  repeat split; try lia.
  rewrite <- slices_length. reflexivity.
Qed.

Lemma blank_correct_total (t0 tf m R F : list Q) :
  length tf = length t0 -> length m = length t0 ->
  length R = length t0 -> length F = length t0 ->
  exists m' R' F', _blank_correct t0 tf m R F = Ok (m', R', F') /\
    length m' = length t0 /\ length R' = length t0 /\ length F' = length t0.
Proof.
  intros Htf Hm HR HF. unfold _blank_correct.
  destruct (zip_with_total Qminus tf t0 Htf) as [dt [-> Hdt]]. cbn [bind].
  destruct (zip_with_total Qminus m (map (fun d => bl_flux * d) dt)) as [mc [-> Hmc]];
    [rewrite length_map; lia |]. cbn [bind].
  destruct (zip_with_total Qmult m R) as [mR [-> HmR]]; [lia |]. cbn [bind].
  destruct (zip_with_total Qminus mR
              (map (fun b => b * bl_R13) (map (fun d => bl_flux * d) dt)))
    as [nR [-> HnR]]; [rewrite !length_map; lia |]. cbn [bind].
  destruct (zip_with_total Qdiv nR mc) as [Rc [-> HRc]]; [lia |]. cbn [bind].
  destruct (zip_with_total Qmult m F) as [mF [-> HmF]]; [lia |]. cbn [bind].
  destruct (zip_with_total Qminus mF
              (map (fun b => b * bl_Fm) (map (fun d => bl_flux * d) dt)))
    as [nF [-> HnF]]; [rewrite !length_map; lia |]. cbn [bind].
  destruct (zip_with_total Qdiv nF mc) as [Fc [-> HFc]]; [lia |]. cbn [bind].
  exists mc, Rc, Fc. repeat split; lia.
Qed.

Lemma rows5_total (a b c d e : list Q) :
  length b = length a -> length c = length a ->
  length d = length a -> length e = length a ->
  exists r, rows5 a b c d e = Ok r.
Proof.
  revert b c d e; induction a as [| x a IH];
    intros [| y b] [| z c] [| u d] [| v e] Hb Hc Hd He; simpl in *;
    try discriminate.
  - eexists; reflexivity.
  - destruct (IH b c d e) as [r Hr]; try lia. rewrite Hr. eexists; reflexivity.
Qed.

Lemma mapM_raises {A B : Type} (f : A -> result B) (l : list A) (x : A) (e0 : pyerr) :
  In x l -> f x = Raise e0 -> exists e, mapM f l = Raise e.
Proof.
  induction l as [| a l IH]; intros Hin Hx; [contradiction |].
  simpl. destruct Hin as [-> | Hin].
  - rewrite Hx. eexists; reflexivity.
  - destruct (f a); [| eexists; reflexivity]. cbn [bind].
    destruct (IH Hin Hx) as [e ->]. eexists; reflexivity.
Qed.

(** An empty window stops the loop body at [ind[0]]. *)
Lemma frac_step_empty_window (t_tg tot : list Q) (peaks : matrix) (row : Q * Q) :
  window t_tg row = [] -> frac_step t_tg tot peaks row = Raise IndexError.
Proof.
  intros H. unfold frac_step. rewrite H. reflexivity.
Qed.

(** With a fraction whose window is empty the mapping never returns. *)
Lemma calc_cont_ptf_empty_window (lt : LaplaceTransform) (ec : EnergyComplex)
    (t0 tf : list Q) (row : Q * Q) :
  In row (combine t0 tf) -> window (lt_t lt) row = [] ->
  exists e, _calc_cont_ptf lt ec t0 tf = Raise e.
Proof.
  intros Hin Hw. unfold _calc_cont_ptf.
  destruct (column_stack2 t0 tf) as [t |] eqn:Ht; [| eexists; reflexivity].
  apply column_stack2_ok in Ht. subst t. cbn [bind].
  destruct (length t0 <? shape1 (ec_peaks ec))%nat; [eexists; reflexivity |].
  destruct (inner_mv _ _); [| eexists; reflexivity]. cbn [bind].
  destruct (inner_mm _ _); [| eexists; reflexivity]. cbn [bind].
  destruct (gradient _); [| eexists; reflexivity]. cbn [bind].
  destruct (gradient_axis0 _); [| eexists; reflexivity]. cbn [bind].
  destruct (mapM_raises (frac_step (lt_t lt) (neg a1) (mneg a2)) _ row IndexError Hin)
    as [e ->]; [now apply frac_step_empty_window |].
  eexists; reflexivity.
Qed.

(** *** Index windows *)

Lemma where_from_lower (i : nat) (mask : list bool) (j : nat) :
  In j (where_from i mask) -> (i <= j)%nat.
Proof.
  revert i; induction mask as [| b mask IH]; intros i Hin; simpl in Hin;
    [contradiction |].
  destruct b; [destruct Hin as [<- | Hin]; [lia |] |];
    specialize (IH _ Hin); lia.
Qed.

(** [np.where] lists the positions in ascending order. *)
Lemma where_from_sorted (i : nat) (mask : list bool) :
  StronglySorted lt (where_from i mask).
Proof.
  revert i; induction mask as [| b mask IH]; intros i; simpl; [constructor |].
  destruct b; [| apply IH].
  constructor; [apply IH |].
  apply Forall_forall. intros j Hj. apply where_from_lower in Hj. lia.
Qed.

Lemma sorted_first_le (l : list nat) (x : nat) :
  StronglySorted lt l -> first l = Ok x -> forall j, In j l -> (x <= j)%nat.
Proof.
  intros Hs Hf j Hin. destruct l as [| a l]; [discriminate Hf |].
  injection Hf as <-. inversion Hs as [| ? ? _ Hall]; subst.
  destruct Hin as [<- | Hin]; [lia |].
  rewrite Forall_forall in Hall. specialize (Hall _ Hin). lia.
Qed.

Lemma sorted_app_last (l : list nat) (x : nat) :
  StronglySorted lt (l ++ [x]) -> forall j, In j (l ++ [x]) -> (j <= x)%nat.
Proof.
  induction l as [| a l IH]; simpl; intros Hs j Hin.
  - destruct Hin as [<- | []]. lia.
  - inversion Hs as [| ? ? Hs' Hall]; subst.
    destruct Hin as [<- | Hin]; [| now apply IH].
    rewrite Forall_forall in Hall.
    assert (a < x)%nat by (apply Hall; apply in_or_app; right; now left). lia.
Qed.

Lemma sorted_last_ge (l : list nat) (x : nat) :
  StronglySorted lt l -> last l = Ok x -> forall j, In j l -> (j <= x)%nat.
Proof.
  intros Hs Hl j Hin. unfold last in Hl.
  destruct (rev l) as [| y r] eqn:Hr; [discriminate Hl |]. injection Hl as ->.
  assert (Hl : l = rev r ++ [x]).
  { rewrite <- (rev_involutive l), Hr. reflexivity. }
  subst l. eapply sorted_app_last; eassumption.
Qed.

Lemma take_Forall2 {A : Type} (a : list A) (ind : list nat) (r : list A) :
  take a ind = Ok r -> Forall2 (fun j x => nth_error a j = Some x) ind r.
Proof.
  unfold take. revert r; induction ind as [| j ind IH]; intros r H; simpl in H.
  - injection H as <-. constructor.
  - destruct (nth_error a j) as [x |] eqn:Hj; [| discriminate H]. cbn [bind] in H.
    bind_ok H. injection H as <-. constructor; auto.
Qed.

(** *** The weighted mean index *)

Lemma sum_nonneg (w : list Q) : Forall (fun x => 0 <= x) w -> 0 <= sum w.
Proof.
  induction 1 as [| x w Hx _ IH]; simpl; [apply Qle_refl | lra].
Qed.

Lemma weighted_sum_bounds (ind : list nat) (w prod : list Q) (lo hi : nat) :
  zip_with Qmult (map (fun i => inject_Z (Z.of_nat i)) ind) w = Ok prod ->
  Forall (fun x => 0 <= x) w ->
  (forall j, In j ind -> (lo <= j <= hi)%nat) ->
  inject_Z (Z.of_nat lo) * sum w <= sum prod /\
  sum prod <= inject_Z (Z.of_nat hi) * sum w.
Proof.
  revert w prod; induction ind as [| j ind IH]; intros [| x w] prod H Hw Hb;
    simpl in H; try discriminate H.
  - injection H as <-. simpl. lra.
  - bind_ok H. injection H as <-.
    inversion Hw as [| ? ? Hx Hw']; subst.
    destruct (IH w a E Hw') as [IHl IHh]; [intros k Hk; apply Hb; now right |].
    assert (Hj : (lo <= j <= hi)%nat) by (apply Hb; now left).
    assert (Hlo : inject_Z (Z.of_nat lo) <= inject_Z (Z.of_nat j)).
    { rewrite <- Zle_Qle. lia. }
    assert (Hhi : inject_Z (Z.of_nat j) <= inject_Z (Z.of_nat hi)).
    { rewrite <- Zle_Qle. lia. }
    simpl. split; nra.
Qed.

(** [np.round] keeps a value between two integers between them. *)
Lemma round_between (x : Q) (a b : Z) :
  inject_Z a <= x <= inject_Z b -> (a <= round x <= b)%Z.
Proof.
  intros [Ha Hb].
  assert (Hfa : (a <= Qfloor x)%Z).
  { rewrite <- (Qfloor_Z a). now apply Qfloor_resp_le. }
  assert (Hfb : (Qfloor x <= b)%Z).
  { rewrite <- (Qfloor_Z b). now apply Qfloor_resp_le. }
  assert (Hup : 1 # 2 <= x - inject_Z (Qfloor x) -> (Qfloor x + 1 <= b)%Z).
  { intros Hr.
    assert (Hlt : inject_Z (Qfloor x) < inject_Z b) by lra.
    rewrite <- Zlt_Qlt in Hlt. lia. }
  unfold round.
  destruct (Qcompare (x - inject_Z (Qfloor x)) (1 # 2)) eqn:Hc.
  - apply Qeq_alt in Hc. destruct (Z.even (Qfloor x)); [lia |].
    assert (1 # 2 <= x - inject_Z (Qfloor x)) by (rewrite Hc; apply Qle_refl).
    specialize (Hup H). lia.
  - lia.
  - apply Qgt_alt in Hc.
    assert (1 # 2 <= x - inject_Z (Qfloor x)) by lra.
    specialize (Hup H). lia.
Qed.

(** The loop body: whenever it returns with non-negative rates over the
    window, the rounded mean index lies between the first and the last
    index of the window. *)
Lemma frac_step_wgh_between (t_tg tot : list Q) (peaks : matrix) (row : Q * Q)
    (e : frac_entry) :
  frac_step t_tg tot peaks row = Ok e ->
  (forall j x, In j (window t_tg row) -> nth_error tot j = Some x -> 0 <= x) ->
  (Z.of_nat (e_min e) <= e_wgh e <= Z.of_nat (e_max e))%Z.
Proof.
  unfold frac_step. intros H Hpos.
  set (ind := window t_tg row) in *.
  assert (Hs : StronglySorted lt ind) by apply where_from_sorted.
  destruct (first ind) as [imin |] eqn:Hmin; [| discriminate H]. cbn [bind] in H.
  destruct (last ind) as [imax |] eqn:Hmax; [| discriminate H]. cbn [bind] in H.
  destruct (take tot ind) as [w |] eqn:Hw; [| discriminate H]. cbn [bind] in H.
  destruct (average ind w) as [av |] eqn:Hav; [| discriminate H]. cbn [bind] in H.
  destruct (take (mrows peaks) ind) as [pk |]; [| discriminate H]. cbn [bind] in H.
  injection H as <-. simpl.
  assert (Hnn : Forall (fun x => 0 <= x) w).
  { apply take_Forall2 in Hw. clear - Hw Hpos.
    assert (Hp : forall j, In j ind -> forall x, nth_error tot j = Some x -> 0 <= x)
      by (intros; eapply Hpos; eauto).
    clear Hpos. induction Hw as [| j x ind' w' Hjx _ IH]; constructor.
    - apply (Hp j); [now left | assumption].
    - apply IH. intros k Hk. apply Hp. now right. }
  unfold average in Hav.
  destruct (Qeq_bool (sum w) 0) eqn:Hz; [discriminate Hav |].
  destruct (zip_with Qmult _ w) as [prod |] eqn:Hprod; [| discriminate Hav].
  cbn [bind] in Hav. injection Hav as <-.
  assert (Hsum : 0 < sum w).
  { pose proof (sum_nonneg w Hnn) as H0.
    apply Qeq_bool_neq in Hz.
    destruct (Qlt_le_dec 0 (sum w)) as [Hlt | Hle]; [assumption |].
    exfalso. apply Hz. lra. }
  destruct (weighted_sum_bounds ind w prod imin imax Hprod Hnn) as [Hlo Hhi].
  { intros j Hj. split;
      [eapply sorted_first_le | eapply sorted_last_ge]; eassumption. }
  apply round_between. split.
  - apply Qle_shift_div_l; assumption.
  - apply Qle_shift_div_r; assumption.
Qed.

Lemma mapM_nth_error {A B : Type} (f : A -> result B) (l : list A) (bs : list B)
    (i : nat) (x : A) :
  mapM f l = Ok bs -> nth_error l i = Some x ->
  exists b, nth_error bs i = Some b /\ f x = Ok b.
Proof.
  revert bs i; induction l as [| a l IH]; intros bs i H Hi.
  - destruct i; discriminate Hi.
  - simpl in H. bind_ok H. bind_ok H. injection H as <-.
    destruct i as [| i]; simpl in *.
    + injection Hi as <-. eauto.
    + eapply IH; eauto.
Qed.

Section Construction.
Variable from_csv : string -> result DataFrame.
Variable rng : nat -> Q.
Variable least_squares : (list Q -> result (list Q)) -> list Q -> result lsq_result.
Variable nnls : list (list Q) -> list Q -> result (list Q * Q).
Variable norm : list Q -> Q.
Variable sqrt : Q -> Q.

(** Once the extraction has succeeded, the constructor reaches the
    contribution mapping; an exception raised there is the constructor's. *)
Lemma init_raises_from_cont sum_data lt ec blank_correct mass_rsd add_noise fr e :
  _extract_isotopes from_csv rng sum_data mass_rsd add_noise = Ok fr ->
  _calc_cont_ptf lt ec (map inject_Z (t0_frac fr)) (map inject_Z (tf_frac fr))
    = Raise e ->
  IsotopeResult_init from_csv rng least_squares nnls norm sqrt
    sum_data lt ec blank_correct mass_rsd add_noise = Raise e.
Proof.
  intros Hex Hc. unfold IsotopeResult_init. rewrite Hex. cbn [bind].
  destruct (extract_lengths _ _ _ _ _ _ Hex) as (Htf & Hm & HR & HF).
  assert (Hblank : exists m' R' F',
    (if blank_correct
     then _blank_correct (map inject_Z (t0_frac fr)) (map inject_Z (tf_frac fr))
            (mass_frac fr) (R13_frac fr) (Fm_frac fr)
     else Ok (mass_frac fr, R13_frac fr, Fm_frac fr)) = Ok (m', R', F') /\
    length m' = length (t0_frac fr) /\ length R' = length (t0_frac fr) /\
    length F' = length (t0_frac fr)).
  { destruct blank_correct.
    - destruct (blank_correct_total (map inject_Z (t0_frac fr))
                  (map inject_Z (tf_frac fr)) (mass_frac fr) (R13_frac fr)
                  (Fm_frac fr)) as (m' & R' & F' & Hb & H1 & H2 & H3);
        rewrite ?length_map; try assumption.
      exists m', R', F'. rewrite length_map in H1, H2, H3. auto.
    - exists (mass_frac fr), (R13_frac fr), (Fm_frac fr). auto. }
  destruct Hblank as (m' & R' & F' & -> & H1 & H2 & H3). cbn [bind].
  destruct (rows5_total (map inject_Z (t0_frac fr)) (map inject_Z (tf_frac fr))
              m' (map _R13_to_d13C R') F') as [r ->];
    rewrite ?length_map; try assumption.
  cbn [bind]. rewrite Hc. reflexivity.
Qed.

(** C6: with more peaks than fractions the contribution mapping raises
    the under-constrained [ValueError] whatever the forward model and the
    time grid hold, and the constructor, once the table has been
    extracted, ends with that exception whatever the blank correction and
    the solvers are. *)
Theorem underconstrained_always_raised
    sum_data lt ec blank_correct mass_rsd add_noise :
  (forall t0 tf : list Q,
      length t0 = length tf ->
      (length t0 < shape1 (ec_peaks ec))%nat ->
      _calc_cont_ptf lt ec t0 tf = Raise underconstrained) /\
  (forall fr : fractions,
      _extract_isotopes from_csv rng sum_data mass_rsd add_noise = Ok fr ->
      (length (t0_frac fr) < shape1 (ec_peaks ec))%nat ->
      IsotopeResult_init from_csv rng least_squares nnls norm sqrt
        sum_data lt ec blank_correct mass_rsd add_noise = Raise underconstrained).
Proof.
  split.
  - intros t0 tf. apply calc_cont_ptf_underconstrained.
  - intros fr Hex Hlt.
    eapply init_raises_from_cont; [eassumption |].
    apply calc_cont_ptf_underconstrained; rewrite !length_map.
    + symmetry. apply (extract_lengths _ _ _ _ _ _ Hex).
    + exact Hlt.
Qed.

(** C8: when some fraction's window [(t0, tf]] holds no point of the time
    grid, the contribution mapping raises, and the constructor ends with
    that same exception, whatever the solvers are: no regression is
    reached. *)
Theorem empty_window_is_fatal
    sum_data lt ec blank_correct mass_rsd add_noise fr row :
  _extract_isotopes from_csv rng sum_data mass_rsd add_noise = Ok fr ->
  In row (combine (map inject_Z (t0_frac fr)) (map inject_Z (tf_frac fr))) ->
  window (lt_t lt) row = [] ->
  exists e,
    _calc_cont_ptf lt ec (map inject_Z (t0_frac fr)) (map inject_Z (tf_frac fr))
      = Raise e /\
    IsotopeResult_init from_csv rng least_squares nnls norm sqrt
      sum_data lt ec blank_correct mass_rsd add_noise = Raise e.
Proof.
  intros Hex Hin Hw.
  destruct (calc_cont_ptf_empty_window lt ec _ _ row Hin Hw) as [e He].
  exists e. split; [exact He |].
  eapply init_raises_from_cont; eassumption.
Qed.

End Construction.

Lemma underconstrained_always_raised_witness :
  _calc_cont_ptf sample_lt sample_ec3 sample_t0 sample_tf
    = Raise underconstrained /\
  IsotopeResult_init no_csv no_rng no_least_squares no_nnls no_norm no_sqrt
    (SumFrame table_full) sample_lt sample_ec3 true (1 # 100) false
    = Raise underconstrained.
Proof.
  pose proof (underconstrained_always_raised no_csv no_rng no_least_squares
                no_nnls no_norm no_sqrt (SumFrame table_full) sample_lt
                sample_ec3 true (1 # 100) false) as [Hstep Hinit].
  split.
  - apply Hstep; [reflexivity | simpl; lia].
  - apply (Hinit sample_fractions); [vm_compute; reflexivity | simpl; lia].
Defined.

(** *** Sums of rows: the decomposition carried through the model *)

Lemma sum_compat (u v : list Q) : Forall2 Qeq u v -> sum u == sum v.
Proof.
  induction 1 as [| x y u v Hxy _ IH]; simpl; [reflexivity |].
  rewrite Hxy, IH. reflexivity.
Qed.

Lemma sum_map_ext {A : Type} (f g : A -> Q) (l : list A) :
  (forall k, f k == g k) -> sum (map f l) == sum (map g l).
Proof.
  intros H; induction l as [| a l IH]; simpl; [reflexivity |].
  rewrite H, IH. reflexivity.
Qed.

Lemma sum_map_zero {A : Type} (l : list A) : sum (map (fun _ => 0) l) == 0.
Proof.
  induction l as [| a l IH]; simpl; [reflexivity | rewrite IH; ring].
Qed.

Lemma sum_map_plus_scale {A : Type} (x : Q) (f g : A -> Q) (l : list A) :
  sum (map (fun k => x * f k + g k) l) == x * sum (map f l) + sum (map g l).
Proof.
  induction l as [| a l IH]; simpl; [ring | rewrite IH; ring].
Qed.

Lemma sum_map_div (s : Q) (v : list Q) :
  sum (map (fun c => c / s) v) == sum v / s.
Proof.
  induction v as [| a v IH]; simpl.
  - unfold Qdiv. ring.
  - rewrite IH. unfold Qdiv. ring.
Qed.

Lemma sum_neg (v : list Q) : sum (neg v) == - sum v.
Proof.
  induction v as [| a v IH]; simpl; [ring | rewrite IH; ring].
Qed.

Lemma sum_vhalf (v : list Q) : sum (vhalf v) == sum v / 2.
Proof. apply sum_map_div. Qed.

Lemma sum_vadd (u v : list Q) :
  length u = length v -> sum (vadd u v) == sum u + sum v.
Proof.
  revert v; induction u as [| a u IH]; intros [| b v] H; simpl in *;
    try discriminate H; [ring |].
  rewrite IH by lia. ring.
Qed.

Lemma sum_vsub (u v : list Q) :
  length u = length v -> sum (vsub u v) == sum u - sum v.
Proof.
  revert v; induction u as [| a u IH]; intros [| b v] H; simpl in *;
    try discriminate H; [ring |].
  rewrite IH by lia. ring.
Qed.

Lemma length_vadd (u v : list Q) :
  length u = length v -> length (vadd u v) = length u.
Proof.
  revert v; induction u as [| a u IH]; intros [| b v] H; simpl in *;
    try discriminate H; [reflexivity |].
  rewrite IH by lia. reflexivity.
Qed.

Lemma length_vsub (u v : list Q) :
  length u = length v -> length (vsub u v) = length u.
Proof.
  revert v; induction u as [| a u IH]; intros [| b v] H; simpl in *;
    try discriminate H; [reflexivity |].
  rewrite IH by lia. reflexivity.
Qed.

Lemma sum_zeros (n : nat) : sum (zeros n) == 0.
Proof.
  induction n as [| n IH]; simpl; [reflexivity | rewrite IH; ring].
Qed.

Lemma nth_seq_row (p : list Q) :
  map (fun k => nth k p 0) (seq 0 (length p)) = p.
Proof.
  induction p as [| a p IH]; simpl; [reflexivity |].
  rewrite <- seq_shift, map_map. simpl. rewrite IH. reflexivity.
Qed.

Lemma dot_nil_r (a : list Q) : dot a [] = 0.
Proof. unfold dot. destruct a; reflexivity. Qed.

Lemma dot_compat_r (a u v : list Q) : Forall2 Qeq u v -> dot a u == dot a v.
Proof.
  intros H; revert a; induction H as [| x y u v Hxy _ IH]; intros a.
  - reflexivity.
  - destruct a as [| c a]; [reflexivity |].
    unfold dot in *; simpl. rewrite Hxy, (IH a). reflexivity.
Qed.

(** A row of [np.inner(A, peaks.T)] adds up to the inner product with the
    sum of the peaks. *)
Lemma sum_dot_columns (P : list (list Q)) (a : list Q) (n : nat) :
  Forall (fun r => length r = n) P ->
  sum (map (fun k => dot a (map (fun r => nth k r 0) P)) (seq 0 n))
  == dot a (map sum P).
Proof.
  intros HP; revert a; induction HP as [| p P Hp _ IH]; intros a.
  - simpl. rewrite dot_nil_r. apply sum_map_zero.
  - destruct a as [| x a].
    + simpl. apply sum_map_zero.
    + rewrite (sum_map_ext _
                 (fun k => x * nth k p 0 + dot a (map (fun r => nth k r 0) P)))
        by (intros k; unfold dot; simpl; reflexivity).
      rewrite sum_map_plus_scale, IH.
      rewrite <- Hp, nth_seq_row. unfold dot; simpl. reflexivity.
Qed.

Lemma inner_rows_sum (A P : list (list Q)) (phi : list Q) (n : nat) :
  Forall (fun r => length r = n) P ->
  Forall2 Qeq phi (map sum P) ->
  Forall2 Qeq
    (map sum (map (fun r => map (fun c => dot r c)
                 (map (fun k => map (fun r0 => nth k r0 0) P) (seq 0 n))) A))
    (map (fun r => dot r phi) A).
Proof.
  intros HP Hphi. induction A as [| a A IH]; simpl; constructor; [| exact IH].
  rewrite map_map. rewrite (sum_dot_columns P a n HP).
  symmetry. now apply dot_compat_r.
Qed.

(** The gradient commutes with summing rows. *)
Lemma gradient_from_sum (n : nat) (rest : list (list Q)) (prev cur : list Q) :
  length prev = n -> length cur = n -> Forall (fun r => length r = n) rest ->
  Forall2 (fun r x => length r = n /\ sum r == x)
    (gradient_from (list Q) vsub vhalf prev cur rest)
    (gradient_from Q Qminus (fun a => a / 2) (sum prev) (sum cur) (map sum rest)).
Proof.
  intros Hp Hc Hr; revert prev cur Hp Hc;
    induction Hr as [| nxt rest Hn _ IH]; intros prev cur Hp Hc; simpl.
  - constructor; [| constructor].
    split; [rewrite length_vsub; lia | apply sum_vsub; lia].
  - constructor; [| now apply IH].
    split.
    + unfold vhalf. rewrite length_map, length_vsub; lia.
    + rewrite sum_vhalf, sum_vsub by lia. reflexivity.
Qed.

Lemma gradient_rows_sum (n : nat) (R G : list (list Q)) :
  Forall (fun r => length r = n) R ->
  gradient_gen (list Q) vsub vhalf R = Ok G ->
  exists G', gradient (map sum R) = Ok G' /\
             Forall2 (fun r x => length r = n /\ sum r == x) G G'.
Proof.
  intros HR H. destruct R as [| r0 [| r1 rest]]; simpl in H; try discriminate H.
  injection H as <-.
  inversion HR as [| ? ? H0 HR']; subst. inversion HR' as [| ? ? H1 HR'']; subst.
  eexists; split; [reflexivity |].
  constructor.
  - split; [rewrite length_vsub; lia | apply sum_vsub; lia].
  - now apply gradient_from_sum.
Qed.

Lemma gradient_from_compat (r1 r2 : list Q) :
  Forall2 Qeq r1 r2 -> forall p1 p2 c1 c2, p1 == p2 -> c1 == c2 ->
  Forall2 Qeq (gradient_from Q Qminus (fun a => a / 2) p1 c1 r1)
              (gradient_from Q Qminus (fun a => a / 2) p2 c2 r2).
Proof.
  induction 1 as [| x y r1 r2 Hxy _ IH]; intros p1 p2 c1 c2 Hp Hc; simpl.
  - constructor; [rewrite Hp, Hc; reflexivity | constructor].
  - constructor; [rewrite Hp, Hxy; reflexivity | now apply IH].
Qed.

Lemma gradient_compat (a b ga gb : list Q) :
  Forall2 Qeq a b -> gradient a = Ok ga -> gradient b = Ok gb -> Forall2 Qeq ga gb.
Proof.
  intros Hab Ha Hb.
  destruct Hab as [| x0 y0 a b H0 Hab]; [discriminate Ha |].
  destruct Hab as [| x1 y1 a b H1 Hab]; [discriminate Ha |].
  unfold gradient in *; simpl in Ha, Hb. injection Ha as <-. injection Hb as <-.
  constructor; [rewrite H0, H1; reflexivity | now apply gradient_from_compat].
Qed.

Lemma Forall2_nth_error {A B : Type} (R : A -> B -> Prop) (a : list A) (b : list B)
    (j : nat) (x : A) (y : B) :
  Forall2 R a b -> nth_error a j = Some x -> nth_error b j = Some y -> R x y.
Proof.
  intros H; revert j; induction H as [| x' y' a b Hxy _ IH]; intros j Hx Hy.
  - destruct j; discriminate Hx.
  - destruct j as [| j]; simpl in *.
    + injection Hx as <-. injection Hy as <-. assumption.
    + eapply IH; eassumption.
Qed.

Lemma take_related {A B : Type} (R : A -> B -> Prop) (a : list A) (b : list B)
    (ind : list nat) (ra : list A) (rb : list B) :
  Forall2 R a b -> take a ind = Ok ra -> take b ind = Ok rb -> Forall2 R ra rb.
Proof.
  intros Hab Ha Hb. apply take_Forall2 in Ha. apply take_Forall2 in Hb.
  revert rb Hb; induction Ha as [| j x ind ra Hjx _ IH]; intros rb Hb;
    inversion Hb as [| ? y ? rb' Hjy Hb']; subst; constructor.
  - eapply Forall2_nth_error; eassumption.
  - now apply IH.
Qed.

Lemma sum_axis0_rows (n : nat) (rows : list (list Q)) (w : list Q) :
  Forall2 (fun r x => length r = n /\ sum r == x) rows w ->
  length (sum_axis0 n rows) = n /\ sum (sum_axis0 n rows) == sum w.
Proof.
  unfold sum_axis0.
  induction 1 as [| r x rows w [Hl Hs] _ [IHl IHs]]; simpl.
  - split; [apply repeat_length | apply sum_zeros].
  - split; [rewrite length_vadd; lia |].
    rewrite sum_vadd by lia. rewrite Hs, IHs. reflexivity.
Qed.

(** With a consistent decomposition the per-peak thermograms add up, time
    step by time step, to the combined thermogram. *)
Lemma peak_thermograms_sum (lt : LaplaceTransform) (ec : EnergyComplex)
    (tot : list Q) (peaks : matrix) :
  wf_matrix (ec_peaks ec) ->
  Forall2 Qeq (ec_phi_hat ec) (map sum (mrows (ec_peaks ec))) ->
  thermogram lt ec = Ok tot ->
  peak_thermograms lt ec = Ok peaks ->
  shape1 peaks = shape1 (ec_peaks ec) /\
  Forall2 (fun r x => length r = shape1 (ec_peaks ec) /\ sum r == x)
          (mrows peaks) tot.
Proof.
  intros Hwf Hphi Ht Hp. unfold thermogram in Ht. unfold peak_thermograms in Hp.
  unfold inner_mv in Ht. unfold inner_mm in Hp.
  destruct (Nat.eqb _ (length _)); [| discriminate Ht]. cbn [bind] in Ht.
  destruct (Nat.eqb _ (shape1 _)); [| discriminate Hp]. cbn [bind] in Hp.
  destruct (gradient _) as [dg |] eqn:Hdg; [| discriminate Ht]. injection Ht as <-.
  unfold gradient_axis0 in Hp. cbn [mrows shape1 bind] in Hp.
  destruct (gradient_gen _ _ _ _) as [G |] eqn:HG; [| discriminate Hp].
  cbn [bind] in Hp. injection Hp as <-.
  set (n := shape1 (ec_peaks ec)) in *.
  unfold transpose, column in HG. cbn [mrows] in HG.
  match type of HG with
  | gradient_gen _ _ _ ?R = _ => assert (HR : Forall (fun r => length r = n) R)
  end.
  { apply Forall_forall. intros r Hr. apply in_map_iff in Hr.
    destruct Hr as (a & <- & _). now rewrite !length_map, length_seq. }
  destruct (gradient_rows_sum n _ G HR HG) as (G' & HG' & Hrel).
  assert (Hg : Forall2 Qeq
            (map sum (map (fun r => map (fun c => dot r c)
                       (map (fun k => map (fun r0 => nth k r0 0) (mrows (ec_peaks ec)))
                            (seq 0 n))) (mrows (lt_A lt))))
            (map (fun r => dot r (ec_phi_hat ec)) (mrows (lt_A lt)))).
  { now apply inner_rows_sum. }
  pose proof (gradient_compat _ _ _ _ Hg HG' Hdg) as Hdd.
  split; [unfold transpose, shape0; cbn; now rewrite length_map, length_seq |].
  cbn [mneg mrows]. unfold shape0; cbn.
  clear - Hrel Hdd. revert dg Hdd.
  induction Hrel as [| r x G G' [Hl Hs] _ IH]; intros dg Hdd;
    inversion Hdd as [| ? y ? dg' Hxy Hdd']; subst; simpl; constructor.
  - split; [unfold neg; now rewrite length_map |].
    rewrite sum_neg, Hs, Hxy. reflexivity.
  - now apply IH.
Qed.

(** *** When the mapping returns *)

Lemma where_from_upper (i : nat) (mask : list bool) (j : nat) :
  In j (where_from i mask) -> (j < i + length mask)%nat.
Proof.
  revert i; induction mask as [| b mask IH]; intros i Hin; simpl in Hin;
    [contradiction |].
  destruct b; [destruct Hin as [<- | Hin]; [simpl; lia |] |];
    specialize (IH _ Hin); simpl; lia.
Qed.

Lemma window_in_grid (t_tg : list Q) (row : Q * Q) (j : nat) :
  In j (window t_tg row) -> (j < length t_tg)%nat.
Proof.
  unfold window, where_. intros H. apply where_from_upper in H.
  now rewrite length_map in H.
Qed.

Lemma take_total {A : Type} (a : list A) (ind : list nat) :
  (forall j, In j ind -> (j < length a)%nat) ->
  exists r, take a ind = Ok r /\ length r = length ind.
Proof.
  unfold take. induction ind as [| j ind IH]; intros H; simpl.
  - exists []. auto.
  - destruct (nth_error a j) as [x |] eqn:Hj.
    + destruct IH as [r [-> Hl]]; [intros k Hk; apply H; now right |].
      exists (x :: r). simpl. auto.
    + apply nth_error_None in Hj.
      assert (j < length a)%nat by (apply H; now left). lia.
Qed.

Lemma gradient_from_length (T : Type) (sub : T -> T -> T) (half : T -> T)
    (rest : list T) (prev cur : T) :
  length (gradient_from T sub half prev cur rest) = S (length rest).
Proof.
  revert prev cur; induction rest as [| nxt rest IH]; intros prev cur; simpl;
    [reflexivity | now rewrite IH].
Qed.

Lemma gradient_gen_total (T : Type) (sub : T -> T -> T) (half : T -> T) (a : list T) :
  (2 <= length a)%nat ->
  exists g, gradient_gen T sub half a = Ok g /\ length g = length a.
Proof.
  intros H. destruct a as [| a0 [| a1 rest]]; simpl in H; try lia.
  eexists; split; [reflexivity |]. simpl. now rewrite gradient_from_length.
Qed.

Lemma mapM_total {A B : Type} (f : A -> result B) (l : list A) :
  (forall x, In x l -> exists b, f x = Ok b) ->
  exists bs, mapM f l = Ok bs /\ length bs = length l.
Proof.
  induction l as [| a l IH]; intros H; simpl.
  - exists []. auto.
  - destruct (H a) as [b ->]; [now left |]. cbn [bind].
    destruct IH as [bs [-> Hl]]; [intros x Hx; apply H; now right |].
    exists (b :: bs). simpl. auto.
Qed.

(** The loop body returns as soon as the window is non-empty, lies inside
    the thermograms, and the rates over it do not add up to zero. *)
Lemma frac_step_total (t_tg tot : list Q) (peaks : matrix) (row : Q * Q) :
  (length t_tg <= length tot)%nat ->
  length (mrows peaks) = length tot ->
  window t_tg row <> [] ->
  (forall w, take tot (window t_tg row) = Ok w -> ~ sum w == 0) ->
  exists e, frac_step t_tg tot peaks row = Ok e.
Proof.
  intros Hlen Hrows Hne Hsum. unfold frac_step.
  set (ind := window t_tg row) in *.
  assert (Hin : forall j, In j ind -> (j < length tot)%nat).
  { intros j Hj. apply window_in_grid in Hj. lia. }
  destruct ind as [| i0 ind'] eqn:Hind; [contradiction |]. rewrite <- Hind in *.
  assert (Hfirst : first ind = Ok i0) by (rewrite Hind; reflexivity).
  rewrite Hfirst. cbn [bind].
  assert (Hlast : exists im, last ind = Ok im).
  { unfold last. destruct (rev ind) as [| y r] eqn:Hr; [| eauto].
    apply (f_equal (@length nat)) in Hr. rewrite length_rev, Hind in Hr.
    discriminate Hr. }
  destruct Hlast as [im ->]. cbn [bind].
  destruct (take_total tot ind Hin) as [w [Hw Hwl]]. rewrite Hw. cbn [bind].
  unfold average.
  destruct (Qeq_bool (sum w) 0) eqn:Hz.
  { apply Qeq_bool_iff in Hz. exfalso. exact (Hsum w Hw Hz). }
  destruct (zip_with_total Qmult (map (fun i => inject_Z (Z.of_nat i)) ind) w)
    as [prod [-> _]]; [rewrite length_map; lia |]. cbn [bind].
  destruct (take_total (mrows peaks) ind) as [pk [-> _]];
    [intros j Hj; rewrite Hrows; now apply Hin |]. cbn [bind].
  eexists; reflexivity.
Qed.

(** The whole mapping returns, with one row per fraction, when the shapes
    agree, the peaks do not outnumber the fractions, and every fraction has
    a non-empty window over which the combined rate does not vanish. *)
Lemma calc_cont_ptf_total (lt : LaplaceTransform) (ec : EnergyComplex)
    (t0 tf tot : list Q) :
  length t0 = length tf ->
  (shape1 (ec_peaks ec) <= length t0)%nat ->
  shape1 (lt_A lt) = shape0 (ec_peaks ec) ->
  (2 <= shape0 (lt_A lt))%nat ->
  (length (lt_t lt) <= shape0 (lt_A lt))%nat ->
  thermogram lt ec = Ok tot ->
  (forall row, In row (combine t0 tf) ->
     window (lt_t lt) row <> [] /\
     forall w, take tot (window (lt_t lt) row) = Ok w -> ~ sum w == 0) ->
  exists c, _calc_cont_ptf lt ec t0 tf = Ok c /\
            length (cont_ptf c) = length t0 /\
            length (ind_wgh c) = length t0.
Proof.
  intros Hlen Hpk HAP HnT Hgrid Htot Hrows.
  unfold _calc_cont_ptf. rewrite (column_stack2_combine _ _ Hlen). cbn [bind].
  assert (Hlt : (length t0 <? shape1 (ec_peaks ec))%nat = false)
    by (apply Nat.ltb_ge; lia).
  rewrite Hlt.
  unfold thermogram in Htot.
  destruct (inner_mv _ _) as [g |] eqn:Hg; [| discriminate Htot].
  cbn [bind] in Htot |- *.
  destruct (gradient g) as [dg |] eqn:Hdg; [| discriminate Htot].
  injection Htot as <-.
  assert (HgA : length g = shape0 (lt_A lt)).
  { unfold inner_mv in Hg. destruct (Nat.eqb _ _); [| discriminate Hg].
    injection Hg as <-. now rewrite length_map. }
  assert (Hdgl : length dg = shape0 (lt_A lt)).
  { destruct (gradient_gen_total Q Qminus (fun a => a / 2) g) as [g' [Hg' Hl]];
      [lia |]. unfold gradient in Hdg. rewrite Hg' in Hdg. injection Hdg as <-. lia. }
  unfold inner_mm. cbn [transpose shape1].
  rewrite HAP, Nat.eqb_refl. cbn [bind].
  unfold gradient_axis0. cbn [mrows shape1].
  match goal with
  | |- context [gradient_gen (list Q) vsub vhalf ?R] =>
      destruct (gradient_gen_total (list Q) vsub vhalf R) as [G [-> HG]];
        [rewrite length_map; exact HnT |]
  end.
  cbn [bind]. rewrite length_map in HG.
  destruct (mapM_total (frac_step (lt_t lt) (neg dg)
              (mneg {| shape1 := shape0 (transpose (ec_peaks ec)); mrows := G |}))
              (combine t0 tf)) as [entries [-> Hel]].
  { intros row Hrow. destruct (Hrows row Hrow) as [Hne Hs].
    apply frac_step_total; try assumption.
    - unfold neg. rewrite length_map. unfold shape0 in *. lia.
    - cbn [mneg mrows]. unfold neg. rewrite !length_map. unfold shape0 in *. lia. }
  cbn [bind]. eexists; split; [reflexivity |]. cbn [cont_ptf ind_wgh].
  rewrite !length_map, Hel, length_combine. lia.
Qed.

(** What a successful mapping consists of. *)
Lemma calc_cont_ptf_ok (lt : LaplaceTransform) (ec : EnergyComplex)
    (t0 tf : list Q) (c : cont_result) :
  _calc_cont_ptf lt ec t0 tf = Ok c ->
  exists tot peaks entries,
    thermogram lt ec = Ok tot /\
    peak_thermograms lt ec = Ok peaks /\
    mapM (frac_step (lt_t lt) tot peaks) (combine t0 tf) = Ok entries /\
    c = Cont (map e_ptf entries) (map e_min entries) (map e_max entries)
             (map e_wgh entries).
Proof.
  unfold _calc_cont_ptf, thermogram, peak_thermograms. intros H.
  destruct (column_stack2 t0 tf) as [t |] eqn:Ht; [| discriminate H].
  apply column_stack2_ok in Ht. subst t. cbn [bind] in H.
  destruct (length t0 <? shape1 (ec_peaks ec))%nat; [discriminate H |].
  destruct (inner_mv _ _) as [g |]; [| discriminate H]. cbn [bind] in H |- *.
  destruct (inner_mm _ _) as [gp |]; [| discriminate H]. cbn [bind] in H |- *.
  destruct (gradient g) as [dg |]; [| discriminate H]. cbn [bind] in H |- *.
  destruct (gradient_axis0 gp) as [dgp |]; [| discriminate H]. cbn [bind] in H |- *.
  destruct (mapM _ _) as [entries |] eqn:Hm; [| discriminate H]. cbn [bind] in H.
  injection H as <-. exists (neg dg), (mneg dgp), entries. auto.
Qed.

(** C10: when the mapping returns, every fraction whose combined evolution
    rates are non-negative over its window has its mass-weighted index
    between the first and the last index of that window. *)
Theorem ind_wgh_within_window (lt : LaplaceTransform) (ec : EnergyComplex)
    (t0 tf tot : list Q) (c : cont_result) (i : nat) (row : Q * Q) :
  _calc_cont_ptf lt ec t0 tf = Ok c ->
  thermogram lt ec = Ok tot ->
  nth_error (combine t0 tf) i = Some row ->
  (forall j x, In j (window (lt_t lt) row) -> nth_error tot j = Some x -> 0 <= x) ->
  exists imin imax iwgh,
    nth_error (ind_min c) i = Some imin /\
    nth_error (ind_max c) i = Some imax /\
    nth_error (ind_wgh c) i = Some iwgh /\
    first (window (lt_t lt) row) = Ok imin /\
    last (window (lt_t lt) row) = Ok imax /\
    (Z.of_nat imin <= iwgh <= Z.of_nat imax)%Z.
Proof.
  intros Hc Htot Hrow Hpos.
  destruct (calc_cont_ptf_ok _ _ _ _ _ Hc) as (tot' & peaks & entries & Ht & _ & Hm & ->).
  rewrite Htot in Ht. injection Ht as <-.
  destruct (mapM_nth_error _ _ _ _ _ Hm Hrow) as (e & He & Hstep).
  exists (e_min e), (e_max e), (e_wgh e). simpl.
  repeat split; try (apply map_nth_error; assumption).
  - unfold frac_step in Hstep. repeat bind_ok Hstep. now injection Hstep as <-.
  - unfold frac_step in Hstep. repeat bind_ok Hstep. now injection Hstep as <-.
  - eapply frac_step_wgh_between; eassumption.
  - eapply frac_step_wgh_between; eassumption.
Qed.

Lemma ind_wgh_within_window_witness :
  exists imin imax iwgh,
    nth_error (ind_min sample_cont) 1 = Some imin /\
    nth_error (ind_max sample_cont) 1 = Some imax /\
    nth_error (ind_wgh sample_cont) 1 = Some iwgh /\
    first (window (lt_t sample_lt) (1200, 1800)) = Ok imin /\
    last (window (lt_t sample_lt) (1200, 1800)) = Ok imax /\
    (Z.of_nat imin <= iwgh <= Z.of_nat imax)%Z.
Proof.
  apply (ind_wgh_within_window sample_lt sample_ec sample_t0 sample_tf
           sample_tot sample_cont 1 (1200, 1800)).
  - vm_compute. reflexivity.
  - vm_compute. reflexivity.
  - reflexivity.
  - intros j x Hj Hx.
    assert (Hw : window (lt_t sample_lt) (1200, 1800) = [3; 4]%nat)
      by (vm_compute; reflexivity).
    rewrite Hw in Hj.
    destruct Hj as [<- | [<- | []]]; vm_compute in Hx; injection Hx as <-;
      discriminate.
Defined.

Lemma mapM_nth_error_inv {A B : Type} (f : A -> result B) (l : list A) (bs : list B)
    (i : nat) (b : B) :
  mapM f l = Ok bs -> nth_error bs i = Some b ->
  exists x, nth_error l i = Some x /\ f x = Ok b.
Proof.
  revert bs i; induction l as [| a l IH]; intros bs i H Hi; simpl in H.
  - injection H as <-. destruct i; discriminate Hi.
  - bind_ok H. bind_ok H. injection H as <-.
    destruct i as [| i]; simpl in *.
    + injection Hi as <-. eauto.
    + eapply IH; eauto.
Qed.

(** The loop body: the row it returns adds up to one as soon as the peak
    thermograms add up to the combined one. *)
Lemma frac_step_row_sum (t_tg tot : list Q) (peaks : matrix) (row : Q * Q)
    (e : frac_entry) :
  Forall2 (fun r x => length r = shape1 peaks /\ sum r == x) (mrows peaks) tot ->
  frac_step t_tg tot peaks row = Ok e ->
  sum (e_ptf e) == 1.
Proof.
  intros Hrel H. unfold frac_step in H.
  destruct (first _); [| discriminate H]. cbn [bind] in H.
  destruct (last _); [| discriminate H]. cbn [bind] in H.
  destruct (take tot _) as [w |] eqn:Hw; [| discriminate H]. cbn [bind] in H.
  destruct (average _ w) as [av |] eqn:Hav; [| discriminate H]. cbn [bind] in H.
  destruct (take (mrows peaks) _) as [pk |] eqn:Hpk; [| discriminate H].
  cbn [bind] in H. injection H as <-. cbn [e_ptf].
  unfold average in Hav.
  destruct (Qeq_bool (sum w) 0) eqn:Hz; [discriminate Hav |].
  apply Qeq_bool_neq in Hz.
  pose proof (take_related _ _ _ _ _ _ Hrel Hpk Hw) as Hpw.
  destruct (sum_axis0_rows _ _ _ Hpw) as [_ Hs].
  rewrite sum_map_div, Hs. field. exact Hz.
Qed.

(** C7: when the combined curve is the sum of the peak curves, every row of
    the contribution matrix the mapping returns adds up to one. *)
Theorem cont_ptf_rows_sum_to_one (lt : LaplaceTransform) (ec : EnergyComplex)
    (t0 tf : list Q) (c : cont_result) (i : nat) (r : list Q) :
  wf_matrix (ec_peaks ec) ->
  Forall2 Qeq (ec_phi_hat ec) (map sum (mrows (ec_peaks ec))) ->
  _calc_cont_ptf lt ec t0 tf = Ok c ->
  nth_error (cont_ptf c) i = Some r ->
  sum r == 1.
Proof.
  intros Hwf Hphi Hc Hr.
  destruct (calc_cont_ptf_ok _ _ _ _ _ Hc) as (tot & peaks & entries & Ht & Hp & Hm & ->).
  cbn [cont_ptf] in Hr. rewrite nth_error_map in Hr.
  destruct (nth_error entries i) as [e |] eqn:He; [| discriminate Hr].
  injection Hr as <-.
  destruct (mapM_nth_error_inv _ _ _ _ _ Hm He) as (row & _ & Hstep).
  destruct (peak_thermograms_sum lt ec tot peaks Hwf Hphi Ht Hp) as [Hsh Hrel].
  eapply frac_step_row_sum; [| exact Hstep].
  rewrite Hsh. exact Hrel.
Qed.

Lemma cont_ptf_rows_sum_to_one_witness :
  sum (nth 0 (cont_ptf sample_cont) []) == 1.
Proof.
  apply (cont_ptf_rows_sum_to_one sample_lt sample_ec sample_t0 sample_tf
           sample_cont 0).
  - repeat constructor.
  - repeat constructor.
  - vm_compute. reflexivity.
  - reflexivity.
Defined.

Lemma empty_window_is_fatal_witness :
  exists e,
    _calc_cont_ptf sample_lt_coarse sample_ec [600; 1200] [1200; 1800] = Raise e /\
    IsotopeResult_init no_csv no_rng no_least_squares no_nnls no_norm no_sqrt
      (SumFrame table_full) sample_lt_coarse sample_ec false (1 # 100) false
      = Raise e.
Proof.
  apply (empty_window_is_fatal no_csv no_rng no_least_squares no_nnls
           no_norm no_sqrt (SumFrame table_full) sample_lt_coarse sample_ec false
           (1 # 100) false sample_fractions (1200, 1800)).
  - vm_compute. reflexivity.
  - simpl. right. left. reflexivity.
  - vm_compute. reflexivity.
Defined.

(** On the coarse grid the exception is the [IndexError] of [ind[0]]. *)
Example coarse_grid_index_error :
  _calc_cont_ptf sample_lt_coarse sample_ec [600; 1200] [1200; 1800]
  = Raise IndexError.
Proof. vm_compute. reflexivity. Qed.

End ContFacts.

(** ** isotoperesult.py: runs without noise *)

Module NoiseFacts.
Import Np Isotope Samples.
Import ExtractFacts ContFacts.

Ltac op_compat :=
  let Ha := fresh "Ha" in
  let Hb := fresh "Hb" in
  intros ? ? ? ? Ha Hb; rewrite Ha, Hb; reflexivity.

Lemma Forall2_Qeq_refl (l : list Q) : Forall2 Qeq l l.
Proof. induction l; constructor; [reflexivity | assumption]. Qed.

Lemma zip_with_compat (op : Q -> Q -> Q) (u u' v v' : list Q) :
  (forall a a' b b', a == a' -> b == b' -> op a b == op a' b') ->
  Forall2 Qeq u u' -> Forall2 Qeq v v' ->
  same_outcome (Forall2 Qeq) (zip_with op u v) (zip_with op u' v').
Proof.
  intros Hop Hu. revert v v'.
  induction Hu as [| a a' u u' Ha Hu IH]; intros v v' Hv.
  - inversion Hv; subst; simpl; [constructor | reflexivity].
  - inversion Hv as [| b b' w w' Hb Hw]; subst; simpl; [reflexivity |].
    specialize (IH w w' Hw).
    destruct (zip_with op u w), (zip_with op u' w'); simpl in *;
      try contradiction; [| assumption].
    constructor; [apply Hop; assumption | assumption].
Qed.

Lemma map_Qeq_compat (f : Q -> Q) (u v : list Q) :
  (forall a b, a == b -> f a == f b) ->
  Forall2 Qeq u v -> Forall2 Qeq (map f u) (map f v).
Proof.
  intros Hf; induction 1; simpl; constructor; auto.
Qed.

Lemma map_scale_compat {A : Type} (f : A -> Q) (c c' : Q) (l : list A) :
  c == c' -> Forall2 Qeq (map (fun x => f x * c) l) (map (fun x => f x * c') l).
Proof.
  intros Hc; induction l; simpl; constructor; [now rewrite Hc | assumption].
Qed.

Lemma R13_to_d13C_compat (a b : Q) : a == b -> _R13_to_d13C a == _R13_to_d13C b.
Proof. intros H; unfold _R13_to_d13C. now rewrite H. Qed.

Lemma blank_correct_compat (t0 tf m m' R R' F F' : list Q) :
  Forall2 Qeq m m' -> Forall2 Qeq R R' -> Forall2 Qeq F F' ->
  same_outcome arrays3_equiv
    (_blank_correct t0 tf m R F) (_blank_correct t0 tf m' R' F').
Proof.
  intros Hm HR HF. unfold _blank_correct.
  apply same_outcome_bind_same; intros dt _.
  apply (same_outcome_bind (Forall2 Qeq)).
  { apply zip_with_compat; [op_compat | exact Hm | apply Forall2_Qeq_refl]. }
  intros mc mc' Hmc.
  apply (same_outcome_bind (Forall2 Qeq)).
  { apply zip_with_compat; [op_compat | exact Hm | exact HR]. }
  intros mR mR' HmR.
  apply (same_outcome_bind (Forall2 Qeq)).
  { apply zip_with_compat; [op_compat | exact HmR | apply Forall2_Qeq_refl]. }
  intros nR nR' HnR.
  apply (same_outcome_bind (Forall2 Qeq)).
  { apply zip_with_compat; [op_compat | exact HnR | exact Hmc]. }
  intros Rc Rc' HRc.
  apply (same_outcome_bind (Forall2 Qeq)).
  { apply zip_with_compat; [op_compat | exact Hm | exact HF]. }
  intros mF mF' HmF.
  apply (same_outcome_bind (Forall2 Qeq)).
  { apply zip_with_compat; [op_compat | exact HmF | apply Forall2_Qeq_refl]. }
  intros nF nF' HnF.
  apply (same_outcome_bind (Forall2 Qeq)).
  { apply zip_with_compat; [op_compat | exact HnF | exact Hmc]. }
  intros Fc Fc' HFc.
  simpl. auto.
Qed.

Lemma rows5_compat (a a' b b' c c' d d' e e' : list Q) :
  Forall2 Qeq a a' -> Forall2 Qeq b b' -> Forall2 Qeq c c' ->
  Forall2 Qeq d d' -> Forall2 Qeq e e' ->
  same_outcome (Forall2 row5_equiv) (rows5 a b c d e) (rows5 a' b' c' d' e').
Proof.
  intros Ha. revert b b' c c' d d' e e'.
  induction Ha as [| x x' a a' Hx Ha IH]; intros b b' c c' d d' e e' Hb Hc Hd He;
    inversion Hb as [| y y' ? ? Hy Hb']; inversion Hc as [| z z' ? ? Hz Hc'];
    inversion Hd as [| u u' ? ? Hu Hd']; inversion He as [| v v' ? ? Hv He'];
    subst; simpl; try reflexivity; try constructor.
  specialize (IH _ _ _ _ _ _ _ _ Hb' Hc' Hd' He').
  destruct (rows5 a _ _ _ _), (rows5 a' _ _ _ _); simpl in *;
    try contradiction; [| assumption].
  constructor; [simpl; auto | assumption].
Qed.

Lemma rows3_compat (a a' b b' c c' : list Q) :
  Forall2 Qeq a a' -> Forall2 Qeq b b' -> Forall2 Qeq c c' ->
  same_outcome (Forall2 row3_equiv) (rows3 a b c) (rows3 a' b' c').
Proof.
  intros Ha. revert b b' c c'.
  induction Ha as [| x x' a a' Hx Ha IH]; intros b b' c c' Hb Hc;
    inversion Hb as [| y y' ? ? Hy Hb']; inversion Hc as [| z z' ? ? Hz Hc'];
    subst; simpl; try reflexivity; try constructor.
  specialize (IH _ _ _ _ Hb' Hc').
  destruct (rows3 a _ _), (rows3 a' _ _); simpl in *;
    try contradiction; [| assumption].
  constructor; [simpl; auto | assumption].
Qed.

Lemma rev_compat (u v : list Q) : Forall2 Qeq u v -> Forall2 Qeq (rev u) (rev v).
Proof.
  induction 1 as [| a b u v Hab _ IH]; simpl; [constructor |].
  apply Forall2_app; [exact IH | constructor; [exact Hab | constructor]].
Qed.

Lemma last_compat (u v : list Q) :
  Forall2 Qeq u v -> same_outcome Qeq (last u) (last v).
Proof.
  intros H. apply rev_compat in H. unfold last.
  destruct H; simpl; [reflexivity | assumption].
Qed.

Lemma repeat_last_compat (u v : list Q) (k : Z) :
  Forall2 Qeq u v ->
  same_outcome (Forall2 Qeq) (repeat_last u k) (repeat_last v k).
Proof.
  intros H. unfold repeat_last.
  apply (same_outcome_bind Qeq); [now apply last_compat |].
  intros l l' Hl.
  apply same_outcome_bind_same; intros o _. simpl.
  apply Forall2_app; [exact H |].
  clear - Hl. induction o; simpl; constructor; [now rewrite Hl | assumption].
Qed.

(** The residuals of the ratio fit change with the measured ratios only
    through their values. *)
Lemma R13_diff_compat (r R R' : list Q) (ind : list Z)
    (lt : LaplaceTransform) (ec : EnergyComplex) :
  Forall2 Qeq R R' ->
  same_outcome (Forall2 Qeq) (_R13_diff r R ind lt ec) (_R13_diff r R' ind lt ec).
Proof.
  intros HR. unfold _R13_diff.
  apply same_outcome_bind_same; intros co _.
  apply same_outcome_bind_same; intros at_wgh _.
  apply zip_with_compat; [op_compat | apply Forall2_Qeq_refl | exact HR].
Qed.

Section Collaborators.
(** The solvers and the norm are functions of the numbers they are given:
    on data of equal value they end alike. *)
Variable from_csv : string -> result DataFrame.
Variable least_squares : (list Q -> result (list Q)) -> list Q -> result lsq_result.
Variable nnls : list (list Q) -> list Q -> result (list Q * Q).
Variable norm : list Q -> Q.
Variable sqrt : Q -> Q.

Hypothesis least_squares_compat : forall f g r0,
  (forall r, same_outcome (Forall2 Qeq) (f r) (g r)) ->
  same_outcome lsq_equiv (least_squares f r0) (least_squares g r0).
Hypothesis nnls_compat : forall M b b',
  Forall2 Qeq b b' -> same_outcome nnls_equiv (nnls M b) (nnls M b').
Hypothesis norm_compat : forall u v, Forall2 Qeq u v -> norm u == norm v.

Lemma fit_R13_peak_compat (R R' : list Q) (ind : list Z)
    (lt : LaplaceTransform) (ec : EnergyComplex) :
  Forall2 Qeq R R' ->
  same_outcome fit_equiv
    (_fit_R13_peak least_squares norm sqrt R ind lt ec)
    (_fit_R13_peak least_squares norm sqrt R' ind lt ec).
Proof.
  intros HR. unfold _fit_R13_peak.
  rewrite <- (Forall2_length HR).
  apply (same_outcome_bind lsq_equiv).
  { apply least_squares_compat. intros r. now apply R13_diff_compat. }
  intros res res' (Hx & Hf & Hs).
  apply (same_outcome_bind (Forall2 Qeq)).
  { apply zip_with_compat; [op_compat | exact Hf | exact HR]. }
  intros p p' Hp.
  apply (same_outcome_bind (Forall2 Qeq)).
  { apply zip_with_compat; [op_compat | |];
      apply map_Qeq_compat; try apply R13_to_d13C_compat; assumption. }
  intros d d' Hd. simpl. repeat split.
  - apply map_Qeq_compat; [apply R13_to_d13C_compat | exact Hx].
  - rewrite (norm_compat _ _ Hd). reflexivity.
  - now rewrite Hs.
Qed.

(** What follows the extraction in the constructor depends on the
    fractions only through their values. *)
Lemma init_after_extraction_compat (rng1 rng2 : nat -> Q)
    (sum_data : sum_data_arg) (lt : LaplaceTransform) (ec : EnergyComplex)
    (blank_correct : bool) (mass_rsd : Q) (add_noise : bool) :
  same_outcome fractions_equiv
    (_extract_isotopes from_csv rng1 sum_data mass_rsd add_noise)
    (_extract_isotopes from_csv rng2 sum_data mass_rsd add_noise) ->
  same_outcome IsotopeResult_equiv
    (IsotopeResult_init from_csv rng1 least_squares nnls norm sqrt
       sum_data lt ec blank_correct mass_rsd add_noise)
    (IsotopeResult_init from_csv rng2 least_squares nnls norm sqrt
       sum_data lt ec blank_correct mass_rsd add_noise).
Proof.
  intros Hex. unfold IsotopeResult_init.
  apply (same_outcome_bind fractions_equiv); [exact Hex |].
  intros a b (Ht0 & Htf & Hm & HR & HF).
  rewrite <- Ht0, <- Htf.
  apply (same_outcome_bind arrays3_equiv).
  { destruct blank_correct; [now apply blank_correct_compat | simpl; auto]. }
  intros [[m1 R1] F1] [[m2 R2] F2] (Hm' & HR' & HF').
  cbv beta iota zeta.
  apply (same_outcome_bind (Forall2 row5_equiv)).
  { apply rows5_compat; try apply Forall2_Qeq_refl; try assumption.
    apply map_Qeq_compat; [apply R13_to_d13C_compat | exact HR']. }
  intros fi1 fi2 Hfi.
  apply same_outcome_bind_same; intros c _.
  apply same_outcome_bind_same; intros tg _.
  pose proof (sum_compat _ _ Hm') as Hug.
  apply (same_outcome_bind (Forall2 Qeq)).
  { apply zip_with_compat; [op_compat | | exact Hm'].
    apply (map_scale_compat (fun mm => sum (slice_incl tg (fst mm) (snd mm)))).
    exact Hug. }
  intros dm dm' Hdm.
  apply (same_outcome_bind fit_equiv); [now apply fit_R13_peak_compat |].
  intros [[d1 r1] w1] [[d2 r2] w2] (Hd & Hr & Hw).
  apply (same_outcome_bind nnls_equiv); [now apply nnls_compat |].
  intros [Fp1 s1] [Fp2 s2] [HFp Hs]. simpl in HFp, Hs.
  rewrite !length_map.
  apply (same_outcome_bind (Forall2 Qeq)); [now apply repeat_last_compat |].
  intros dp dp' Hdp.
  apply (same_outcome_bind (Forall2 Qeq)); [now apply repeat_last_compat |].
  intros Fq Fq' HFq.
  apply (same_outcome_bind (Forall2 row3_equiv)).
  { apply rows3_compat; try assumption.
    apply (map_scale_compat (fun a => a)). exact Hug. }
  intros pi1 pi2 Hpi.
  simpl. repeat split; try assumption.
  - rewrite (norm_compat _ _ Hdm). reflexivity.
  - rewrite Hs. reflexivity.
Qed.

(** C9: without noise the perturbations are zero whatever the generator
    draws; two extractions of the same input end alike, and so do two
    constructions of an [IsotopeResult]: the same exception, or the same
    tables, RMSEs and warning, number by number.  With noise, two runs on
    one input can differ. *)
Theorem runs_without_noise_agree (rng1 rng2 : nat -> Q)
    (sum_data : sum_data_arg) (lt : LaplaceTransform) (ec : EnergyComplex)
    (blank_correct : bool) (mass_rsd : Q) :
  (forall nF, exists e0 e1 e2,
      noise rng1 (zeros nF, zeros nF, zeros nF) nF = Ok (e0, e1, e2) /\
      Forall (fun e => e == 0) e0 /\ Forall (fun e => e == 0) e1 /\
      Forall (fun e => e == 0) e2) /\
  same_outcome fractions_equiv
    (_extract_isotopes from_csv rng1 sum_data mass_rsd false)
    (_extract_isotopes from_csv rng2 sum_data mass_rsd false) /\
  same_outcome IsotopeResult_equiv
    (IsotopeResult_init from_csv rng1 least_squares nnls norm sqrt
       sum_data lt ec blank_correct mass_rsd false)
    (IsotopeResult_init from_csv rng2 least_squares nnls norm sqrt
       sum_data lt ec blank_correct mass_rsd false) /\
  (exists rngA rngB df rsd,
      ~ same_outcome fractions_equiv
          (_extract_isotopes from_csv rngA (SumFrame df) rsd true)
          (_extract_isotopes from_csv rngB (SumFrame df) rsd true)).
Proof.
  pose proof (extract_without_noise_deterministic from_csv rng1 rng2 sum_data
                mass_rsd) as [Hnoise Hex].
  split; [exact Hnoise |]. split; [exact Hex |]. split.
  - now apply init_after_extraction_compat.
  - exists no_rng, sample_rng, table_full, (1 # 100).
    vm_compute. intros (_ & _ & Hm & _).
    inversion Hm as [| x y ? ? Hxy _]; subst. discriminate Hxy.
Qed.
End Collaborators.

(** The stand-in solvers are functions of the values they are given. *)
Lemma no_least_squares_compat (f g : list Q -> result (list Q)) (r0 : list Q) :
  (forall r, same_outcome (Forall2 Qeq) (f r) (g r)) ->
  same_outcome lsq_equiv (no_least_squares f r0) (no_least_squares g r0).
Proof.
  intros H. unfold no_least_squares.
  apply (same_outcome_bind (Forall2 Qeq)); [apply H |].
  intros v w Hvw. simpl. repeat split; [apply Forall2_Qeq_refl | exact Hvw].
Qed.

Lemma no_nnls_compat (M : list (list Q)) (b b' : list Q) :
  Forall2 Qeq b b' -> same_outcome nnls_equiv (no_nnls M b) (no_nnls M b').
Proof.
  intros _. simpl. split; [apply Forall2_Qeq_refl | reflexivity].
Qed.

Lemma no_norm_compat (u v : list Q) : Forall2 Qeq u v -> no_norm u == no_norm v.
Proof.
  intros H. unfold no_norm. apply sum_compat.
  induction H as [| a b u v Hab _ IH]; simpl; constructor;
    [now rewrite Hab | exact IH].
Qed.

(** Two constructions on the sample table, one with a generator that draws
    zeros and one with a generator that does not. *)
Lemma runs_without_noise_agree_witness :
  is_ok (IsotopeResult_init no_csv no_rng no_least_squares no_nnls no_norm no_sqrt
           (SumFrame table_full) sample_lt sample_ec true (1 # 100) false) = true /\
  same_outcome IsotopeResult_equiv
    (IsotopeResult_init no_csv no_rng no_least_squares no_nnls no_norm no_sqrt
       (SumFrame table_full) sample_lt sample_ec true (1 # 100) false)
    (IsotopeResult_init no_csv sample_rng no_least_squares no_nnls no_norm no_sqrt
       (SumFrame table_full) sample_lt sample_ec true (1 # 100) false).
Proof.
  split; [vm_compute; reflexivity |].
  apply (runs_without_noise_agree no_csv no_least_squares no_nnls no_norm no_sqrt
           no_least_squares_compat no_nnls_compat no_norm_compat
           no_rng sample_rng (SumFrame table_full) sample_lt sample_ec true
           (1 # 100)).
Defined.

End NoiseFacts.

(** ** core_functions.py: further properties *)

Module CoreMore.
Import Np Core.
Import ContFacts.

(** X1: whatever [assert_len] returns has length [n], and passing the result
    through [assert_len] again returns it unchanged. *)
Theorem assert_len_result (data : pyobj) (n : Z) (a : ndarray) :
  assert_len data n = Ok a ->
  Z.of_nat (arr_len a) = n /\ assert_len (PyArray a) n = Ok a.
Proof.
  intros H.
  assert (Hlen : Z.of_nat (arr_len a) = n).
  { unfold assert_len in H. destruct data; simpl in H; try discriminate H.
    - unfold ones in H. destruct (Z.ltb_spec n 0); [discriminate H |].
      cbn [bind] in H.
      destruct (scalar_times _ _) as [v |] eqn:Hv; [| discriminate H].
      injection H as <-. simpl.
      rewrite (CoreFacts.scalar_times_length _ _ _ Hv), repeat_length. lia.
    - unfold ones in H. destruct (Z.ltb_spec n 0); [discriminate H |].
      cbn [bind] in H.
      destruct (scalar_times _ _) as [v |] eqn:Hv; [| discriminate H].
      injection H as <-. simpl.
      rewrite (CoreFacts.scalar_times_length _ _ _ Hv), repeat_length. lia.
    - destruct (Z.eqb_spec (Z.of_nat (length l)) n); [| discriminate H].
      injection H as <-. assumption.
    - destruct (Z.eqb_spec (Z.of_nat (arr_len a0)) n); [| discriminate H].
      injection H as <-. assumption. }
  split; [exact Hlen |].
  unfold assert_len; simpl. rewrite Hlen, Z.eqb_refl. reflexivity.
Qed.

Lemma assert_len_result_witness :
  Z.of_nat (arr_len (Arr1 [1; 2; 3])) = 3%Z /\
  assert_len (PyArray (Arr1 [1; 2; 3])) 3 = Ok (Arr1 [1; 2; 3]).
Proof.
  apply (assert_len_result (PySeq [1; 2; 3]) 3). reflexivity.
Defined.

(** X2: [derivatize] returns a result only for a numpy-array denominator.
    A list or tuple passes the type check but has no [ndim]: once the
    numerator has been accepted the call ends in [AttributeError]. *)
Theorem derivatize_needs_ndarray (num denom : pyobj) :
  (is_ok (derivatize num denom) = true -> exists d, denom = PyArray d) /\
  (forall l a, denom = PySeq l ->
     assert_len num (Z.of_nat (length l)) = Ok a ->
     derivatize num denom = Raise (AttributeError "ndim")).
Proof.
  split.
  - destruct denom as [z | x | s | l | d | | x]; try (intros H; discriminate H);
      [| eauto].
    unfold derivatize, derivatize_depth, derivatize_body; simpl.
    destruct (assert_len num _); intros H; discriminate H.
  - intros l a -> Ha.
    unfold derivatize, derivatize_depth, derivatize_body; simpl.
    rewrite Ha. reflexivity.
Qed.

Lemma derivatize_needs_ndarray_witness :
  derivatize (PyArray (Arr1 [1; 4; 9])) (PySeq [1; 2; 3])
  = Raise (AttributeError "ndim").
Proof.
  apply (proj2 (derivatize_needs_ndarray (PyArray (Arr1 [1; 4; 9])) (PySeq [1; 2; 3]))
           [1; 2; 3] (Arr1 [1; 4; 9])); reflexivity.
Defined.

(** The call between two one-dimensional arrays, spelled out. *)
Lemma derivatize_1d_unfold (nv dv : list Q) :
  derivatize (PyArray (Arr1 nv)) (PyArray (Arr1 dv)) =
  if negb (Z.of_nat (length nv) =? Z.of_nat (length dv))%Z
  then Raise (LengthError (length nv) (Z.of_nat (length dv)))
  else gn <- gradient nv ;; gd <- gradient dv ;;
       q <- zip_with Qdiv gn gd ;; Ok (Arr1 q).
Proof.
  unfold derivatize, derivatize_depth, derivatize_body, assert_len; simpl.
  destruct (negb _); reflexivity.
Qed.

Lemma gradient_length (a g : list Q) : gradient a = Ok g -> length g = length a.
Proof.
  intros H. destruct a as [| a0 [| a1 rest]]; try discriminate H.
  unfold gradient in H; simpl in H. injection H as <-.
  simpl. now rewrite gradient_from_length.
Qed.

Lemma gradient_total (a : list Q) :
  (2 <= length a)%nat -> exists g, gradient a = Ok g /\ length g = length a.
Proof. apply gradient_gen_total. Qed.

Lemma gradient_short (a : list Q) :
  (length a < 2)%nat -> exists msg, gradient a = Raise (ValueError msg).
Proof.
  intros H. destruct a as [| a0 [| a1 rest]]; simpl in H; try lia;
    eexists; reflexivity.
Qed.

(** X3: between one-dimensional arrays [derivatize] returns an array as long
    as the denominator when the lengths agree and are at least two; unequal
    lengths raise [LengthError], and fewer than two points raise numpy's
    [ValueError]. *)
Theorem derivatize_1d_shape (nv dv : list Q) :
  (length nv = length dv -> (2 <= length dv)%nat ->
     exists q, derivatize (PyArray (Arr1 nv)) (PyArray (Arr1 dv)) = Ok (Arr1 q) /\
               length q = length dv) /\
  (length nv <> length dv ->
     derivatize (PyArray (Arr1 nv)) (PyArray (Arr1 dv))
     = Raise (LengthError (length nv) (Z.of_nat (length dv)))) /\
  (length nv = length dv -> (length dv < 2)%nat ->
     exists msg, derivatize (PyArray (Arr1 nv)) (PyArray (Arr1 dv))
                 = Raise (ValueError msg)).
Proof.
  rewrite derivatize_1d_unfold. repeat split.
  - intros Hl H2. rewrite Hl, Z.eqb_refl. simpl.
    destruct (gradient_total nv) as [gn [-> Hgn]]; [lia |].
    destruct (gradient_total dv) as [gd [-> Hgd]]; [lia |]. cbn [bind].
    destruct (zip_with_total Qdiv gn gd) as [q [-> Hq]]; [lia |].
    exists q. split; [reflexivity | lia].
  - intros Hne.
    destruct (Z.eqb_spec (Z.of_nat (length nv)) (Z.of_nat (length dv))); [lia |].
    reflexivity.
  - intros Hl H2. rewrite Hl, Z.eqb_refl. simpl.
    destruct (gradient_short nv) as [msg ->]; [lia |]. eexists; reflexivity.
Qed.

Lemma derivatize_1d_shape_witness :
  (exists q, derivatize (PyArray (Arr1 [1; 4; 9])) (PyArray (Arr1 [1; 2; 3]))
             = Ok (Arr1 q) /\ length q = 3%nat) /\
  derivatize (PyArray (Arr1 [1; 4])) (PyArray (Arr1 [1; 2; 3]))
  = Raise (LengthError 2 3) /\
  (exists msg, derivatize (PyArray (Arr1 [1])) (PyArray (Arr1 [2]))
               = Raise (ValueError msg)).
Proof.
  split; [| split].
  - apply (proj1 (derivatize_1d_shape [1; 4; 9] [1; 2; 3])); [reflexivity | simpl; lia].
  - apply (proj1 (proj2 (derivatize_1d_shape [1; 4] [1; 2; 3]))). simpl; lia.
  - apply (proj2 (proj2 (derivatize_1d_shape [1] [2]))); [reflexivity | simpl; lia].
Defined.

(** *** Derivatives of affine and constant numerators *)

Lemma gradient_from_affine (a b : Q) (rest : list Q) (prev cur : Q) :
  Forall2 (fun gn g => gn == a * g)
    (gradient_from Q Qminus (fun t => t / 2) (a * prev + b) (a * cur + b)
       (map (fun x => a * x + b) rest))
    (gradient_from Q Qminus (fun t => t / 2) prev cur rest).
Proof.
  revert prev cur; induction rest as [| nxt rest IH]; intros prev cur; simpl.
  - constructor; [ring | constructor].
  - constructor; [field | apply IH].
Qed.

Lemma gradient_affine (a b : Q) (dv gd : list Q) :
  gradient dv = Ok gd ->
  exists gn, gradient (map (fun x => a * x + b) dv) = Ok gn /\
             Forall2 (fun y g => y == a * g) gn gd.
Proof.
  intros H. destruct dv as [| d0 [| d1 rest]]; try discriminate H.
  unfold gradient in *; simpl in *. injection H as <-.
  eexists; split; [reflexivity |].
  constructor; [ring | apply gradient_from_affine].
Qed.

Lemma zip_div_slope (a : Q) (gn gd : list Q) :
  Forall2 (fun y g => y == a * g) gn gd ->
  Forall (fun g => ~ g == 0) gd ->
  exists q, zip_with Qdiv gn gd = Ok q /\ length q = length gd /\
            Forall (fun y => y == a) q.
Proof.
  induction 1 as [| y g gn gd Hy _ IH]; intros Hnz; simpl.
  - exists []. auto.
  - inversion Hnz as [| ? ? Hg Hnz']; subst.
    destruct (IH Hnz') as (q & -> & Hl & Hq). cbn [bind].
    exists (y / g :: q). repeat split; [simpl; lia |].
    constructor; [| exact Hq]. rewrite Hy. field. exact Hg.
Qed.

(** X4: central differences are exact on affine data: when the numerator is
    [a*denom + b], entry by entry, and the denominator's gradient vanishes
    nowhere, every entry of the derivative is the slope [a]. *)
Theorem derivatize_affine (a b : Q) (dv gd : list Q) :
  gradient dv = Ok gd ->
  Forall (fun g => ~ g == 0) gd ->
  exists q,
    derivatize (PyArray (Arr1 (map (fun x => a * x + b) dv))) (PyArray (Arr1 dv))
    = Ok (Arr1 q) /\
    length q = length dv /\ Forall (fun y => y == a) q.
Proof.
  intros Hg Hnz. rewrite derivatize_1d_unfold.
  rewrite length_map, Z.eqb_refl. simpl.
  destruct (gradient_affine a b dv gd Hg) as (gn & -> & Hrel). rewrite Hg.
  cbn [bind].
  destruct (zip_div_slope a gn gd Hrel Hnz) as (q & -> & Hl & Hq).
  exists q. repeat split; [| exact Hq].
  rewrite Hl. now apply gradient_length.
Qed.

Lemma derivatize_affine_witness :
  exists q,
    derivatize (PyArray (Arr1 (map (fun x => 3 * x + 5) [1; 2; 4; 7])))
               (PyArray (Arr1 [1; 2; 4; 7])) = Ok (Arr1 q) /\
    length q = 4%nat /\ Forall (fun y => y == 3) q.
Proof.
  apply (derivatize_affine 3 5 [1; 2; 4; 7]
           [2 - 1; (4 - 1) / 2; (7 - 2) / 2; 7 - 4]).
  - reflexivity.
  - repeat constructor; intro H; discriminate H.
Defined.

Lemma zip_div_slope_at (a : Q) (gn gd : list Q) :
  Forall2 (fun y g => y == a * g) gn gd ->
  exists q, zip_with Qdiv gn gd = Ok q /\ length q = length gd /\
            forall i g, nth_error gd i = Some g -> ~ g == 0 ->
              exists y, nth_error q i = Some y /\ y == a.
Proof.
  induction 1 as [| y g gn gd Hy _ IH]; simpl.
  - exists []. repeat split. intros [| i] g H; discriminate H.
  - destruct IH as (q & -> & Hl & Hq). cbn [bind].
    exists (y / g :: q). repeat split; [simpl; lia |].
    intros [| i] g' Hi Hnz; simpl in Hi.
    + injection Hi as <-. exists (y / g). split; [reflexivity |].
      rewrite Hy. field. exact Hnz.
    + exact (Hq i g' Hi Hnz).
Qed.

(** X5: a scalar numerator that converts to a float is spread into a constant
    array, one entry per entry of the denominator, and its derivative is
    zero at every point where the denominator's gradient does not vanish.
    An int out of the range of floats makes the call raise
    [OverflowError]. *)
Theorem derivatize_scalar_num (num : pyobj) (dv gd : list Q) :
  is_scalar num = true ->
  gradient dv = Ok gd ->
  (forall c, to_float num = Ok c ->
     exists q,
       derivatize num (PyArray (Arr1 dv)) = Ok (Arr1 q) /\
       length q = length dv /\
       forall i g, nth_error gd i = Some g -> ~ g == 0 ->
         exists y, nth_error q i = Some y /\ y == 0) /\
  (to_float num = Raise OverflowError ->
     derivatize num (PyArray (Arr1 dv)) = Raise OverflowError).
Proof.
  intros Hs Hg.
  pose proof (gradient_length _ _ Hg) as Hgl.
  assert (H2 : (2 <= length dv)%nat).
  { destruct dv as [| d0 [| d1 rest]]; try discriminate Hg. simpl. lia. }
  split.
  - intros c Hc.
    set (nv := map (fun one => c * one) (repeat 1 (length dv))).
    assert (Hnum : derivatize num (PyArray (Arr1 dv))
                   = derivatize (PyArray (Arr1 nv)) (PyArray (Arr1 dv))).
    { rewrite derivatize_1d_unfold.
      unfold nv. rewrite length_map, repeat_length, Z.eqb_refl. simpl.
      unfold derivatize, derivatize_depth, derivatize_body; simpl.
      unfold assert_len. rewrite Hs. unfold ones.
      destruct (Z.ltb_spec (Z.of_nat (length dv)) 0); [lia |]. cbn [bind].
      rewrite (CoreFacts.scalar_times_ok _ _ _ Hc). cbn [bind].
      rewrite Nat2Z.id. reflexivity. }
    rewrite Hnum, derivatize_1d_unfold.
    unfold nv at 1. rewrite length_map, repeat_length, Z.eqb_refl. simpl.
    destruct (gradient_total nv) as [gn [Hgn Hgnl]];
      [unfold nv; rewrite length_map, repeat_length; lia |].
    rewrite Hgn, Hg. cbn [bind].
    destruct (gradient_affine 0 c dv gd Hg) as (gn' & Hgn' & Hrel).
    assert (Heq : Forall2 Qeq nv (map (fun x => 0 * x + c) dv)).
    { unfold nv. clear. induction dv as [| d dv IH]; simpl; constructor;
        [ring | exact IH]. }
    pose proof (gradient_compat _ _ _ _ Heq Hgn Hgn') as Hcomp.
    assert (Hrel0 : Forall2 (fun y g => y == 0 * g) gn gd).
    { clear - Hcomp Hrel. revert gd Hrel.
      induction Hcomp as [| x y gn gn' Hxy _ IH]; intros gd Hrel;
        inversion Hrel as [| ? g ? gd' Hyg Hrel']; subst; constructor.
      - rewrite Hxy. exact Hyg.
      - now apply IH. }
    destruct (zip_div_slope_at 0 gn gd Hrel0) as (q & -> & Hl & Hq).
    exists q. repeat split; [lia | exact Hq].
  - intros Hc.
    unfold derivatize, derivatize_depth, derivatize_body; simpl.
    unfold assert_len. rewrite Hs. unfold ones.
    destruct (Z.ltb_spec (Z.of_nat (length dv)) 0); [lia |]. cbn [bind].
    rewrite Nat2Z.id.
    destruct (length dv) as [| k]; [lia |]. simpl repeat.
    rewrite (CoreFacts.scalar_times_raise _ _ _ _ Hc). reflexivity.
Qed.

(** A denominator whose gradient vanishes in the middle: the derivative of
    the constant is zero at both ends. *)
Lemma derivatize_scalar_num_witness :
  (exists q,
     derivatize (PyInt 7) (PyArray (Arr1 [1; 2; 1])) = Ok (Arr1 q) /\
     length q = 3%nat /\
     forall i g, nth_error [2 - 1; (1 - 1) / 2; 1 - 2] i = Some g -> ~ g == 0 ->
       exists y, nth_error q i = Some y /\ y == 0) /\
  derivatize (PyInt (10 ^ 400)) (PyArray (Arr1 [1; 2; 1])) = Raise OverflowError.
Proof.
  destruct (derivatize_scalar_num (PyInt 7) [1; 2; 1] [2 - 1; (1 - 1) / 2; 1 - 2]
              eq_refl eq_refl) as [Hconv _].
  destruct (derivatize_scalar_num (PyInt (10 ^ 400)) [1; 2; 1]
              [2 - 1; (1 - 1) / 2; 1 - 2] eq_refl eq_refl) as [_ Hover].
  split.
  - apply (Hconv 7). reflexivity.
  - apply Hover. vm_compute. reflexivity.
Defined.

(** *** A two-dimensional numerator *)

Lemma mapM_length {A B : Type} (f : A -> result B) (l : list A) (bs : list B) :
  mapM f l = Ok bs -> length bs = length l.
Proof.
  revert bs; induction l as [| a l IH]; intros bs H; simpl in H.
  - now injection H as <-.
  - bind_ok H. bind_ok H. injection H as <-. simpl. f_equal. now apply IH.
Qed.

Lemma nth_of_columns (i : nat) (cols : list (list Q)) (k : nat) :
  nth k (map (fun c => nth i c 0) cols) 0 = nth i (nth k cols []) 0.
Proof.
  revert k; induction cols as [| c cols IH]; intros k; simpl.
  - destruct k, i; reflexivity.
  - destruct k; [reflexivity | apply IH].
Qed.

(** Stacking columns and reading column [k] back gives the [k]-th one. *)
Lemma column_of_stack (cols : list (list Q)) (n k : nat) (q : list Q) :
  nth_error cols k = Some q -> length q = n ->
  column k (transpose (Mat n cols)) = q.
Proof.
  intros Hk Hq. unfold column, transpose; cbn [mrows shape1].
  rewrite map_map. unfold column; cbn [mrows].
  rewrite <- Hq.
  rewrite <- (nth_seq_row q) at 2.
  apply map_ext. intros i. rewrite nth_of_columns.
  now rewrite (nth_error_nth _ _ _ Hk).
Qed.

Lemma column_stack_ok (cols : list (list Q)) (r : ndarray) :
  column_stack cols = Ok r ->
  exists c, hd_error cols = Some c /\
            Forall (fun c' => length c' = length c) cols /\
            r = Arr2 (transpose (Mat (length c) cols)).
Proof.
  unfold column_stack. destruct cols as [| c cols']; [discriminate |].
  destruct (forallb _ _) eqn:Hall; [| discriminate].
  intros H. injection H as <-. exists c. repeat split.
  apply Forall_forall. intros c' Hc'.
  rewrite forallb_forall in Hall. apply Nat.eqb_eq. now apply Hall.
Qed.

(** X6: with a two-dimensional numerator and a one-dimensional denominator
    the derivative is taken column by column: the result has the
    numerator's shape, and its column [k] is the derivative of the
    numerator's column [k]. *)
Theorem derivatize_columnwise (nm : matrix) (dv : list Q) (r : ndarray) :
  derivatize (PyArray (Arr2 nm)) (PyArray (Arr1 dv)) = Ok r ->
  exists M, r = Arr2 M /\
    shape0 M = length dv /\ shape1 M = shape1 nm /\
    forall k, (k < shape1 nm)%nat ->
      derivatize (PyArray (Arr1 (column k nm))) (PyArray (Arr1 dv))
      = Ok (Arr1 (column k M)).
Proof.
  unfold derivatize at 1. cbn [derivatize_depth]. unfold derivatize_body at 1.
  simpl. unfold assert_len; simpl.
  destruct (negb _) eqn:Hlen; [discriminate |]. cbn [bind].
  rewrite (CoreFacts.mapM_ext _
             (fun col => q <- derivatize (PyArray (Arr1 col)) (PyArray (Arr1 dv)) ;;
                         as_1d q)).
  2:{ intros col. unfold derivatize. cbn [derivatize_depth].
      now rewrite (CoreFacts.derivatize_body_1d _ (derivatize_depth 1)). }
  intros H.
  destruct (mapM _ _) as [col_der |] eqn:Hm; [| discriminate H]. cbn [bind] in H.
  destruct (column_stack_ok _ _ H) as (c & Hc & Hall & ->).
  pose proof (mapM_length _ _ _ Hm) as Hcl.
  rewrite length_map, length_seq in Hcl.
  (* every stacked column is a derivative, as long as the denominator *)
  assert (Hcols : forall k q, nth_error col_der k = Some q ->
            derivatize (PyArray (Arr1 (column k nm))) (PyArray (Arr1 dv))
            = Ok (Arr1 q) /\ length q = length dv).
  { intros k q Hq.
    assert (Hk : (k < shape1 nm)%nat).
    { rewrite <- Hcl. apply nth_error_Some. congruence. }
    assert (Hin : nth_error (map (fun j => column j nm) (seq 0 (shape1 nm))) k
                  = Some (column k nm)).
    { rewrite nth_error_map, nth_error_seq.
      destruct (Nat.ltb_spec k (shape1 nm)); [reflexivity | lia]. }
    destruct (mapM_nth_error _ _ _ _ _ Hm Hin) as (b & Hb & Hf).
    rewrite Hq in Hb. injection Hb as <-.
    destruct (derivatize _ _) as [res |] eqn:Hd; [| discriminate Hf].
    cbn [bind] in Hf. destruct res as [v | ?]; [| discriminate Hf].
    injection Hf as ->. split; [reflexivity |].
    rewrite derivatize_1d_unfold in Hd.
    repeat bind_ok Hd. injection Hd as <-.
    match goal with
    | Hz : zip_with _ _ _ = Ok _ |- _ => apply zip_with_length in Hz; destruct Hz
    end.
    match goal with
    | Hg : gradient dv = Ok _ |- _ => apply gradient_length in Hg
    end. lia. }
  assert (Hclen : length c = length dv).
  { destruct col_der as [| c0 rest]; [discriminate Hc |].
    injection Hc as ->. apply (Hcols 0%nat c). reflexivity. }
  eexists; split; [reflexivity |]. repeat split.
  - unfold transpose, shape0; cbn. now rewrite length_map, length_seq.
  - unfold transpose, shape0; cbn. exact Hcl.
  - intros k Hk.
    destruct (nth_error col_der k) as [q |] eqn:Hq.
    2:{ apply nth_error_None in Hq. lia. }
    destruct (Hcols k q Hq) as [Hd Hql].
    rewrite (column_of_stack col_der (length c) k q Hq); [exact Hd | lia].
Qed.

Lemma derivatize_columnwise_witness :
  exists M, Arr2 (Mat 2 [[3; 2]; [12 # 4; 16 # 4]; [3; 6]]) = Arr2 M /\
    shape0 M = 3%nat /\ shape1 M = 2%nat /\
    forall k, (k < 2)%nat ->
      derivatize (PyArray (Arr1 (column k (Mat 2 [[1; 1]; [4; 3]; [7; 9]]))))
                 (PyArray (Arr1 [1; 2; 3]))
      = Ok (Arr1 (column k M)).
Proof.
  apply (derivatize_columnwise (Mat 2 [[1; 1]; [4; 3]; [7; 9]]) [1; 2; 3]).
  vm_compute. reflexivity.
Defined.

(** *** Moments of a distribution *)

Lemma zip_mult_dot (y g yg : list Q) :
  zip_with Qmult y g = Ok yg -> sum yg == dot y g.
Proof.
  revert g yg; induction y as [| b y IH]; intros [| c g] yg H; simpl in H;
    try discriminate H.
  - injection H as <-. reflexivity.
  - bind_ok H. injection H as <-. unfold dot in *; simpl.
    rewrite (IH _ _ E). reflexivity.
Qed.

Lemma zip_mult_wsum3 (s : Q) (u y g p w : list Q) :
  zip_with Qmult u y = Ok p ->
  zip_with Qmult (map (fun a => a * s) p) g = Ok w ->
  sum w == s * wsum3 u y g.
Proof.
  revert y g p w; induction u as [| a u IH]; intros [| b y] g p w Hp Hw;
    simpl in Hp; try discriminate Hp.
  - injection Hp as <-. destruct g; simpl in Hw; [| discriminate Hw].
    injection Hw as <-. simpl. ring.
  - bind_ok Hp. injection Hp as <-. simpl in Hw.
    destruct g as [| c g]; [discriminate Hw |].
    bind_ok Hw. injection Hw as <-. simpl.
    rewrite (IH _ _ _ _ E E0). ring.
Qed.

(** [extract_moments] on one-dimensional data of one length, in closed
    form: the mean is [sum(x*y*dx)/sum(y*dx)] and the value handed to the
    square root is [sum((x-mu)^2*y*dx)/sum(y*dx)]. *)
Lemma extract_moments_1d (sqrt : Q -> Q) (x y gx : list Q) :
  length y = length x ->
  gradient x = Ok gx ->
  exists mu sigsq,
    extract_moments sqrt x (PyArray (Arr1 y)) = Ok (mu, sqrt sigsq) /\
    mu == wsum3 x y gx / dot y gx /\
    sigsq == wsum3 (map (fun a => (a - mu) * (a - mu)) x) y gx / dot y gx.
Proof.
  intros Hl Hg. pose proof (gradient_length _ _ Hg) as Hgl.
  unfold extract_moments, assert_len; simpl.
  rewrite Hl, Z.eqb_refl. simpl. rewrite Hg. cbn [bind].
  destruct (zip_with_total Qmult y gx) as [yg [Hyg Hygl]]; [lia |].
  rewrite Hyg. cbn [bind].
  destruct (zip_with_total Qmult x y) as [xy [Hxy Hxyl]]; [lia |].
  rewrite Hxy. cbn [bind].
  destruct (zip_with_total Qmult (map (fun a => a * (1 / sum yg)) xy) gx)
    as [w [Hw _]]; [rewrite length_map; lia |].
  rewrite Hw. cbn [bind].
  set (mu := sum w).
  destruct (zip_with_total Qmult (map (fun a => (a - mu) * (a - mu)) x) y)
    as [dy [Hdy Hdyl]]; [rewrite length_map; lia |].
  rewrite Hdy. cbn [bind].
  destruct (zip_with_total Qmult (map (fun a => a * (1 / sum yg)) dy) gx)
    as [v [Hv _]]; [rewrite length_map in *; lia |].
  rewrite Hv. cbn [bind].
  exists mu, (sum v). split; [reflexivity |].
  pose proof (zip_mult_dot _ _ _ Hyg) as Hd.
  split.
  - unfold mu. rewrite (zip_mult_wsum3 _ _ _ _ _ _ Hxy Hw), Hd.
    unfold Qdiv. ring.
  - rewrite (zip_mult_wsum3 _ _ _ _ _ _ Hdy Hv), Hd. unfold Qdiv. ring.
Qed.

Lemma extract_moments_lengths (sqrt : Q -> Q) (x y : list Q) (r : Q * Q) :
  extract_moments sqrt x (PyArray (Arr1 y)) = Ok r ->
  length y = length x /\ exists gx, gradient x = Ok gx.
Proof.
  unfold extract_moments, assert_len; simpl. intros H.
  destruct (Z.eqb_spec (Z.of_nat (length y)) (Z.of_nat (length x))) as [He |];
    [| discriminate H].
  simpl in H. destruct (gradient x) as [gx |]; [| discriminate H].
  split; [lia | eauto].
Qed.

Lemma wsum3_compat_l (u u' y g : list Q) :
  Forall2 Qeq u u' -> wsum3 u y g == wsum3 u' y g.
Proof.
  intros H; revert y g; induction H as [| a a' u u' Ha _ IH]; intros y g.
  - reflexivity.
  - destruct y as [| b y], g as [| c g]; simpl; try reflexivity.
    rewrite Ha, (IH y g). reflexivity.
Qed.

Lemma wsum3_scale_y (c : Q) (u y g : list Q) :
  wsum3 u (map (Qmult c) y) g == c * wsum3 u y g.
Proof.
  revert y g; induction u as [| a u IH]; intros [| b y] [| e g]; simpl;
    try ring.
  rewrite IH. ring.
Qed.

Lemma dot_scale_l (c : Q) (y g : list Q) :
  dot (map (Qmult c) y) g == c * dot y g.
Proof.
  unfold dot. revert g; induction y as [| b y IH]; intros [| e g]; simpl;
    try ring.
  rewrite IH. ring.
Qed.

Lemma sq_compat (mu mu' : Q) (x : list Q) :
  mu == mu' ->
  Forall2 Qeq (map (fun a => (a - mu) * (a - mu)) x)
              (map (fun a => (a - mu') * (a - mu')) x).
Proof.
  intros H; induction x as [| a x IH]; simpl; constructor; [| exact IH].
  rewrite H. reflexivity.
Qed.

(** X7: the moments do not depend on the normalisation of the density:
    multiplying [y] by a nonzero constant leaves the mean and the standard
    deviation unchanged, provided the total weight [sum(y*dx)] is not
    zero. *)
Theorem extract_moments_scale_invariant (sqrt : Q -> Q) (c : Q)
    (x y gx : list Q) (mu sigma : Q) :
  (forall a b, a == b -> sqrt a == sqrt b) ->
  gradient x = Ok gx ->
  ~ dot y gx == 0 ->
  ~ c == 0 ->
  extract_moments sqrt x (PyArray (Arr1 y)) = Ok (mu, sigma) ->
  exists mu' sigma',
    extract_moments sqrt x (PyArray (Arr1 (map (Qmult c) y))) = Ok (mu', sigma') /\
    mu' == mu /\ sigma' == sigma.
Proof.
  intros Hsqrt Hg Hd Hc H.
  destruct (extract_moments_lengths _ _ _ _ H) as [Hl _].
  destruct (extract_moments_1d sqrt x y gx Hl Hg) as (m1 & s1 & H1 & Hm1 & Hs1).
  rewrite H1 in H. injection H as <- <-.
  destruct (extract_moments_1d sqrt x (map (Qmult c) y) gx) as (m2 & s2 & H2 & Hm2 & Hs2);
    [rewrite length_map; exact Hl | exact Hg |].
  exists m2, (sqrt s2). split; [exact H2 |].
  assert (Hmu : m2 == m1).
  { rewrite Hm2, Hm1, wsum3_scale_y, dot_scale_l. field. split; assumption. }
  split; [exact Hmu |].
  apply Hsqrt. rewrite Hs2, Hs1, wsum3_scale_y, dot_scale_l.
  rewrite (wsum3_compat_l _ _ y gx (sq_compat m2 m1 x Hmu)).
  field. split; assumption.
Qed.

Lemma extract_moments_scale_invariant_witness :
  exists mu' sigma',
    extract_moments (fun v => v) Samples.sample_x
      (PyArray (Arr1 (map (Qmult 5) Samples.sample_y))) = Ok (mu', sigma') /\
    mu' == fst Samples.sample_moments /\ sigma' == snd Samples.sample_moments.
Proof.
  apply (extract_moments_scale_invariant (fun v => v) 5 Samples.sample_x
           Samples.sample_y [1 - 0; (2 - 0) / 2; 2 - 1]).
  - intros a b H. exact H.
  - reflexivity.
  - intro H. discriminate H.
  - intro H. discriminate H.
  - vm_compute. reflexivity.
Defined.

Lemma dot_cons (b c : Q) (y g : list Q) : dot (b :: y) (c :: g) == b * c + dot y g.
Proof. unfold dot; simpl. reflexivity. Qed.

Lemma wsum3_bounds (lo hi : Q) (u y g : list Q) :
  Forall (fun a => lo <= a <= hi) u ->
  Forall (fun b => 0 <= b) y -> Forall (fun c => 0 <= c) g ->
  length y = length u -> length g = length u ->
  lo * dot y g <= wsum3 u y g <= hi * dot y g.
Proof.
  intros Hu; revert y g; induction Hu as [| a u [Hlo Hhi] _ IH];
    intros [| b y] [| c g] Hy Hg Hly Hlg; simpl in *; try discriminate.
  - unfold dot; simpl. lra.
  - inversion Hy as [| ? ? Hb Hy']; inversion Hg as [| ? ? Hc Hg']; subst.
    destruct (IH y g Hy' Hg') as [IHl IHh]; try lia.
    rewrite dot_cons.
    assert (Hbc : 0 <= b * c) by (apply Qmult_le_0_compat; assumption).
    assert (H1 : lo * (b * c) <= a * (b * c)) by (apply Qmult_le_compat_r; assumption).
    assert (H2 : a * (b * c) <= hi * (b * c)) by (apply Qmult_le_compat_r; assumption).
    split; lra.
Qed.

Lemma wsum3_nonneg (u y g : list Q) :
  Forall (fun a => 0 <= a) u ->
  Forall (fun b => 0 <= b) y -> Forall (fun c => 0 <= c) g ->
  0 <= wsum3 u y g.
Proof.
  intros Hu; revert y g; induction Hu as [| a u Ha _ IH];
    intros [| b y] [| c g] Hy Hg; simpl; try apply Qle_refl.
  inversion Hy as [| ? ? Hb Hy']; inversion Hg as [| ? ? Hc Hg']; subst.
  specialize (IH y g Hy' Hg').
  assert (0 <= a * b * c) by (repeat apply Qmult_le_0_compat; assumption).
  lra.
Qed.

(** X8: for a non-negative density over non-decreasing points (gradient of
    [x] non-negative) with positive total weight, the mean returned lies
    between any two bounds that enclose every point of [x]. *)
Theorem extract_moments_mean_within (sqrt : Q -> Q) (lo hi : Q)
    (x y gx : list Q) (mu sigma : Q) :
  gradient x = Ok gx ->
  Forall (fun c => 0 <= c) gx ->
  Forall (fun b => 0 <= b) y ->
  0 < dot y gx ->
  Forall (fun a => lo <= a <= hi) x ->
  extract_moments sqrt x (PyArray (Arr1 y)) = Ok (mu, sigma) ->
  lo <= mu <= hi.
Proof.
  intros Hg Hgx Hy Hd Hx H.
  destruct (extract_moments_lengths _ _ _ _ H) as [Hl _].
  destruct (extract_moments_1d sqrt x y gx Hl Hg) as (m1 & s1 & H1 & Hm1 & _).
  rewrite H1 in H. injection H as <- _.
  destruct (wsum3_bounds lo hi x y gx Hx Hy Hgx Hl) as [Hlo Hhi];
    [now apply gradient_length |].
  rewrite Hm1. split.
  - apply Qle_shift_div_l; assumption.
  - apply Qle_shift_div_r; assumption.
Qed.

Lemma extract_moments_mean_within_witness :
  0 <= fst Samples.sample_moments <= 2.
Proof.
  apply (extract_moments_mean_within (fun v => v) 0 2 Samples.sample_x
           Samples.sample_y [1 - 0; (2 - 0) / 2; 2 - 1]
           (fst Samples.sample_moments) (snd Samples.sample_moments)).
  - reflexivity.
  - repeat constructor; discriminate.
  - repeat constructor; discriminate.
  - reflexivity.
  - repeat constructor; discriminate.
  - vm_compute. reflexivity.
Defined.

Lemma Qsquare_nonneg (t : Q) : 0 <= t * t.
Proof.
  unfold Qle, Qmult; simpl. rewrite Z.mul_1_r. apply Z.square_nonneg.
Qed.

Lemma Forall_squares (mu : Q) (x : list Q) :
  Forall (fun a => 0 <= a) (map (fun a => (a - mu) * (a - mu)) x).
Proof.
  induction x as [| a x IH]; simpl; constructor; [| exact IH].
  apply Qsquare_nonneg.
Qed.

(** X9: under the same conditions the value handed to the square root, the
    variance, is never negative. *)
Theorem extract_moments_variance_nonneg (sqrt : Q -> Q)
    (x y gx : list Q) (mu sigma : Q) :
  gradient x = Ok gx ->
  Forall (fun c => 0 <= c) gx ->
  Forall (fun b => 0 <= b) y ->
  0 < dot y gx ->
  extract_moments sqrt x (PyArray (Arr1 y)) = Ok (mu, sigma) ->
  exists sigsq, sigma = sqrt sigsq /\ 0 <= sigsq.
Proof.
  intros Hg Hgx Hy Hd H.
  destruct (extract_moments_lengths _ _ _ _ H) as [Hl _].
  destruct (extract_moments_1d sqrt x y gx Hl Hg) as (m1 & s1 & H1 & _ & Hs1).
  rewrite H1 in H. injection H as <- <-.
  exists s1. split; [reflexivity |].
  rewrite Hs1. apply Qle_shift_div_l; [exact Hd |].
  pose proof (wsum3_nonneg _ y gx (Forall_squares m1 x) Hy Hgx). lra.
Qed.

Lemma extract_moments_variance_nonneg_witness :
  exists sigsq, snd Samples.sample_moments = (fun v => v) sigsq /\ 0 <= sigsq.
Proof.
  apply (extract_moments_variance_nonneg (fun v => v) Samples.sample_x
           Samples.sample_y [1 - 0; (2 - 0) / 2; 2 - 1]
           (fst Samples.sample_moments)).
  - reflexivity.
  - repeat constructor; discriminate.
  - repeat constructor; discriminate.
  - reflexivity.
  - vm_compute. reflexivity.
Defined.

(** X10: [y] is checked against [x] before any arithmetic: a string raises
    [ArrayError], an array of another length raises [LengthError], and with
    fitting [y] fewer than two points raise numpy's [ValueError]. *)
Theorem extract_moments_errors (sqrt : Q -> Q) (x y : list Q) :
  (forall s, exists msg,
      extract_moments sqrt x (PyStr s) = Raise (ArrayError msg)) /\
  (length y <> length x ->
     extract_moments sqrt x (PyArray (Arr1 y))
     = Raise (LengthError (length y) (Z.of_nat (length x)))) /\
  (length y = length x -> (length x < 2)%nat ->
     exists msg, extract_moments sqrt x (PyArray (Arr1 y)) = Raise (ValueError msg)).
Proof.
  repeat split.
  - intros s. eexists. reflexivity.
  - intros Hne. unfold extract_moments, assert_len; simpl.
    destruct (Z.eqb_spec (Z.of_nat (length y)) (Z.of_nat (length x))); [lia |].
    reflexivity.
  - intros Hl H2. unfold extract_moments, assert_len; simpl.
    rewrite Hl, Z.eqb_refl. simpl.
    destruct (gradient_short x H2) as [msg ->]. eexists; reflexivity.
Qed.

Lemma extract_moments_errors_witness :
  extract_moments (fun v => v) [0; 1; 2] (PyArray (Arr1 [1; 2]))
  = Raise (LengthError 2 3) /\
  (exists msg, extract_moments (fun v => v) [5] (PyArray (Arr1 [1]))
               = Raise (ValueError msg)).
Proof.
  split.
  - apply (proj1 (proj2 (extract_moments_errors (fun v => v) [0; 1; 2] [1; 2]))).
    simpl; lia.
  - apply (proj2 (proj2 (extract_moments_errors (fun v => v) [5] [1])));
      [reflexivity | simpl; lia].
Defined.

Lemma gradient_from_shift (d : Q) (rest : list Q) (prev cur : Q) :
  Forall2 Qeq
    (gradient_from Q Qminus (fun t => t / 2) (prev + d) (cur + d)
       (map (fun a => a + d) rest))
    (gradient_from Q Qminus (fun t => t / 2) prev cur rest).
Proof.
  revert prev cur; induction rest as [| nxt rest IH]; intros prev cur; simpl.
  - constructor; [ring | constructor].
  - constructor; [field | apply IH].
Qed.

Lemma gradient_shift (d : Q) (x gx : list Q) :
  gradient x = Ok gx ->
  exists gx', gradient (map (fun a => a + d) x) = Ok gx' /\ Forall2 Qeq gx' gx.
Proof.
  intros H. destruct x as [| x0 [| x1 rest]]; try discriminate H.
  unfold gradient in *; simpl in *. injection H as <-.
  eexists; split; [reflexivity |].
  constructor; [ring | apply gradient_from_shift].
Qed.

Lemma wsum3_compat_g (u y g g' : list Q) :
  Forall2 Qeq g g' -> wsum3 u y g == wsum3 u y g'.
Proof.
  intros H; revert u y; induction H as [| c c' g g' Hc _ IH]; intros u y.
  - destruct u, y; reflexivity.
  - destruct u as [| a u], y as [| b y]; simpl; try reflexivity.
    rewrite Hc, (IH u y). reflexivity.
Qed.

Lemma wsum3_shift (d : Q) (u y g : list Q) :
  length y = length u -> length g = length u ->
  wsum3 (map (fun a => a + d) u) y g == wsum3 u y g + d * dot y g.
Proof.
  revert y g; induction u as [| a u IH]; intros [| b y] [| c g] Hy Hg;
    simpl in *; try discriminate.
  - unfold dot; simpl. ring.
  - rewrite dot_cons, IH by lia. ring.
Qed.

(** X11: shifting every point of [x] by [d] shifts the mean by [d] and
    leaves the standard deviation unchanged, provided the total weight is
    not zero. *)
Theorem extract_moments_shift (sqrt : Q -> Q) (d : Q)
    (x y gx : list Q) (mu sigma : Q) :
  (forall a b, a == b -> sqrt a == sqrt b) ->
  gradient x = Ok gx ->
  ~ dot y gx == 0 ->
  extract_moments sqrt x (PyArray (Arr1 y)) = Ok (mu, sigma) ->
  exists mu' sigma',
    extract_moments sqrt (map (fun a => a + d) x) (PyArray (Arr1 y))
    = Ok (mu', sigma') /\
    mu' == mu + d /\ sigma' == sigma.
Proof.
  intros Hsqrt Hg Hd H.
  destruct (extract_moments_lengths _ _ _ _ H) as [Hl _].
  pose proof (gradient_length _ _ Hg) as Hgl.
  destruct (extract_moments_1d sqrt x y gx Hl Hg) as (m1 & s1 & H1 & Hm1 & Hs1).
  rewrite H1 in H. injection H as <- <-.
  destruct (gradient_shift d x gx Hg) as (gx' & Hg' & Hgg).
  destruct (extract_moments_1d sqrt (map (fun a => a + d) x) y gx')
    as (m2 & s2 & H2 & Hm2 & Hs2);
    [rewrite length_map; exact Hl | exact Hg' |].
  exists m2, (sqrt s2). split; [exact H2 |].
  assert (Hdot : dot y gx' == dot y gx) by now apply dot_compat_r.
  assert (Hmu : m2 == m1 + d).
  { rewrite Hm2, Hm1, Hdot, (wsum3_compat_g _ y gx' gx Hgg), wsum3_shift by lia.
    field. exact Hd. }
  split; [exact Hmu |].
  apply Hsqrt. rewrite Hs2, Hs1, Hdot, (wsum3_compat_g _ y gx' gx Hgg).
  assert (Hsq : Forall2 Qeq
            (map (fun a => (a - m2) * (a - m2)) (map (fun a => a + d) x))
            (map (fun a => (a - m1) * (a - m1)) x)).
  { rewrite map_map. clear - Hmu. induction x as [| a x IH]; simpl; constructor;
      [rewrite Hmu; ring | exact IH]. }
  rewrite (wsum3_compat_l _ _ y gx Hsq). reflexivity.
Qed.

Lemma extract_moments_shift_witness :
  exists mu' sigma',
    extract_moments (fun v => v) (map (fun a => a + 10) Samples.sample_x)
      (PyArray (Arr1 Samples.sample_y)) = Ok (mu', sigma') /\
    mu' == fst Samples.sample_moments + 10 /\ sigma' == snd Samples.sample_moments.
Proof.
  apply (extract_moments_shift (fun v => v) 10 Samples.sample_x
           Samples.sample_y [1 - 0; (2 - 0) / 2; 2 - 1]).
  - intros a b H. exact H.
  - reflexivity.
  - intro H. discriminate H.
  - vm_compute. reflexivity.
Defined.

End CoreMore.

(** ** isotoperesult.py: further properties *)

Module IsotopeMore.
Import Np Isotope Samples.
Import ContFacts.

(** X12: both conversions preserve order, and the VPDB standard sits at
    zero per mille. *)
Theorem conversions_monotone (a b : Q) :
  (a <= b <-> _d13C_to_R13 a <= _d13C_to_R13 b) /\
  (a <= b <-> _R13_to_d13C a <= _R13_to_d13C b) /\
  _d13C_to_R13 0 == Rpdb /\ _R13_to_d13C Rpdb == 0.
Proof.
  unfold _d13C_to_R13, _R13_to_d13C, Rpdb, Qdiv.
  assert (H1 : / 1000 == 1 # 1000) by reflexivity.
  assert (H2 : / (11237 # 1000000) == 1000000 # 11237) by reflexivity.
  rewrite !H1, !H2.
  repeat split; try (intros H; lra); ring.
Qed.

(** *** Blank correction *)

Lemma zip_with_nth op (u v r : list Q) (i : nat) (a b : Q) :
  zip_with op u v = Ok r ->
  nth_error u i = Some a -> nth_error v i = Some b ->
  nth_error r i = Some (op a b).
Proof.
  revert v r i; induction u as [| x u IH]; intros [| y v] r i H Ha Hb;
    simpl in H; try discriminate H.
  - destruct i; discriminate Ha.
  - bind_ok H. injection H as <-.
    destruct i as [| i]; simpl in *.
    + injection Ha as <-. injection Hb as <-. reflexivity.
    + eapply IH; eassumption.
Qed.

Lemma zip_with_nth_inv op (u v r : list Q) (i : nat) (o : Q) :
  zip_with op u v = Ok r -> nth_error r i = Some o ->
  exists a b, nth_error u i = Some a /\ nth_error v i = Some b /\ o = op a b.
Proof.
  revert v r i; induction u as [| x u IH]; intros [| y v] r i H Ho;
    simpl in H; try discriminate H.
  - injection H as <-. destruct i; discriminate Ho.
  - bind_ok H. injection H as <-.
    destruct i as [| i]; simpl in *.
    + injection Ho as <-. eauto.
    + eapply IH; eassumption.
Qed.

(** X13: blank correction, fraction by fraction: the corrected mass is the
    measured mass less [bl_flux*(tf - t0)], and where it is not zero the
    corrected ratio and Fm balance the measured ones against the blank:
    [m_corr*R_corr + m_blank*R_blank = m*R], and likewise for Fm. *)
Theorem blank_correct_mass_balance
    (t0 tf m R F m' R' F' : list Q) (i : nat) (t0i tfi mi Ri Fi : Q) :
  _blank_correct t0 tf m R F = Ok (m', R', F') ->
  nth_error t0 i = Some t0i -> nth_error tf i = Some tfi ->
  nth_error m i = Some mi -> nth_error R i = Some Ri -> nth_error F i = Some Fi ->
  exists mc Rc Fc,
    nth_error m' i = Some mc /\ nth_error R' i = Some Rc /\
    nth_error F' i = Some Fc /\
    mc == mi - bl_flux * (tfi - t0i) /\
    (~ mc == 0 ->
       mc * Rc + bl_flux * (tfi - t0i) * bl_R13 == mi * Ri /\
       mc * Fc + bl_flux * (tfi - t0i) * bl_Fm == mi * Fi).
Proof.
  unfold _blank_correct. intros H H0 Hf Hm HR HF.
  repeat bind_ok H. injection H as <- <- <-.
  pose proof (zip_with_nth _ _ _ _ i _ _ E Hf H0) as Hdt.
  pose proof (map_nth_error (fun d => bl_flux * d) i a Hdt) as Hbl.
  pose proof (zip_with_nth _ _ _ _ i _ _ E0 Hm Hbl) as Hmc.
  pose proof (zip_with_nth _ _ _ _ i _ _ E1 Hm HR) as HmR.
  pose proof (map_nth_error (fun b => b * bl_R13) i _ Hbl) as HblR.
  pose proof (zip_with_nth _ _ _ _ i _ _ E2 HmR HblR) as HnR.
  pose proof (zip_with_nth _ _ _ _ i _ _ E3 HnR Hmc) as HRc.
  pose proof (zip_with_nth _ _ _ _ i _ _ E4 Hm HF) as HmF.
  pose proof (map_nth_error (fun b => b * bl_Fm) i _ Hbl) as HblF.
  pose proof (zip_with_nth _ _ _ _ i _ _ E5 HmF HblF) as HnF.
  pose proof (zip_with_nth _ _ _ _ i _ _ E6 HnF Hmc) as HFc.
  do 3 eexists.
  split; [eassumption |]. split; [eassumption |]. split; [eassumption |].
  split; [reflexivity |].
  intros Hnz. split; field; assumption.
Qed.

Lemma blank_correct_mass_balance_witness :
  exists mc Rc Fc,
    nth_error [100 - bl_flux * (1200 - 600)] 0 = Some mc /\
    nth_error [(100 * (1 # 100) - bl_flux * (1200 - 600) * bl_R13)
               / (100 - bl_flux * (1200 - 600))] 0 = Some Rc /\
    nth_error [(100 * 1 - bl_flux * (1200 - 600) * bl_Fm)
               / (100 - bl_flux * (1200 - 600))] 0 = Some Fc /\
    mc == 100 - bl_flux * (1200 - 600) /\
    (~ mc == 0 ->
       mc * Rc + bl_flux * (1200 - 600) * bl_R13 == 100 * (1 # 100) /\
       mc * Fc + bl_flux * (1200 - 600) * bl_Fm == 100 * 1).
Proof.
  apply (blank_correct_mass_balance [600] [1200] [100] [1 # 100] [1]
           _ _ _ 0 600 1200 100 (1 # 100) 1); reflexivity.
Defined.

(** *** What an extraction returns *)

(** A successful extraction, taken apart. *)
Lemma extract_ok_parts from_csv rng sum_data mass_rsd add_noise fr :
  _extract_isotopes from_csv rng sum_data mass_rsd add_noise = Ok fr ->
  exists df stamps s0 ug d13C Fm e0 e1 e2 dn,
    match sum_data with
    | SumPath path => from_csv path
    | SumFrame df => Ok df
    | SumOther => Raise (ValueError "sum_data must be pd.DataFrame or path string")
    end = Ok df /\
    df_index df = DatetimeIndex stamps /\
    nth_error stamps 0 = Some s0 /\
    getattr df "ug_frac" = Ok ug /\ getattr df "d13C" = Ok d13C /\
    getattr df "Fm" = Ok Fm /\
    t0_frac fr = slice_1_m1 (map (fun s => seconds (s - s0)) stamps) /\
    tf_frac fr = slice_2 (map (fun s => seconds (s - s0)) stamps) /\
    zip_with Qplus (slice_2 ug) e0 = Ok (mass_frac fr) /\
    zip_with Qplus (slice_2 d13C) e1 = Ok dn /\
    R13_frac fr = map _d13C_to_R13 dn /\
    zip_with Qplus (slice_2 Fm) e2 = Ok (Fm_frac fr) /\
    (add_noise = false ->
       Forall (fun e => e == 0) e0 /\ Forall (fun e => e == 0) e1 /\
       Forall (fun e => e == 0) e2).
Proof.
  unfold _extract_isotopes. intros H.
  destruct (match sum_data with
            | SumPath path => from_csv path
            | SumFrame df => Ok df
            | SumOther => _
            end) as [df |] eqn:Hdf; [| discriminate H].
  cbn [bind] in H.
  destruct (truthy _); [discriminate H |].
  destruct (df_index df) as [stamps | n] eqn:Hix; [| discriminate H].
  cbn [bind] in H.
  destruct (getattr df "fraction") as [fraction |]; [| discriminate H].
  cbn [bind] in H.
  destruct (item fraction 0) as [f0 |]; [| discriminate H]. cbn [bind] in H.
  match type of H with
  | bind ?m _ = _ => destruct m as [bad |]; [| discriminate H]
  end.
  cbn [bind] in H. destruct bad; [discriminate H |].
  destruct (item stamps 0) as [s0 |] eqn:Hs0; [| discriminate H].
  cbn [bind] in H.
  destruct (getattr df "ug_frac") as [ug |] eqn:Hug; [| discriminate H].
  cbn [bind] in H.
  destruct (getattr df "d13C") as [d13C |] eqn:Hd; [| discriminate H].
  cbn [bind] in H.
  destruct (getattr df "Fm") as [Fm |] eqn:HFm; [| discriminate H].
  cbn [bind] in H.
  match type of H with
  | bind ?m _ = _ => destruct m as [sigs |] eqn:Hsig; [| discriminate H]
  end.
  cbn [bind] in H.
  destruct (noise rng sigs _) as [[[e0 e1] e2] |] eqn:Hn; [| discriminate H].
  cbn [bind] in H.
  destruct (zip_with Qplus (slice_2 ug) e0) as [m |] eqn:Hm; [| discriminate H].
  cbn [bind] in H.
  destruct (zip_with Qplus (slice_2 d13C) e1) as [dn |] eqn:Hdn; [| discriminate H].
  cbn [bind] in H.
  destruct (zip_with Qplus (slice_2 Fm) e2) as [F |] eqn:HF; [| discriminate H].
  cbn [bind] in H. injection H as <-.
  exists df, stamps, s0, ug, d13C, Fm, e0, e1, e2, dn.
  cbn [t0_frac tf_frac mass_frac R13_frac Fm_frac].
  split; [reflexivity |]. split; [exact Hix |].
  split.
  { unfold item in Hs0. destruct (nth_error stamps 0); [| discriminate Hs0].
    now injection Hs0 as ->. }
  repeat (split; [first [reflexivity | assumption] |]).
  intros ->. injection Hsig as <-.
  rewrite ExtractFacts.noise_zeros in Hn. injection Hn as <- <- <-.
  repeat split; apply ExtractFacts.Forall_times_zero.
Qed.

Lemma nth_error_removelast {A : Type} (l : list A) (j : nat) (x : A) :
  nth_error (removelast l) j = Some x -> nth_error l j = Some x.
Proof.
  revert j; induction l as [| a l IH]; intros j H; [destruct j; discriminate H |].
  destruct l as [| b l]; [destruct j; discriminate H |].
  destruct j as [| j]; [exact H |]. apply IH. exact H.
Qed.

Lemma Forall_removelast {A : Type} (P : A -> Prop) (l : list A) :
  Forall P l -> Forall P (removelast l).
Proof.
  induction 1 as [| a l Ha Hl IH]; [constructor |].
  destruct l as [| b l]; [constructor |]. constructor; assumption.
Qed.

Lemma Forall_skipn {A : Type} (P : A -> Prop) (n : nat) (l : list A) :
  Forall P l -> Forall P (skipn n l).
Proof.
  revert l; induction n as [| n IH]; intros l H; [exact H |].
  destruct H; [constructor | now apply IH].
Qed.

(** X14: on success the five arrays have one entry per row of the table
    after the first two. *)
Theorem extract_shape from_csv rng df stamps mass_rsd add_noise fr :
  df_index df = DatetimeIndex stamps ->
  _extract_isotopes from_csv rng (SumFrame df) mass_rsd add_noise = Ok fr ->
  length (t0_frac fr) = (length stamps - 2)%nat /\
  length (tf_frac fr) = (length stamps - 2)%nat /\
  length (mass_frac fr) = (length stamps - 2)%nat /\
  length (R13_frac fr) = (length stamps - 2)%nat /\
  length (Fm_frac fr) = (length stamps - 2)%nat.
Proof.
  intros Hix H.
  destruct (extract_lengths _ _ _ _ _ _ H) as (H1 & H2 & H3 & H4).
  destruct (extract_ok_parts _ _ _ _ _ _ H)
    as (df' & st & s0 & ug & d & F & e0 & e1 & e2 & dn & Hdf & Hix' & _ & _ & _ & _
        & _ & Htf & _).
  injection Hdf as <-. rewrite Hix in Hix'. injection Hix' as <-.
  assert (Hl : length (tf_frac fr) = (length stamps - 2)%nat).
  { rewrite Htf. unfold slice_2. now rewrite length_skipn, length_map. }
  repeat split; lia.
Qed.

Lemma extract_shape_witness :
  length (t0_frac sample_fractions) = 2%nat /\
  length (tf_frac sample_fractions) = 2%nat /\
  length (mass_frac sample_fractions) = 2%nat /\
  length (R13_frac sample_fractions) = 2%nat /\
  length (Fm_frac sample_fractions) = 2%nat.
Proof.
  apply (extract_shape no_csv no_rng table_full [0; 600; 1200; 1800]%Z
           (1 # 100) false sample_fractions).
  - reflexivity.
  - vm_compute. reflexivity.
Defined.

(** X15: the time windows returned are contiguous (each fraction starts at
    the time the previous one ends) and every time is a seconds component,
    between 0 and 86399: elapsed days are dropped. *)
Theorem extract_windows from_csv rng sum_data mass_rsd add_noise fr :
  _extract_isotopes from_csv rng sum_data mass_rsd add_noise = Ok fr ->
  (forall i t, nth_error (t0_frac fr) (S i) = Some t ->
               nth_error (tf_frac fr) i = Some t) /\
  Forall (fun t => (0 <= t < 86400)%Z) (t0_frac fr) /\
  Forall (fun t => (0 <= t < 86400)%Z) (tf_frac fr).
Proof.
  intros H.
  destruct (extract_ok_parts _ _ _ _ _ _ H)
    as (df & st & s0 & ug & d & F & e0 & e1 & e2 & dn & _ & _ & _ & _ & _ & _
        & Ht0 & Htf & _).
  rewrite Ht0, Htf. unfold slice_1_m1, slice_2.
  set (secs := map (fun s => seconds (s - s0)) st).
  assert (Hsecs : Forall (fun t => (0 <= t < 86400)%Z) secs).
  { unfold secs. apply Forall_forall. intros t Ht. apply in_map_iff in Ht.
    destruct Ht as (s & <- & _). unfold seconds. apply Z.mod_pos_bound. lia. }
  repeat split.
  - intros i t Hi. apply nth_error_removelast in Hi.
    destruct secs as [| a [| b rest]]; simpl in *;
      [destruct i; discriminate Hi | destruct i; discriminate Hi | exact Hi].
  - apply Forall_removelast. now apply Forall_skipn.
  - now apply Forall_skipn.
Qed.

Lemma extract_windows_witness :
  (forall i t, nth_error (t0_frac sample_fractions) (S i) = Some t ->
               nth_error (tf_frac sample_fractions) i = Some t) /\
  Forall (fun t => (0 <= t < 86400)%Z) (t0_frac sample_fractions) /\
  Forall (fun t => (0 <= t < 86400)%Z) (tf_frac sample_fractions).
Proof.
  apply (extract_windows no_csv no_rng (SumFrame table_full) (1 # 100) false).
  vm_compute. reflexivity.
Defined.

Lemma zip_plus_zero_id (m e m' : list Q) :
  zip_with Qplus m e = Ok m' -> Forall (fun x => x == 0) e -> Forall2 Qeq m' m.
Proof.
  revert e m'; induction m as [| a m IH]; intros [| b e] m' H He; simpl in H;
    try discriminate H.
  - injection H as <-. constructor.
  - bind_ok H. injection H as <-. inversion He as [| ? ? Hb He']; subst.
    constructor; [rewrite Hb; ring | eapply IH; eassumption].
Qed.

Lemma roundtrip_list (l l' : list Q) :
  Forall2 Qeq l l' -> Forall2 Qeq (map _R13_to_d13C (map _d13C_to_R13 l)) l'.
Proof.
  induction 1 as [| a b l l' Hab _ IH]; simpl; constructor; [| exact IH].
  rewrite <- Hab. unfold _R13_to_d13C, _d13C_to_R13, Rpdb. field.
Qed.

(** X16: without noise a table is extracted as it is: the masses and Fm
    values returned are the table's from the third row on, and the ratios
    returned convert back to the table's d13C values. *)
Theorem extract_without_noise_values from_csv rng df mass_rsd fr :
  _extract_isotopes from_csv rng (SumFrame df) mass_rsd false = Ok fr ->
  exists ug d13C Fm,
    getattr df "ug_frac" = Ok ug /\ getattr df "d13C" = Ok d13C /\
    getattr df "Fm" = Ok Fm /\
    Forall2 Qeq (mass_frac fr) (slice_2 ug) /\
    Forall2 Qeq (map _R13_to_d13C (R13_frac fr)) (slice_2 d13C) /\
    Forall2 Qeq (Fm_frac fr) (slice_2 Fm).
Proof.
  intros H.
  destruct (extract_ok_parts _ _ _ _ _ _ H)
    as (df' & st & s0 & ug & d & F & e0 & e1 & e2 & dn & Hdf & _ & _ & Hug & Hd & HF
        & _ & _ & Hm & Hdn & HR & HFm & Hz).
  injection Hdf as <-. destruct (Hz eq_refl) as (Z0 & Z1 & Z2).
  exists ug, d, F. repeat split; try assumption.
  - eapply zip_plus_zero_id; eassumption.
  - rewrite HR. apply roundtrip_list. eapply zip_plus_zero_id; eassumption.
  - eapply zip_plus_zero_id; eassumption.
Qed.

Lemma extract_without_noise_values_witness :
  exists ug d13C Fm,
    getattr table_full "ug_frac" = Ok ug /\ getattr table_full "d13C" = Ok d13C /\
    getattr table_full "Fm" = Ok Fm /\
    Forall2 Qeq (mass_frac sample_fractions) (slice_2 ug) /\
    Forall2 Qeq (map _R13_to_d13C (R13_frac sample_fractions)) (slice_2 d13C) /\
    Forall2 Qeq (Fm_frac sample_fractions) (slice_2 Fm).
Proof.
  apply (extract_without_noise_values no_csv no_rng table_full (1 # 100)).
  vm_compute. reflexivity.
Defined.

(** X17: what the validation does catch, for a table that has the
    [ug_frac] column: an index that is not a [DatetimeIndex] and first two
    fraction labels other than -1 and 0 both raise [ValueError]; an input
    that is neither a path nor a table raises [ValueError] at once. *)
Theorem extract_validation from_csv rng df mass_rsd add_noise :
  _extract_isotopes from_csv rng SumOther mass_rsd add_noise
  = Raise (ValueError "sum_data must be pd.DataFrame or path string") /\
  (in_columns "ug_frac" df = true ->
   forall n, df_index df = OtherIndex n ->
     _extract_isotopes from_csv rng (SumFrame df) mass_rsd add_noise
     = Raise (ValueError "sum_data index must be DatetimeIndex")) /\
  (in_columns "ug_frac" df = true ->
   forall stamps f0 f1 rest,
     df_index df = DatetimeIndex stamps ->
     getattr df "fraction" = Ok (f0 :: f1 :: rest) ->
     ~ (f0 == - (1) /\ f1 == 0) ->
     _extract_isotopes from_csv rng (SumFrame df) mass_rsd add_noise
     = Raise (ValueError "First two rows must be fractions -1 and 0")).
Proof.
  split; [reflexivity |]. split.
  - intros Hug n Hix. unfold _extract_isotopes. cbn [bind].
    rewrite ExtractFacts.missing_columns_test_ug_frac, Hug, Hix. reflexivity.
  - intros Hug stamps f0 f1 rest Hix Hfr Hbad.
    unfold _extract_isotopes. cbn [bind].
    rewrite ExtractFacts.missing_columns_test_ug_frac, Hug, Hix. cbn [negb bind].
    rewrite Hfr. cbn [bind item nth_error].
    destruct (Qeq_bool f0 (- (1))) eqn:H0; cbn [negb bind]; [| reflexivity].
    destruct (Qeq_bool f1 0) eqn:H1; cbn [negb bind]; [| reflexivity].
    exfalso. apply Hbad. split; now apply Qeq_bool_iff.
Qed.

Lemma extract_validation_witness :
  _extract_isotopes no_csv no_rng (SumFrame table_other_index) 0 false
  = Raise (ValueError "sum_data index must be DatetimeIndex") /\
  _extract_isotopes no_csv no_rng (SumFrame table_bad_labels) 0 false
  = Raise (ValueError "First two rows must be fractions -1 and 0").
Proof.
  split.
  - apply (proj1 (proj2 (extract_validation no_csv no_rng table_other_index
             0 false)) eq_refl 4%nat).
    reflexivity.
  - apply (proj2 (proj2 (extract_validation no_csv no_rng table_bad_labels
             0 false)) eq_refl [0; 600; 1200; 1800]%Z 1 2 [3; 4]).
    + reflexivity.
    + reflexivity.
    + intros [H _]. discriminate H.
Defined.

(** A successful extraction with noise, taken apart. *)
Lemma extract_noise_parts from_csv rng df mass_rsd fr :
  _extract_isotopes from_csv rng (SumFrame df) mass_rsd true = Ok fr ->
  exists ug d13C Fm dstd Fstd e0 e1 e2 dn,
    getattr df "ug_frac" = Ok ug /\ getattr df "d13C" = Ok d13C /\
    getattr df "Fm" = Ok Fm /\
    getattr df "d13C_std" = Ok dstd /\ getattr df "Fm_std" = Ok Fstd /\
    zip_with Qmult (randn_col rng (length (t0_frac fr)) 0)
      (map (fun m => m * mass_rsd) (slice_2 ug)) = Ok e0 /\
    zip_with Qmult (randn_col rng (length (t0_frac fr)) 1) (slice_2 dstd) = Ok e1 /\
    zip_with Qmult (randn_col rng (length (t0_frac fr)) 2) (slice_2 Fstd) = Ok e2 /\
    zip_with Qplus (slice_2 ug) e0 = Ok (mass_frac fr) /\
    zip_with Qplus (slice_2 d13C) e1 = Ok dn /\
    R13_frac fr = map _d13C_to_R13 dn /\
    zip_with Qplus (slice_2 Fm) e2 = Ok (Fm_frac fr).
Proof.
  unfold _extract_isotopes. cbn [bind]. intros H.
  destruct (truthy _); [discriminate H |].
  destruct (df_index df) as [stamps | n]; [| discriminate H]. cbn [bind] in H.
  destruct (getattr df "fraction") as [fraction |]; [| discriminate H].
  cbn [bind] in H.
  destruct (item fraction 0) as [f0 |]; [| discriminate H]. cbn [bind] in H.
  match type of H with
  | bind ?m _ = _ => destruct m as [bad |]; [| discriminate H]
  end.
  cbn [bind] in H. destruct bad; [discriminate H |].
  destruct (item stamps 0) as [s0 |]; [| discriminate H]. cbn [bind] in H.
  destruct (getattr df "ug_frac") as [ug |]; [| discriminate H]. cbn [bind] in H.
  destruct (getattr df "d13C") as [d13C |]; [| discriminate H]. cbn [bind] in H.
  destruct (getattr df "Fm") as [Fm |]; [| discriminate H]. cbn [bind] in H.
  destruct (getattr df "d13C_std") as [dstd |]; [| discriminate H].
  cbn [bind] in H.
  destruct (getattr df "Fm_std") as [Fstd |]; [| discriminate H]. cbn [bind] in H.
  unfold column_stack3 in H. destruct (_ && _); [| discriminate H].
  cbn [bind] in H. unfold noise in H.
  destruct (zip_with Qmult (randn_col rng _ 0) _) as [e0 |] eqn:H0; [| discriminate H].
  cbn [bind] in H.
  destruct (zip_with Qmult (randn_col rng _ 1) _) as [e1 |] eqn:H1; [| discriminate H].
  cbn [bind] in H.
  destruct (zip_with Qmult (randn_col rng _ 2) _) as [e2 |] eqn:H2; [| discriminate H].
  cbn [bind] in H.
  destruct (zip_with Qplus (slice_2 ug) e0) as [m |] eqn:Hm; [| discriminate H].
  cbn [bind] in H.
  destruct (zip_with Qplus (slice_2 d13C) e1) as [dn |] eqn:Hdn; [| discriminate H].
  cbn [bind] in H.
  destruct (zip_with Qplus (slice_2 Fm) e2) as [F |] eqn:HF; [| discriminate H].
  cbn [bind] in H. injection H as <-.
  cbn [t0_frac mass_frac R13_frac Fm_frac].
  exists ug, d13C, Fm, dstd, Fstd, e0, e1, e2, dn.
  repeat (split; [first [reflexivity | assumption] |]). assumption.
Qed.

Lemma nth_error_randn_col (rng : nat -> Q) (nF j i : nat) (x : Q) :
  nth_error (randn_col rng nF j) i = Some x -> x = rng (3 * i + j)%nat.
Proof.
  unfold randn_col. rewrite nth_error_map. intros H.
  destruct (nth_error (seq 0 nF) i) as [k |] eqn:Hk; [| discriminate H].
  injection H as <-. apply nth_error_In in Hk as Hin.
  assert (k = i); [| now subst].
  apply in_seq in Hin.
  rewrite nth_error_seq in Hk. destruct (Nat.ltb_spec i nF); [| discriminate Hk].
  now injection Hk as <-.
Qed.

(** X29: the noise model, fraction by fraction: with noise on, fraction [i]
    gets its mass perturbed by a draw times [mass*mass_rsd], its d13C by a
    second draw times the table's [d13C_std], and its Fm by a third draw
    times [Fm_std]; the three draws of a fraction are distinct draws of the
    generator. *)
Theorem extract_noise_model from_csv rng df mass_rsd fr (i : nat) (m r13 f : Q) :
  _extract_isotopes from_csv rng (SumFrame df) mass_rsd true = Ok fr ->
  nth_error (mass_frac fr) i = Some m ->
  nth_error (R13_frac fr) i = Some r13 ->
  nth_error (Fm_frac fr) i = Some f ->
  exists ug d13C Fm dstd Fstd u d f0 sd sf,
    getattr df "ug_frac" = Ok ug /\ getattr df "d13C" = Ok d13C /\
    getattr df "Fm" = Ok Fm /\
    getattr df "d13C_std" = Ok dstd /\ getattr df "Fm_std" = Ok Fstd /\
    nth_error ug (2 + i) = Some u /\ nth_error d13C (2 + i) = Some d /\
    nth_error Fm (2 + i) = Some f0 /\
    nth_error dstd (2 + i) = Some sd /\ nth_error Fstd (2 + i) = Some sf /\
    m = u + rng (3 * i + 0)%nat * (u * mass_rsd) /\
    r13 = _d13C_to_R13 (d + rng (3 * i + 1)%nat * sd) /\
    f = f0 + rng (3 * i + 2)%nat * sf.
Proof.
  intros H Hm Hr Hf.
  destruct (extract_noise_parts _ _ _ _ _ H)
    as (ug & d13C & Fm & dstd & Fstd & e0 & e1 & e2 & dn & Hug & Hd & HF & Hds & HFs
        & H0 & H1 & H2 & Hmz & Hdz & HR & HFz).
  rewrite HR, nth_error_map in Hr.
  destruct (nth_error dn i) as [dni |] eqn:Hdn; [| discriminate Hr].
  injection Hr as <-.
  destruct (zip_with_nth_inv _ _ _ _ _ _ Hmz Hm) as (u & b0 & Hu & Hb0 & ->).
  destruct (zip_with_nth_inv _ _ _ _ _ _ Hdz Hdn) as (d & b1 & Hdd & Hb1 & ->).
  destruct (zip_with_nth_inv _ _ _ _ _ _ HFz Hf) as (f0 & b2 & Hf0 & Hb2 & ->).
  destruct (zip_with_nth_inv _ _ _ _ _ _ H0 Hb0) as (r0 & s0 & Hr0 & Hs0 & ->).
  destruct (zip_with_nth_inv _ _ _ _ _ _ H1 Hb1) as (r1 & sd & Hr1 & Hsd & ->).
  destruct (zip_with_nth_inv _ _ _ _ _ _ H2 Hb2) as (r2 & sf & Hr2 & Hsf & ->).
  apply nth_error_randn_col in Hr0, Hr1, Hr2. subst r0 r1 r2.
  rewrite nth_error_map, Hu in Hs0. injection Hs0 as <-.
  unfold slice_2 in *. rewrite nth_error_skipn in Hu, Hdd, Hf0, Hsd, Hsf.
  exists ug, d13C, Fm, dstd, Fstd, u, d, f0, sd, sf.
  repeat (split; [first [reflexivity | assumption] |]). reflexivity.
Qed.

Lemma extract_noise_model_witness :
  exists ug d13C Fm dstd Fstd u d f0 sd sf,
    getattr table_full "ug_frac" = Ok ug /\ getattr table_full "d13C" = Ok d13C /\
    getattr table_full "Fm" = Ok Fm /\
    getattr table_full "d13C_std" = Ok dstd /\ getattr table_full "Fm_std" = Ok Fstd /\
    nth_error ug (2 + 1) = Some u /\ nth_error d13C (2 + 1) = Some d /\
    nth_error Fm (2 + 1) = Some f0 /\
    nth_error dstd (2 + 1) = Some sd /\ nth_error Fstd (2 + 1) = Some sf /\
    nth 1 (mass_frac sample_noisy) 0 = u + sample_rng (3 * 1 + 0)%nat * (u * (1 # 100)) /\
    nth 1 (R13_frac sample_noisy) 0 = _d13C_to_R13 (d + sample_rng (3 * 1 + 1)%nat * sd) /\
    nth 1 (Fm_frac sample_noisy) 0 = f0 + sample_rng (3 * 1 + 2)%nat * sf.
Proof.
  apply (extract_noise_model no_csv sample_rng table_full (1 # 100) sample_noisy 1).
  - vm_compute. reflexivity.
  - reflexivity.
  - reflexivity.
  - reflexivity.
Defined.

(** *** Index windows *)

Lemma In_where_from (i : nat) (mask : list bool) (j : nat) :
  In j (where_from i mask) <-> (i <= j)%nat /\ nth_error mask (j - i) = Some true.
Proof.
  revert i; induction mask as [| b mask IH]; intros i; simpl.
  - split; [contradiction | intros [_ H]; destruct (j - i)%nat; discriminate H].
  - assert (Hstep : In j (where_from (S i) mask) <->
                    (i < j)%nat /\ nth_error (b :: mask) (j - i) = Some true).
    { rewrite IH. split; intros [Hle Hn]; (split; [lia |]).
      - replace (j - i)%nat with (S (j - S i)) by lia. exact Hn.
      - replace (j - i)%nat with (S (j - S i)) in Hn by lia. exact Hn. }
    destruct b; simpl; rewrite Hstep.
    + split.
      * intros [<- | [Hlt Hn]]; [rewrite Nat.sub_diag; auto | split; [lia | exact Hn]].
      * intros [Hle Hn]. destruct (Nat.eq_dec i j) as [-> | Hne]; [now left |].
        right. split; [lia | exact Hn].
    + split.
      * intros [Hlt Hn]. split; [lia | exact Hn].
      * intros [Hle Hn]. split; [| exact Hn].
        destruct (Nat.eq_dec i j) as [-> | Hne]; [| lia].
        rewrite Nat.sub_diag in Hn. discriminate Hn.
Qed.

Lemma In_window (t_tg : list Q) (row : Q * Q) (j : nat) :
  In j (window t_tg row) <->
  exists x, nth_error t_tg j = Some x /\ fst row < x /\ x <= snd row.
Proof.
  unfold window, where_. rewrite In_where_from, Nat.sub_0_r, nth_error_map.
  split.
  - intros [_ H]. destruct (nth_error t_tg j) as [x |]; [| discriminate H].
    simpl in H. injection H as H. apply andb_true_iff in H. destruct H as [H1 H2].
    exists x. split; [reflexivity |]. split.
    + apply Qnot_le_lt. intros Hle. apply Qle_bool_iff in Hle.
      rewrite Hle in H1. discriminate H1.
    + now apply Qle_bool_iff.
  - intros (x & -> & H1 & H2). split; [lia |]. simpl. f_equal.
    apply andb_true_iff. split.
    + destruct (Qle_bool x (fst row)) eqn:Hb; [| reflexivity].
      apply Qle_bool_iff in Hb. exfalso. exact (Qlt_not_le _ _ H1 Hb).
    + now apply Qle_bool_iff.
Qed.

(** X18: the window of a fraction holds exactly the grid positions whose
    time [t] satisfies [t0 < t <= tf], in ascending order. *)
Theorem window_selects (t_tg : list Q) (row : Q * Q) :
  (forall j, In j (window t_tg row) <->
             exists x, nth_error t_tg j = Some x /\ fst row < x /\ x <= snd row) /\
  StronglySorted lt (window t_tg row).
Proof.
  split; [intros j; apply In_window | apply where_from_sorted].
Qed.

(** X19: windows of fractions that follow one another share no grid
    position: when one fraction ends no later than the other starts, no
    index lies in both windows. *)
Theorem windows_disjoint (t_tg : list Q) (r1 r2 : Q * Q) (j : nat) :
  snd r1 <= fst r2 ->
  In j (window t_tg r1) -> ~ In j (window t_tg r2).
Proof.
  intros Hle H1 H2. apply In_window in H1. apply In_window in H2.
  destruct H1 as (x & Hx & _ & Hx2). destruct H2 as (y & Hy & Hy1 & _).
  rewrite Hx in Hy. injection Hy as <-. lra.
Qed.

Lemma windows_disjoint_witness :
  ~ In 2%nat (window (lt_t sample_lt) (1200, 1800)).
Proof.
  apply (windows_disjoint (lt_t sample_lt) (600, 1200) (1200, 1800) 2).
  - simpl. apply Qle_refl.
  - vm_compute. right. left. reflexivity.
Defined.

(** *** Shape of the mapping's result *)

Lemma length_sum_axis0 (n : nat) (rows : list (list Q)) :
  Forall (fun r => length r = n) rows -> length (sum_axis0 n rows) = n.
Proof.
  unfold sum_axis0. induction 1 as [| r rows Hr _ IH]; simpl.
  - apply repeat_length.
  - rewrite length_vadd; lia.
Qed.

Lemma gradient_rows_lengths (n : nat) (R G : list (list Q)) :
  Forall (fun r => length r = n) R ->
  gradient_gen (list Q) vsub vhalf R = Ok G ->
  Forall (fun r => length r = n) G /\ length G = length R.
Proof.
  intros HR HG.
  destruct (gradient_rows_sum n R G HR HG) as (G' & _ & Hrel).
  split.
  - clear - Hrel. induction Hrel as [| r x G G' [Hl _] _ IH]; constructor; auto.
  - destruct R as [| r0 [| r1 rest]]; simpl in HG; try discriminate HG.
    injection HG as <-. simpl. now rewrite gradient_from_length.
Qed.

Lemma peak_thermograms_shape (lt : LaplaceTransform) (ec : EnergyComplex)
    (peaks : matrix) :
  peak_thermograms lt ec = Ok peaks ->
  shape1 peaks = shape1 (ec_peaks ec) /\
  Forall (fun r => length r = shape1 (ec_peaks ec)) (mrows peaks).
Proof.
  unfold peak_thermograms, inner_mm, gradient_axis0. intros H.
  destruct (Nat.eqb _ _); [| discriminate H]. cbn [bind mrows shape1] in H.
  destruct (gradient_gen _ _ _ _) as [G |] eqn:HG; [| discriminate H].
  cbn [bind] in H. injection H as <-. cbn [mneg shape1 mrows].
  assert (Hn : shape0 (transpose (ec_peaks ec)) = shape1 (ec_peaks ec)).
  { unfold transpose, shape0; cbn. now rewrite length_map, length_seq. }
  split; [exact Hn |].
  match type of HG with
  | gradient_gen _ _ _ ?R = _ =>
      assert (HR : Forall (fun r => length r = shape1 (ec_peaks ec)) R)
  end.
  { apply Forall_forall. intros r Hr. apply in_map_iff in Hr.
    destruct Hr as (a & <- & _). rewrite length_map.
    unfold transpose; cbn. now rewrite length_map, length_seq. }
  destruct (gradient_rows_lengths _ _ G HR HG) as [HGl _].
  apply Forall_forall. intros r Hr. apply in_map_iff in Hr.
  destruct Hr as (g & <- & Hg). unfold neg. rewrite length_map.
  rewrite Forall_forall in HGl. now apply HGl.
Qed.

Lemma take_Forall {A : Type} (P : A -> Prop) (a r : list A) (ind : list nat) :
  Forall P a -> take a ind = Ok r -> Forall P r.
Proof.
  intros Ha Hr. apply take_Forall2 in Hr.
  induction Hr as [| j x ind r Hjx _ IH]; constructor; [| exact IH].
  rewrite Forall_forall in Ha. apply Ha. eapply nth_error_In; eassumption.
Qed.

(** X20: when the mapping returns, the contribution matrix has one row per
    fraction and one column per peak, the three index lists have one entry
    per fraction, and the peaks do not outnumber the fractions. *)
Theorem calc_cont_ptf_shape (lt : LaplaceTransform) (ec : EnergyComplex)
    (t0 tf : list Q) (c : cont_result) :
  _calc_cont_ptf lt ec t0 tf = Ok c ->
  length (cont_ptf c) = length t0 /\
  Forall (fun r => length r = shape1 (ec_peaks ec)) (cont_ptf c) /\
  length (ind_min c) = length t0 /\ length (ind_max c) = length t0 /\
  length (ind_wgh c) = length t0 /\
  length tf = length t0 /\
  (shape1 (ec_peaks ec) <= length t0)%nat.
Proof.
  intros H.
  destruct (calc_cont_ptf_ok _ _ _ _ _ H) as (tot & peaks & entries & _ & Hp & Hm & ->).
  destruct (peak_thermograms_shape _ _ _ Hp) as [Hs1 Hrows].
  pose proof (CoreMore.mapM_length _ _ _ Hm) as Hel.
  assert (Hlen : length tf = length t0 /\ (shape1 (ec_peaks ec) <= length t0)%nat).
  { unfold _calc_cont_ptf in H.
    destruct (column_stack2 t0 tf) as [t |] eqn:Ht; [| discriminate H].
    cbn [bind] in H.
    destruct (Nat.ltb_spec (length t0) (shape1 (ec_peaks ec))); [discriminate H |].
    split; [| assumption].
    clear - Ht. revert tf t Ht; induction t0 as [| a t0 IH]; intros [| b tf] t Ht;
      simpl in Ht; try discriminate Ht; [reflexivity |].
    bind_ok Ht. simpl. f_equal. eapply IH; eassumption. }
  destruct Hlen as [Hl Hpk].
  assert (Hc : length (combine t0 tf) = length t0).
  { rewrite length_combine. lia. }
  cbn [cont_ptf ind_min ind_max ind_wgh]. rewrite !length_map, Hel, Hc.
  repeat split; try assumption.
  apply Forall_forall. intros r Hr. apply in_map_iff in Hr.
  destruct Hr as (e & <- & He).
  destruct (In_nth_error _ _ He) as [i Hi].
  destruct (mapM_nth_error_inv _ _ _ _ _ Hm Hi) as (row & _ & Hstep).
  unfold frac_step in Hstep. repeat bind_ok Hstep. injection Hstep as <-.
  cbn [e_ptf]. rewrite length_map, Hs1.
  apply length_sum_axis0. eapply take_Forall; eassumption.
Qed.

Lemma calc_cont_ptf_shape_witness :
  length (cont_ptf sample_cont) = length sample_t0 /\
  Forall (fun r => length r = shape1 (ec_peaks sample_ec)) (cont_ptf sample_cont) /\
  length (ind_min sample_cont) = length sample_t0 /\
  length (ind_max sample_cont) = length sample_t0 /\
  length (ind_wgh sample_cont) = length sample_t0 /\
  length sample_tf = length sample_t0 /\
  (shape1 (ec_peaks sample_ec) <= length sample_t0)%nat.
Proof.
  apply (calc_cont_ptf_shape sample_lt sample_ec sample_t0 sample_tf sample_cont).
  vm_compute. reflexivity.
Defined.

(** X21: for every fraction the first and last index returned are grid
    positions whose times lie in the fraction's window [(t0, tf]], and the
    first is not after the last. *)
Theorem cont_indices_in_window (lt : LaplaceTransform) (ec : EnergyComplex)
    (t0 tf : list Q) (c : cont_result) (i imin imax : nat) (row : Q * Q) :
  _calc_cont_ptf lt ec t0 tf = Ok c ->
  nth_error (combine t0 tf) i = Some row ->
  nth_error (ind_min c) i = Some imin ->
  nth_error (ind_max c) i = Some imax ->
  (imin <= imax < length (lt_t lt))%nat /\
  (exists x, nth_error (lt_t lt) imin = Some x /\ fst row < x /\ x <= snd row) /\
  (exists y, nth_error (lt_t lt) imax = Some y /\ fst row < y /\ y <= snd row).
Proof.
  intros H Hrow Hmin Hmax.
  destruct (calc_cont_ptf_ok _ _ _ _ _ H) as (tot & peaks & entries & _ & _ & Hm & ->).
  cbn [ind_min ind_max] in Hmin, Hmax.
  destruct (mapM_nth_error _ _ _ _ _ Hm Hrow) as (e & He & Hstep).
  rewrite (map_nth_error e_min _ _ He) in Hmin. injection Hmin as <-.
  rewrite (map_nth_error e_max _ _ He) in Hmax. injection Hmax as <-.
  unfold frac_step in Hstep.
  destruct (first _) as [a |] eqn:Hf; [| discriminate Hstep]. cbn [bind] in Hstep.
  destruct (last _) as [b |] eqn:Hl; [| discriminate Hstep]. cbn [bind] in Hstep.
  repeat bind_ok Hstep. injection Hstep as <-. cbn [e_min e_max].
  set (ind := window (lt_t lt) row) in *.
  assert (Hs : StronglySorted Peano.lt ind) by apply where_from_sorted.
  assert (Ha : In a ind).
  { destruct ind as [| x l]; [discriminate Hf |]. injection Hf as <-. now left. }
  assert (Hb : In b ind).
  { unfold last in Hl. destruct (rev ind) as [| y r] eqn:Hr; [discriminate Hl |].
    injection Hl as <-. apply in_rev. rewrite Hr. now left. }
  repeat split.
  - eapply sorted_first_le; eassumption.
  - now apply window_in_grid in Hb.
  - now apply In_window.
  - now apply In_window.
Qed.

Lemma cont_indices_in_window_witness :
  (3 <= 4 < length (lt_t sample_lt))%nat /\
  (exists x, nth_error (lt_t sample_lt) 3 = Some x /\ 1200 < x /\ x <= 1800) /\
  (exists y, nth_error (lt_t sample_lt) 4 = Some y /\ 1200 < y /\ y <= 1800).
Proof.
  apply (cont_indices_in_window sample_lt sample_ec sample_t0 sample_tf
           sample_cont 1 3 4 (1200, 1800)).
  - vm_compute. reflexivity.
  - reflexivity.
  - reflexivity.
  - reflexivity.
Defined.

(** *** The modelled 13C/12C ratio of the evolved CO2 *)

Lemma mapM_Forall2 {A B : Type} (f : A -> result B) (l : list A) (bs : list B) :
  mapM f l = Ok bs -> Forall2 (fun x b => f x = Ok b) l bs.
Proof.
  revert bs; induction l as [| a l IH]; intros bs H; simpl in H.
  - injection H as <-. constructor.
  - bind_ok H. bind_ok H. injection H as <-. constructor; auto.
Qed.

Lemma zip_mult_repeat_sum (r : Q) (row row' : list Q) (n : nat) :
  zip_with Qmult row (repeat r n) = Ok row' -> sum row' == r * sum row.
Proof.
  revert n row'; induction row as [| a row IH]; intros [| n] row' H; simpl in H;
    try discriminate H.
  - injection H as <-. simpl. ring.
  - bind_ok H. injection H as <-. simpl. rewrite (IH _ _ E). ring.
Qed.

Lemma dot_scaled_r (r : Q) (a p13 p12 : list Q) :
  Forall2 (fun u v => u == r * v) p13 p12 -> dot a p13 == r * dot a p12.
Proof.
  intros H; revert a; induction H as [| u v p13 p12 Huv _ IH]; intros a.
  - rewrite !dot_nil_r. ring.
  - destruct a as [| c a]; [unfold dot; simpl; ring |].
    rewrite !CoreMore.dot_cons, Huv, (IH a). ring.
Qed.

Lemma gradient_scaled (r : Q) (g13 g12 d13 d12 : list Q) :
  Forall2 (fun x y => x == r * y) g13 g12 ->
  gradient g13 = Ok d13 -> gradient g12 = Ok d12 ->
  Forall2 (fun x y => x == r * y) d13 d12.
Proof.
  intros Hrel H13 H12.
  destruct (CoreMore.gradient_affine r 0 g12 d12 H12) as (gn & Hgn & Hgn12).
  assert (Heq : Forall2 Qeq g13 (map (fun x => r * x + 0) g12)).
  { clear - Hrel. induction Hrel as [| x y g13 g12 Hxy _ IH]; simpl; constructor;
      [rewrite Hxy; ring | exact IH]. }
  pose proof (gradient_compat _ _ _ _ Heq H13 Hgn) as Hc.
  clear - Hc Hgn12. revert d12 Hgn12.
  induction Hc as [| x y d13 gn Hxy _ IH]; intros d12 Hrel;
    inversion Hrel as [| ? z ? d12' Hyz Hrel']; subst; constructor.
  - rewrite Hxy. exact Hyz.
  - now apply IH.
Qed.

(** With one ratio for every peak and no difference between the 13C and
    12C peak shapes, the modelled ratio is that ratio wherever the 12C rate
    and the time step do not vanish. *)
Lemma calc_R13_CO2_uniform (r : Q) (lt : LaplaceTransform) (ec : EnergyComplex)
    (g12 d12 gt out : list Q) :
  ec_peaks_13 ec = ec_peaks ec ->
  inner_mv (lt_A lt) (map sum (mrows (ec_peaks ec))) = Ok g12 ->
  gradient g12 = Ok d12 ->
  gradient (lt_t lt) = Ok gt ->
  Forall (fun d => ~ d == 0) d12 ->
  Forall (fun g => ~ g == 0) gt ->
  _calc_R13_CO2 (repeat r (shape1 (ec_peaks ec))) lt ec = Ok out ->
  Forall (fun o => o == r) out.
Proof.
  intros H13 Hg12 Hd12 Hgt Hnz12 Hnzt H.
  unfold _calc_R13_CO2 in H. rewrite repeat_length, Nat.eqb_refl in H.
  cbn [negb] in H. rewrite H13 in H.
  destruct (mapM _ _) as [C13 |] eqn:HC; [| discriminate H]. cbn [bind] in H.
  rewrite Hg12 in H. cbn [bind] in H.
  destruct (inner_mv _ (map sum C13)) as [g13 |] eqn:Hg13; [| discriminate H].
  cbn [bind] in H. rewrite Hgt in H. cbn [bind] in H.
  rewrite Hd12 in H. cbn [bind] in H.
  destruct (zip_with Qdiv (neg d12) gt) as [gdot12 |] eqn:H12; [| discriminate H].
  cbn [bind] in H.
  destruct (gradient g13) as [d13 |] eqn:Hd13; [| discriminate H]. cbn [bind] in H.
  destruct (zip_with Qdiv (neg d13) gt) as [gdot13 |] eqn:H13'; [| discriminate H].
  cbn [bind] in H.
  (* the 13C curve is [r] times the 12C curve *)
  assert (Hphi : Forall2 (fun u v => u == r * v)
                   (map sum C13) (map sum (mrows (ec_peaks ec)))).
  { apply mapM_Forall2 in HC. clear - HC.
    induction HC as [| row row' rows C13 Hrow _ IH]; simpl; constructor;
      [eapply zip_mult_repeat_sum; eassumption | exact IH]. }
  assert (Hg : Forall2 (fun x y => x == r * y) g13 g12).
  { unfold inner_mv in Hg13, Hg12.
    match type of Hg13 with
    | (if ?b then _ else _) = _ => destruct b; [| discriminate Hg13]
    end.
    match type of Hg12 with
    | (if ?b then _ else _) = _ => destruct b; [| discriminate Hg12]
    end.
    injection Hg13 as <-. injection Hg12 as <-.
    clear - Hphi.
    induction (mrows (lt_A lt)) as [| a A IH]; simpl; constructor;
      [now apply dot_scaled_r | exact IH]. }
  pose proof (gradient_scaled r _ _ _ _ Hg Hd13 Hd12) as Hd.
  apply Forall_forall. intros o Ho.
  destruct (In_nth_error _ _ Ho) as [i Hi].
  destruct (zip_with_nth_inv _ _ _ _ _ _ H Hi) as (a & b & Ha & Hb & ->).
  destruct (zip_with_nth_inv _ _ _ _ _ _ H13' Ha) as (n13 & t1 & Hn13 & Ht1 & ->).
  destruct (zip_with_nth_inv _ _ _ _ _ _ H12 Hb) as (n12 & t2 & Hn12 & Ht2 & ->).
  rewrite Ht1 in Ht2. injection Ht2 as <-.
  unfold neg in Hn13, Hn12. rewrite nth_error_map in Hn13, Hn12.
  destruct (nth_error d13 i) as [x13 |] eqn:Hx13; [| discriminate Hn13].
  destruct (nth_error d12 i) as [x12 |] eqn:Hx12; [| discriminate Hn12].
  injection Hn13 as <-. injection Hn12 as <-.
  pose proof (Forall2_nth_error _ _ _ _ _ _ Hd Hx13 Hx12) as Hx.
  rewrite Forall_forall in Hnz12, Hnzt.
  assert (Hz12 : ~ x12 == 0) by (apply Hnz12; eapply nth_error_In; eassumption).
  assert (Hzt : ~ t1 == 0) by (apply Hnzt; eapply nth_error_In; eassumption).
  rewrite Hx. field. split; assumption.
Qed.

(** X22: when every peak has the same 13C/12C ratio [r] and the 13C peak
    shapes equal the 12C ones, the modelled ratio of the evolved CO2 is [r]
    at every time step, provided the 12C rate and the time steps are
    nowhere zero; one value is returned per grid time. *)
Theorem calc_R13_CO2_homogeneous (r : Q) (lt : LaplaceTransform) (ec : EnergyComplex)
    (g12 d12 gt out : list Q) :
  ec_peaks_13 ec = ec_peaks ec ->
  inner_mv (lt_A lt) (map sum (mrows (ec_peaks ec))) = Ok g12 ->
  gradient g12 = Ok d12 ->
  gradient (lt_t lt) = Ok gt ->
  Forall (fun d => ~ d == 0) d12 ->
  Forall (fun g => ~ g == 0) gt ->
  _calc_R13_CO2 (repeat r (shape1 (ec_peaks ec))) lt ec = Ok out ->
  Forall (fun o => o == r) out /\ length out = length (lt_t lt).
Proof.
  intros H13 Hg12 Hd12 Hgt Hnz12 Hnzt H.
  split; [eapply calc_R13_CO2_uniform; eassumption |].
  unfold _calc_R13_CO2 in H.
  destruct (negb _); [discriminate H |].
  repeat bind_ok H.
  repeat match goal with
         | Hz : zip_with _ _ _ = Ok _ |- _ => apply zip_with_length in Hz; destruct Hz
         end.
  match goal with
  | Hg : gradient (lt_t lt) = Ok _ |- _ => apply CoreMore.gradient_length in Hg
  end.
  lia.
Qed.

Lemma calc_R13_CO2_homogeneous_witness :
  Forall (fun o => o == Rpdb) sample_R13_CO2 /\
  length sample_R13_CO2 = length (lt_t sample_lt).
Proof.
  apply (calc_R13_CO2_homogeneous Rpdb sample_lt sample_ec
           sample_g12 sample_d12 sample_gt).
  - reflexivity.
  - vm_compute. reflexivity.
  - vm_compute. reflexivity.
  - vm_compute. reflexivity.
  - repeat constructor; intro H; discriminate H.
  - repeat constructor; intro H; discriminate H.
  - vm_compute. reflexivity.
Defined.

Lemma item_z_In {A : Type} (a : list A) (i : Z) (x : A) :
  item_z a i = Ok x -> In x a.
Proof.
  unfold item_z, item. intros H.
  destruct (0 <=? i)%Z.
  - destruct (nth_error a _) eqn:Hn; [| discriminate H]. injection H as <-.
    eapply nth_error_In; eassumption.
  - destruct (_ <=? i)%Z; [| discriminate H].
    destruct (nth_error a _) eqn:Hn; [| discriminate H]. injection H as <-.
    eapply nth_error_In; eassumption.
Qed.

(** X23: a homogeneous sample is fitted exactly: under the conditions of
    X22, when every fraction's measured ratio is [r] too, each residual
    [_R13_diff] returns is zero, one per fraction. *)
Theorem R13_diff_homogeneous (r : Q) (lt : LaplaceTransform) (ec : EnergyComplex)
    (g12 d12 gt R13_frac res : list Q) (ind_wgh : list Z) :
  ec_peaks_13 ec = ec_peaks ec ->
  inner_mv (lt_A lt) (map sum (mrows (ec_peaks ec))) = Ok g12 ->
  gradient g12 = Ok d12 ->
  gradient (lt_t lt) = Ok gt ->
  Forall (fun d => ~ d == 0) d12 ->
  Forall (fun g => ~ g == 0) gt ->
  Forall (fun m => m == r) R13_frac ->
  _R13_diff (repeat r (shape1 (ec_peaks ec))) R13_frac ind_wgh lt ec = Ok res ->
  Forall (fun d => d == 0) res /\ length res = length R13_frac.
Proof.
  intros H13 Hg12 Hd12 Hgt Hnz12 Hnzt HR H.
  unfold _R13_diff in H.
  destruct (_calc_R13_CO2 _ lt ec) as [out |] eqn:Hout; [| discriminate H].
  cbn [bind] in H.
  destruct (mapM _ ind_wgh) as [at_wgh |] eqn:Hat; [| discriminate H].
  cbn [bind] in H.
  pose proof (calc_R13_CO2_uniform r lt ec g12 d12 gt out H13 Hg12 Hd12 Hgt
                Hnz12 Hnzt Hout) as Hall.
  pose proof (zip_with_length _ _ _ _ H) as [_ Hl].
  split; [| exact Hl].
  apply Forall_forall. intros d Hd.
  destruct (In_nth_error _ _ Hd) as [i Hi].
  destruct (zip_with_nth_inv _ _ _ _ _ _ H Hi) as (a & b & Ha & Hb & ->).
  rewrite Forall_forall in Hall, HR.
  assert (Hb' : b == r) by (apply HR; eapply nth_error_In; eassumption).
  assert (Ha' : a == r).
  { apply Hall. apply mapM_Forall2 in Hat.
    clear - Hat Ha. revert i Ha.
    induction Hat as [| z x ind at_wgh Hzx _ IH]; intros i Ha.
    - destruct i; discriminate Ha.
    - destruct i as [| i]; simpl in Ha.
      + injection Ha as <-. eapply item_z_In; eassumption.
      + eapply IH; eassumption. }
  rewrite Ha', Hb'. ring.
Qed.

Lemma R13_diff_homogeneous_witness :
  Forall (fun d => d == 0) sample_R13_diff /\
  length sample_R13_diff = length [Rpdb; Rpdb].
Proof.
  apply (R13_diff_homogeneous Rpdb sample_lt sample_ec
           sample_g12 sample_d12 sample_gt [Rpdb; Rpdb] sample_R13_diff [2; 3]%Z).
  - reflexivity.
  - vm_compute. reflexivity.
  - vm_compute. reflexivity.
  - vm_compute. reflexivity.
  - repeat constructor; intro H; discriminate H.
  - repeat constructor; intro H; discriminate H.
  - repeat constructor.
  - vm_compute. reflexivity.
Defined.

(** *** The constructor *)

Lemma rows5_columns (a b c d e : list Q) (r : list (Q * Q * Q * Q * Q)) :
  rows5 a b c d e = Ok r ->
  map (fun row => fst (fst (fst (fst row)))) r = a /\
  map (fun row => snd (fst (fst (fst row)))) r = b /\
  map (fun row => snd (fst (fst row))) r = c /\
  map (fun row => snd (fst row)) r = d /\
  map (fun row => snd row) r = e.
Proof.
  revert b c d e r; induction a as [| x a IH];
    intros [| y b] [| z c] [| u d] [| v e] r H; simpl in H; try discriminate H.
  - injection H as <-. repeat split.
  - bind_ok H. injection H as <-.
    destruct (IH _ _ _ _ _ E) as (H1 & H2 & H3 & H4 & H5).
    simpl. rewrite H1, H2, H3, H4, H5. repeat split.
Qed.

Lemma rows3_columns (a b c : list Q) (r : list (Q * Q * Q)) :
  rows3 a b c = Ok r ->
  map (fun row => fst (fst row)) r = a /\
  map (fun row => snd (fst row)) r = b /\
  map (fun row => snd row) r = c.
Proof.
  revert b c r; induction a as [| x a IH]; intros [| y b] [| z c] r H;
    simpl in H; try discriminate H.
  - injection H as <-. repeat split.
  - bind_ok H. injection H as <-.
    destruct (IH _ _ _ E) as (H1 & H2 & H3).
    simpl. rewrite H1, H2, H3. repeat split.
Qed.

Lemma repeat_last_ok (x y : list Q) (k : Z) :
  repeat_last x k = Ok y ->
  (0 <= k)%Z /\
  exists l, last x = Ok l /\ y = x ++ map (fun one => l * one) (repeat 1 (Z.to_nat k)).
Proof.
  unfold repeat_last, ones. intros H.
  destruct (last x) as [l |]; [| discriminate H]. cbn [bind] in H.
  destruct (Z.ltb_spec k 0); [discriminate H |]. cbn [bind] in H.
  injection H as <-. split; [assumption |]. eauto.
Qed.

Section ConstructorFacts.
Variable from_csv : string -> result DataFrame.
Variable rng : nat -> Q.
Variable least_squares : (list Q -> result (list Q)) -> list Q -> result lsq_result.
Variable nnls : list (list Q) -> list Q -> result (list Q * Q).
Variable norm : list Q -> Q.
Variable sqrt : Q -> Q.

(** A successful construction, taken apart. *)
Lemma init_ok_parts sum_data lt ec blank_correct mass_rsd add_noise ir :
  IsotopeResult_init from_csv rng least_squares nnls norm sqrt
    sum_data lt ec blank_correct mass_rsd add_noise = Ok ir ->
  exists fr m R F c dpk rmse warn Fpk res14 d13 Fm',
    _extract_isotopes from_csv rng sum_data mass_rsd add_noise = Ok fr /\
    (if blank_correct
     then _blank_correct (map inject_Z (t0_frac fr)) (map inject_Z (tf_frac fr))
            (mass_frac fr) (R13_frac fr) (Fm_frac fr)
     else Ok (mass_frac fr, R13_frac fr, Fm_frac fr)) = Ok (m, R, F) /\
    rows5 (map inject_Z (t0_frac fr)) (map inject_Z (tf_frac fr)) m
          (map _R13_to_d13C R) F = Ok (fraction_info ir) /\
    _calc_cont_ptf lt ec (map inject_Z (t0_frac fr)) (map inject_Z (tf_frac fr))
      = Ok c /\
    _fit_R13_peak least_squares norm sqrt R (ind_wgh c) lt ec = Ok (dpk, rmse, warn) /\
    nnls (cont_ptf c) F = Ok (Fpk, res14) /\
    repeat_last dpk
      (Z.of_nat (length (ec_rel_area ec)) - Z.of_nat (shape1 (ec_peaks ec))) = Ok d13 /\
    repeat_last Fpk
      (Z.of_nat (length (ec_rel_area ec)) - Z.of_nat (shape1 (ec_peaks ec))) = Ok Fm' /\
    rows3 (map (fun a => a * sum m) (ec_rel_area ec)) d13 Fm' = Ok (peak_info ir) /\
    warned ir = warn.
Proof.
  unfold IsotopeResult_init. intros H.
  destruct (_extract_isotopes _ _ _ _ _) as [fr |]; [| discriminate H].
  cbn [bind] in H.
  match type of H with
  | bind ?b _ = _ => destruct b as [[[m R] F] |] eqn:Hb; [| discriminate H]
  end.
  cbn [bind] in H.
  destruct (rows5 _ _ _ _ _) as [fi |] eqn:Hfi; [| discriminate H]. cbn [bind] in H.
  destruct (_calc_cont_ptf _ _ _ _) as [c |] eqn:Hc; [| discriminate H].
  cbn [bind] in H.
  destruct (thermogram lt ec) as [tg |]; [| discriminate H]. cbn [bind] in H.
  destruct (zip_with Qminus _ m) as [dm |]; [| discriminate H]. cbn [bind] in H.
  destruct (_fit_R13_peak _ _ _ _ _ _ _) as [[[dpk rmse] warn] |] eqn:Hfit;
    [| discriminate H].
  cbn [bind] in H.
  destruct (nnls _ _) as [[Fpk res14] |] eqn:Hn; [| discriminate H]. cbn [bind] in H.
  rewrite length_map in H.
  destruct (repeat_last dpk _) as [d13 |] eqn:H13; [| discriminate H].
  cbn [bind] in H.
  destruct (repeat_last Fpk _) as [Fm' |] eqn:H14; [| discriminate H].
  cbn [bind] in H.
  destruct (rows3 _ _ _) as [pi |] eqn:Hpi; [| discriminate H]. cbn [bind] in H.
  injection H as <-. cbn [fraction_info peak_info warned].
  exists fr, m, R, F, c, dpk, rmse, warn, Fpk, res14, d13, Fm'.
  repeat (split; [first [reflexivity | assumption] |]). reflexivity.
Qed.

(** X28: what the 13C fit reports: the peak values are the solver's ratios
    on the d13C scale, a warning is flagged exactly when the solver did not
    succeed, and the RMSE is the norm, over the square root of the number of
    fractions, of the solver's residuals carried to the d13C scale, that is
    multiplied by [-1000/Rpdb]. *)
Theorem fit_R13_peak_reports (R13_frac : list Q) (ind_wgh : list Z)
    (lt : LaplaceTransform) (ec : EnergyComplex) (res : lsq_result)
    (dpk : list Q) (rmse : Q) (warn : bool) :
  least_squares (fun r => _R13_diff r R13_frac ind_wgh lt ec)
    (repeat (Rpdb * 1) (shape1 (ec_peaks ec))) = Ok res ->
  _fit_R13_peak least_squares norm sqrt R13_frac ind_wgh lt ec = Ok (dpk, rmse, warn) ->
  dpk = map _R13_to_d13C (lsq_x res) /\
  warn = negb (lsq_success res) /\
  exists diff,
    rmse = norm diff / sqrt (nat_Q (length R13_frac)) /\
    length diff = length R13_frac /\
    Forall2 (fun d f => d == - (1000 / Rpdb) * f) diff (lsq_fun res).
Proof.
  intros Hls H. unfold _fit_R13_peak in H. rewrite Hls in H. cbn [bind] in H.
  destruct (zip_with Qplus (lsq_fun res) R13_frac) as [pred |] eqn:Hp;
    [| discriminate H].
  cbn [bind] in H.
  destruct (zip_with Qminus _ _) as [diff |] eqn:Hd; [| discriminate H].
  cbn [bind] in H. injection H as <- <- <-.
  split; [reflexivity |]. split; [reflexivity |].
  exists diff. split; [reflexivity |].
  pose proof (zip_with_length _ _ _ _ Hd) as [Hl _]. rewrite length_map in Hl.
  split; [exact Hl |].
  clear - Hp Hd. revert pred diff R13_frac Hp Hd.
  induction (lsq_fun res) as [| f fs IH]; intros pred diff R Hp Hd;
    destruct R as [| x R]; simpl in Hp; try discriminate Hp.
  - injection Hp as <-. simpl in Hd. injection Hd as <-. constructor.
  - bind_ok Hp. injection Hp as <-. simpl in Hd. bind_ok Hd. injection Hd as <-.
    constructor; [| eapply IH; eassumption].
    unfold _R13_to_d13C, Rpdb. field.
Qed.

(** X24: a constructed result has one row per fraction in its fraction
    table and one row per original peak (one per entry of [rel_area]) in
    its peak table; construction never succeeds when [rel_area] has fewer
    entries than there are combined peaks. *)
Theorem init_table_shapes sum_data lt ec blank_correct mass_rsd add_noise ir fr :
  IsotopeResult_init from_csv rng least_squares nnls norm sqrt
    sum_data lt ec blank_correct mass_rsd add_noise = Ok ir ->
  _extract_isotopes from_csv rng sum_data mass_rsd add_noise = Ok fr ->
  length (fraction_info ir) = length (t0_frac fr) /\
  length (peak_info ir) = length (ec_rel_area ec) /\
  (shape1 (ec_peaks ec) <= length (ec_rel_area ec))%nat /\
  (shape1 (ec_peaks ec) <= length (t0_frac fr))%nat.
Proof.
  intros H Hex.
  destruct (init_ok_parts _ _ _ _ _ _ _ H)
    as (fr' & m & R & F & c & dpk & rmse & warn & Fpk & res14 & d13 & Fm'
        & Hex' & _ & Hfi & Hc & _ & _ & H13 & _ & Hpi & _).
  rewrite Hex in Hex'. injection Hex' as <-.
  destruct (rows5_columns _ _ _ _ _ _ Hfi) as (H1 & _).
  destruct (rows3_columns _ _ _ _ Hpi) as (H2 & _).
  destruct (repeat_last_ok _ _ _ H13) as [Hk _].
  apply (f_equal (@length Q)) in H1, H2. rewrite !length_map in H1, H2.
  repeat split; try lia.
  unfold _calc_cont_ptf in Hc.
  destruct (column_stack2 _ _); [| discriminate Hc]. cbn [bind] in Hc.
  rewrite length_map in Hc.
  destruct (Nat.ltb_spec (length (t0_frac fr)) (shape1 (ec_peaks ec)));
    [discriminate Hc | assumption].
Qed.

(** X25: in a constructed result the mass of each peak is its relative area
    times the total of the fraction table's masses, so the peak masses add
    up to that total times the sum of the relative areas. *)
Theorem init_peak_masses sum_data lt ec blank_correct mass_rsd add_noise ir :
  IsotopeResult_init from_csv rng least_squares nnls norm sqrt
    sum_data lt ec blank_correct mass_rsd add_noise = Ok ir ->
  let total := sum (map (fun row => snd (fst (fst row))) (fraction_info ir)) in
  map (fun row => fst (fst row)) (peak_info ir)
  = map (fun a => a * total) (ec_rel_area ec) /\
  sum (map (fun row => fst (fst row)) (peak_info ir))
  == sum (ec_rel_area ec) * total.
Proof.
  intros H.
  destruct (init_ok_parts _ _ _ _ _ _ _ H)
    as (fr & m & R & F & c & dpk & rmse & warn & Fpk & res14 & d13 & Fm'
        & _ & _ & Hfi & _ & _ & _ & _ & _ & Hpi & _).
  destruct (rows5_columns _ _ _ _ _ _ Hfi) as (_ & _ & H3 & _).
  destruct (rows3_columns _ _ _ _ Hpi) as (H1 & _).
  cbv zeta. rewrite H3, H1. split; [reflexivity |].
  generalize (sum m) as t. generalize (ec_rel_area ec) as l. clear.
  intros l t. induction l as [| a l IH]; simpl; [ring | rewrite IH; ring].
Qed.

(** X26: without blank correction and without noise the fraction table
    reports the input table: its mass and Fm columns are the table's
    [ug_frac] and [Fm] columns from the third row on, and its d13C column
    equals the table's [d13C] column from the third row on. *)
Theorem init_reports_table df lt ec mass_rsd ir :
  IsotopeResult_init from_csv rng least_squares nnls norm sqrt
    (SumFrame df) lt ec false mass_rsd false = Ok ir ->
  exists ug d13C Fm,
    getattr df "ug_frac" = Ok ug /\ getattr df "d13C" = Ok d13C /\
    getattr df "Fm" = Ok Fm /\
    Forall2 Qeq (map (fun row => snd (fst (fst row))) (fraction_info ir)) (slice_2 ug) /\
    Forall2 Qeq (map (fun row => snd (fst row)) (fraction_info ir)) (slice_2 d13C) /\
    Forall2 Qeq (map (fun row => snd row) (fraction_info ir)) (slice_2 Fm).
Proof.
  intros H.
  destruct (init_ok_parts _ _ _ _ _ _ _ H)
    as (fr & m & R & F & c & dpk & rmse & warn & Fpk & res14 & d13 & Fm'
        & Hex & Hb & Hfi & _).
  injection Hb as <- <- <-.
  destruct (rows5_columns _ _ _ _ _ _ Hfi) as (_ & _ & H3 & H4 & H5).
  rewrite H3, H4, H5.
  destruct (extract_ok_parts _ _ _ _ _ _ Hex)
    as (df' & st & s0 & ug & d & Fc & e0 & e1 & e2 & dn & Hdf & _ & _ & Hug & Hd & HF
        & _ & _ & Hm & Hdn & HR & HFm & Hz).
  injection Hdf as <-. destruct (Hz eq_refl) as (Z0 & Z1 & Z2).
  exists ug, d, Fc. repeat split; try assumption.
  - eapply zip_plus_zero_id; eassumption.
  - rewrite HR. apply roundtrip_list. eapply zip_plus_zero_id; eassumption.
  - eapply zip_plus_zero_id; eassumption.
Qed.

Lemma nth_error_repeated_tail (x : list Q) (l : Q) (k i : nat) (v : Q) :
  (length x <= i)%nat ->
  nth_error (x ++ map (fun one => l * one) (repeat 1 k)) i = Some v -> v == l.
Proof.
  intros Hi Hv. rewrite nth_error_app2 in Hv by exact Hi.
  apply nth_error_In, in_map_iff in Hv. destruct Hv as (one & <- & Hone).
  apply repeat_spec in Hone. subst one. ring.
Qed.

Lemma last_nth_error (x : list Q) (l : Q) :
  last x = Ok l -> nth_error x (length x - 1) = Some l /\ (1 <= length x)%nat.
Proof.
  unfold last. intros H. destruct (rev x) as [| y r] eqn:Hr; [discriminate H |].
  injection H as ->.
  assert (Hx : x = rev r ++ [l]).
  { rewrite <- (rev_involutive x), Hr. reflexivity. }
  subst x. rewrite length_app, length_rev. simpl. split; [| lia].
  rewrite nth_error_app2 by (rewrite length_rev; lia).
  rewrite length_rev. replace (length r + 1 - 1 - length r)%nat with 0%nat by lia.
  reflexivity.
Qed.

Lemma repeated_column (dpk d13 : list Q) (k : Z) (n i : nat) (x y : Q) :
  repeat_last dpk k = Ok d13 ->
  Z.of_nat (length d13) = (Z.of_nat n + k)%Z ->
  (n - 1 <= i)%nat ->
  nth_error d13 i = Some x -> nth_error d13 (n - 1) = Some y ->
  x == y /\ (1 <= n)%nat.
Proof.
  intros Hr Hlen Hi Hx Hy.
  destruct (repeat_last_ok _ _ _ Hr) as [Hk (l & Hl & ->)].
  destruct (last_nth_error _ _ Hl) as [Hlast H1].
  rewrite length_app, length_map, repeat_length in Hlen.
  assert (Hn : length dpk = n) by lia. subst n. split; [| exact H1].
  rewrite nth_error_app1 in Hy by lia. rewrite Hlast in Hy. injection Hy as <-.
  destruct (Nat.eq_dec i (length dpk - 1)) as [-> | Hne].
  - rewrite nth_error_app1 in Hx by lia. rewrite Hlast in Hx.
    injection Hx as <-. reflexivity.
  - eapply nth_error_repeated_tail; [| exact Hx]. lia.
Qed.

(** X27: peaks that were combined share their isotope results: in the peak
    table every row from the last combined peak on carries the d13C and the
    Fm of that peak, and a constructed result has at least one peak. *)
Theorem init_repeats_combined sum_data lt ec blank_correct mass_rsd add_noise ir
    (i : nat) (row last_row : Q * Q * Q) :
  IsotopeResult_init from_csv rng least_squares nnls norm sqrt
    sum_data lt ec blank_correct mass_rsd add_noise = Ok ir ->
  (shape1 (ec_peaks ec) - 1 <= i)%nat ->
  nth_error (peak_info ir) i = Some row ->
  nth_error (peak_info ir) (shape1 (ec_peaks ec) - 1) = Some last_row ->
  snd (fst row) == snd (fst last_row) /\ snd row == snd last_row /\
  (1 <= shape1 (ec_peaks ec))%nat.
Proof.
  intros H Hi Hrow Hlast.
  destruct (init_ok_parts _ _ _ _ _ _ _ H)
    as (fr & m & R & F & c & dpk & rmse & warn & Fpk & res14 & d13 & Fm'
        & _ & _ & _ & _ & _ & _ & H13 & H14 & Hpi & _).
  destruct (rows3_columns _ _ _ _ Hpi) as (H1 & H2 & H3).
  assert (Hl2 : length d13 = length (ec_rel_area ec)).
  { rewrite <- H2, <- (length_map (fun a => a * sum m) (ec_rel_area ec)), <- H1.
    now rewrite !length_map. }
  assert (Hl3 : length Fm' = length (ec_rel_area ec)).
  { rewrite <- H3, <- (length_map (fun a => a * sum m) (ec_rel_area ec)), <- H1.
    now rewrite !length_map. }
  pose proof (map_nth_error (fun r => snd (fst r)) _ _ Hrow) as Hx2.
  pose proof (map_nth_error (fun r => snd (fst r)) _ _ Hlast) as Hy2.
  pose proof (map_nth_error (fun r => snd r) _ _ Hrow) as Hx3.
  pose proof (map_nth_error (fun r => snd r) _ _ Hlast) as Hy3.
  rewrite H2 in Hx2, Hy2. rewrite H3 in Hx3, Hy3.
  assert (Hd : snd (fst row) == snd (fst last_row) /\ (1 <= shape1 (ec_peaks ec))%nat).
  { eapply (repeated_column dpk d13); [exact H13 | lia | exact Hi | exact Hx2 | exact Hy2]. }
  assert (HF : snd row == snd last_row /\ (1 <= shape1 (ec_peaks ec))%nat).
  { eapply (repeated_column Fpk Fm'); [exact H14 | lia | exact Hi | exact Hx3 | exact Hy3]. }
  destruct Hd as [Hd Hn]. destruct HF as [HF _]. auto.
Qed.

End ConstructorFacts.

Lemma init_table_shapes_witness :
  length (fraction_info sample_ir) = length (t0_frac sample_fractions) /\
  length (peak_info sample_ir) = length (ec_rel_area sample_ec_merged) /\
  (shape1 (ec_peaks sample_ec_merged) <= length (ec_rel_area sample_ec_merged))%nat /\
  (shape1 (ec_peaks sample_ec_merged) <= length (t0_frac sample_fractions))%nat.
Proof.
  apply (init_table_shapes no_csv no_rng no_least_squares no_nnls no_norm no_sqrt
           (SumFrame table_full) sample_lt sample_ec_merged false (1 # 100) false).
  - vm_compute. reflexivity.
  - vm_compute. reflexivity.
Defined.

Lemma init_peak_masses_witness :
  let total := sum (map (fun row => snd (fst (fst row))) (fraction_info sample_ir)) in
  map (fun row => fst (fst row)) (peak_info sample_ir)
  = map (fun a => a * total) (ec_rel_area sample_ec_merged) /\
  sum (map (fun row => fst (fst row)) (peak_info sample_ir))
  == sum (ec_rel_area sample_ec_merged) * total.
Proof.
  apply (init_peak_masses no_csv no_rng no_least_squares no_nnls no_norm no_sqrt
           (SumFrame table_full) sample_lt sample_ec_merged false (1 # 100) false).
  vm_compute. reflexivity.
Defined.

Lemma init_reports_table_witness :
  exists ug d13C Fm,
    getattr table_full "ug_frac" = Ok ug /\ getattr table_full "d13C" = Ok d13C /\
    getattr table_full "Fm" = Ok Fm /\
    Forall2 Qeq (map (fun row => snd (fst (fst row))) (fraction_info sample_ir))
            (slice_2 ug) /\
    Forall2 Qeq (map (fun row => snd (fst row)) (fraction_info sample_ir))
            (slice_2 d13C) /\
    Forall2 Qeq (map (fun row => snd row) (fraction_info sample_ir)) (slice_2 Fm).
Proof.
  apply (init_reports_table no_csv no_rng no_least_squares no_nnls no_norm no_sqrt
           table_full sample_lt sample_ec_merged (1 # 100)).
  vm_compute. reflexivity.
Defined.

Lemma init_repeats_combined_witness :
  snd (fst (nth 2 (peak_info sample_ir) (0, 0, 0)))
  == snd (fst (nth 1 (peak_info sample_ir) (0, 0, 0))) /\
  snd (nth 2 (peak_info sample_ir) (0, 0, 0))
  == snd (nth 1 (peak_info sample_ir) (0, 0, 0)) /\
  (1 <= shape1 (ec_peaks sample_ec_merged))%nat.
Proof.
  apply (init_repeats_combined no_csv no_rng no_least_squares no_nnls no_norm no_sqrt
           (SumFrame table_full) sample_lt sample_ec_merged false (1 # 100) false
           sample_ir 2).
  - vm_compute. reflexivity.
  - simpl. lia.
  - reflexivity.
  - reflexivity.
Defined.

Lemma fit_R13_peak_reports_witness :
  [_R13_to_d13C (Rpdb * 1); _R13_to_d13C (Rpdb * 1)]
  = map _R13_to_d13C (lsq_x (Lsq [Rpdb * 1; Rpdb * 1] sample_R13_diff true)) /\
  false = negb (lsq_success (Lsq [Rpdb * 1; Rpdb * 1] sample_R13_diff true)) /\
  exists diff,
    sample_fit_rmse = no_norm diff / no_sqrt (nat_Q (length [Rpdb; Rpdb])) /\
    length diff = length [Rpdb; Rpdb] /\
    Forall2 (fun d f => d == - (1000 / Rpdb) * f) diff
      (lsq_fun (Lsq [Rpdb * 1; Rpdb * 1] sample_R13_diff true)).
Proof.
  apply (fit_R13_peak_reports no_least_squares no_norm no_sqrt
           [Rpdb; Rpdb] [2; 3]%Z sample_lt sample_ec).
  - vm_compute. reflexivity.
  - vm_compute. reflexivity.
Defined.

End IsotopeMore.

